(** * package_finder: a shallow embedding and its verified properties

    The development follows the two programs of [python_scripts/src]:
    [package_finder.py] and, in the modules on file_finder,
    [file_finder.py].

    Modelling conventions.
    - Text is a [string] of 8-bit characters, read as the code points
      0..255; the character tables ([is_space], [is_word], [lower_char])
      are those of Python's [str] methods and of [re] on that range.
    - A pathlib [Path] is the list of its components; [suffix] is the one
      of [PurePath] ([0 < i < len(name) - 1] for the last dot).
    - The file system is a finite tree; a file carries its decoded text, or
      [None] when opening it raises [OSError]; a directory that cannot be
      listed is [Locked].
    - An exception that nothing catches is a [Raise] in the [result] monad:
      [re.error] from [re.compile], [ValueError] from [range] with a zero
      step, from [ProcessPoolExecutor] with no worker, and from
      [relative_to].
    - The order in which the worker pool hands back the batches is a
      parameter ([arrival]) of the search.
    - Verbose progress printing does not influence any returned value and is
      left out.
    - [fnmatch] is the one of POSIX, where [os.path.normcase] changes
      nothing; paths compare component by component, as [PurePosixPath]
      compares them. *)

From Stdlib Require Import Bool Arith ZArith Lia List Ascii String.
From Stdlib Require Import Permutation Sorted DecimalString.
Import ListNotations.

Set Warnings "-register-all".
Local Open Scope string_scope.
Local Open Scope list_scope.

Notation "s +++ t" := (String.append s t) (at level 60, right associativity).

(** ** Characters and strings *)

Module Text.

Definition code (c : ascii) : N := N_of_ascii c.

Definition in_range (lo hi : N) (c : ascii) : bool :=
  ((lo <=? code c) && (code c <=? hi))%N.

(** [str.isspace] on one character; also the class [\s]. *)
Definition is_space (c : ascii) : bool :=
  in_range 9 13 c || in_range 28 32 c
  || (code c =? 133)%N || (code c =? 160)%N.

(** [\d]: the decimal digits. *)
Definition is_digit (c : ascii) : bool := in_range 48 57 c.

(** [str.isalpha] on one character. *)
Definition is_alpha (c : ascii) : bool :=
  in_range 65 90 c || in_range 97 122 c
  || (code c =? 170)%N || (code c =? 181)%N || (code c =? 186)%N
  || in_range 192 214 c || in_range 216 246 c || in_range 248 255 c.

(** [str.isalnum] on one character. *)
Definition is_alnum (c : ascii) : bool :=
  is_alpha c || is_digit c
  || (code c =? 178)%N || (code c =? 179)%N || (code c =? 185)%N
  || in_range 188 190 c.

(** The class [\w]: alphanumerics and the underscore. *)
Definition is_word (c : ascii) : bool := is_alnum c || (code c =? 95)%N.

(** ASCII letters and digits, as sre_parse tests them in escapes. *)
Definition is_ascii_letter (c : ascii) : bool :=
  in_range 65 90 c || in_range 97 122 c.

Definition is_upper (c : ascii) : bool :=
  in_range 65 90 c || in_range 192 214 c || in_range 216 222 c.

Definition lower_char (c : ascii) : ascii :=
  if is_upper c then ascii_of_N (code c + 32) else c.

(** [str.lower]. *)
Fixpoint lower (s : string) : string :=
  match s with
  | EmptyString => EmptyString
  | String c s' => String (lower_char c) (lower s')
  end.

Fixpoint lstrip (s : string) : string :=
  match s with
  | String c s' => if is_space c then lstrip s' else s
  | EmptyString => EmptyString
  end.

Fixpoint rstrip (s : string) : string :=
  match s with
  | EmptyString => EmptyString
  | String c s' =>
      match rstrip s' with
      | EmptyString => if is_space c then EmptyString else String c EmptyString
      | r => String c r
      end
  end.

(** [str.strip()] with no argument. *)
Definition strip (s : string) : string := rstrip (lstrip s).

(** [s.endswith(p)]. *)
Definition endswith (s p : string) : bool :=
  (String.length p <=? String.length s)%nat
  && String.eqb (substring (String.length s - String.length p)
                           (String.length p) s) p.

(** [needle in s] for strings. *)
Fixpoint contains (s needle : string) : bool :=
  String.prefix needle s
  || match s with
     | EmptyString => false
     | String _ s' => contains s' needle
     end.

(** Index of the last occurrence of [sep] in [s]. *)
Fixpoint rfind (s sep : string) : option nat :=
  match s with
  | EmptyString => if String.prefix sep s then Some 0 else None
  | String _ s' =>
      match rfind s' sep with
      | Some i => Some (S i)
      | None => if String.prefix sep s then Some 0 else None
      end
  end.

(** [s.rsplit(sep, 1)[0]]: the text before the last occurrence of [sep],
    or all of [s] when [sep] does not occur. *)
Definition rsplit1_head (s sep : string) : string :=
  match rfind s sep with
  | Some i => substring 0 i s
  | None => s
  end.

(** Text-mode reading translates "\r\n" and "\r" to "\n". *)
Fixpoint universal_newlines (s : string) : string :=
  match s with
  | EmptyString => EmptyString
  | String c s' =>
      if (code c =? 13)%N then
        match s' with
        | String d s'' =>
            if (code d =? 10)%N then String d (universal_newlines s'')
            else String "010" (universal_newlines s')
        | EmptyString => String "010" EmptyString
        end
      else String c (universal_newlines s')
  end.

(** Iterating over a text file: the lines, each with its final "\n". *)
Fixpoint lines_from (cur : string) (s : string) : list string :=
  match s with
  | EmptyString =>
      match cur with EmptyString => [] | _ => [cur] end
  | String c s' =>
      if (code c =? 10)%N then (cur +++ String c EmptyString) :: lines_from EmptyString s'
      else lines_from (cur +++ String c EmptyString) s'
  end.

Definition readlines (s : string) : list string := lines_from EmptyString s.

(** [s.split("\n")]. *)
Fixpoint split_from (cur : string) (s : string) : list string :=
  match s with
  | EmptyString => [cur]
  | String c s' =>
      if (code c =? 10)%N then cur :: split_from EmptyString s'
      else split_from (cur +++ String c EmptyString) s'
  end.

Definition split_nl (s : string) : list string := split_from EmptyString s.

(** [s[:n].count("\n")]. *)
Fixpoint count_nl_before (n : nat) (s : string) : nat :=
  match n, s with
  | S n', String c s' =>
      (if (code c =? 10)%N then 1 else 0) + count_nl_before n' s'
  | _, _ => 0
  end.

(** [str(n)] for a natural number. *)
Definition str_nat (n : nat) : string := NilZero.string_of_uint (Nat.to_uint n).

(** [str(z)] for an integer. *)
Definition str_Z (z : Z) : string :=
  match z with
  | Zneg p => "-" +++ str_nat (Pos.to_nat p)
  | _ => str_nat (Z.to_nat z)
  end.

(** ["sep".join(l)]. *)
Fixpoint join (sep : string) (l : list string) : string :=
  match l with
  | [] => EmptyString
  | [x] => x
  | x :: l' => x +++ sep +++ join sep l'
  end.

(** [c * n] for a one-character string. *)
Fixpoint repeat_char (c : ascii) (n : nat) : string :=
  match n with
  | 0 => EmptyString
  | S n' => String c (repeat_char c n')
  end.

(** [x in l] for a collection of strings. *)
Definition mem (x : string) (l : list string) : bool :=
  existsb (String.eqb x) l.

End Text.

(** ** Paths *)

Definition Path := list string.

(** [Path.name]: the final component, empty for the root. *)
Definition path_name (p : Path) : string := last p EmptyString.

(** [p / name]. *)
Definition path_join (p : Path) (name : string) : Path := p ++ [name].

(** [PurePath.suffix] of a file name. *)
Definition suffix (name : string) : string :=
  match Text.rfind name "." with
  | Some i =>
      if ((0 <? i) && (i <? String.length name - 1))%nat
      then substring i (String.length name - i) name
      else EmptyString
  | None => EmptyString
  end.

(** Paths compare as their component lists, component by component. *)
Fixpoint path_compare (p q : Path) : comparison :=
  match p, q with
  | [], [] => Eq
  | [], _ :: _ => Lt
  | _ :: _, [] => Gt
  | a :: p', b :: q' =>
      match String.compare a b with
      | Eq => path_compare p' q'
      | c => c
      end
  end.

(** [str(path.relative_to(root))]; [None] stands for the [ValueError]
    raised when [root] is not a prefix of [path]. *)
Fixpoint relative_to (path root : Path) : option Path :=
  match root, path with
  | [], _ => Some path
  | r :: root', c :: path' =>
      if String.eqb r c then relative_to path' root' else None
  | _ :: _, [] => None
  end.

Definition str_rel (p : Path) : string :=
  match p with
  | [] => "."
  | _ => Text.join "/" p
  end.

(** ** The file system *)

Inductive node : Type :=
| File (content : option string)
| Dir (entries : list (string * node))
| Locked.

Definition is_dir (n : node) : bool :=
  match n with File _ => false | _ => true end.

Definition dirnames_of (es : list (string * node)) : list string :=
  map fst (filter (fun e => is_dir (snd e)) es).

Definition filenames_of (es : list (string * node)) : list string :=
  map fst (filter (fun e => negb (is_dir (snd e))) es).

(** [os.walk(top)], top-down, for a caller that replaces [dirnames] in
    place by the names passing [keep] before the walk goes on.  A directory
    that cannot be listed, or a [top] that is no directory, contributes
    nothing. *)
Fixpoint os_walk (keep : string -> bool) (top : Path) (n : node)
  : list (Path * list string * list string) :=
  match n with
  | Dir es =>
      (top, filter keep (dirnames_of es), filenames_of es)
      :: (fix sub (l : list (string * node)) :=
            match l with
            | [] => []
            | (name, child) :: l' =>
                (if keep name then os_walk keep (path_join top name) child
                 else [])
                ++ sub l'
            end) es
  | _ => []
  end.

Fixpoint entry (name : string) (es : list (string * node)) : option node :=
  match es with
  | [] => None
  | (n, child) :: es' => if String.eqb n name then Some child else entry name es'
  end.

(** The node a path leads to, from the top of the file system. *)
Fixpoint lookup (fs : node) (p : Path) : option node :=
  match p with
  | [] => Some fs
  | name :: p' =>
      match fs with
      | Dir es =>
          match entry name es with
          | Some child => lookup child p'
          | None => None
          end
      | _ => None
      end
  end.

(** [path.exists()] and [path.is_dir()]. *)
Definition exists_ (fs : node) (p : Path) : bool :=
  match lookup fs p with Some _ => true | None => false end.

Definition isdir (fs : node) (p : Path) : bool :=
  match lookup fs p with Some n => is_dir n | None => false end.

(** [open(p).read()] in text mode; [None] stands for [OSError]. *)
Definition read_text (fs : node) (p : Path) : option string :=
  match lookup fs p with
  | Some (File (Some text)) => Some (Text.universal_newlines text)
  | _ => None
  end.

(** ** Regular expressions: the fragment of Python's [re] the program uses

    Compilation follows sre_parse: a lexer that reads escapes and character
    sets, and a parser that keeps the open groups on a stack.  [None] stands
    for [re.error], and also for the constructs left out of the fragment
    (counted repeats, ranges in sets, numeric escapes, possessive
    quantifiers, group extensions other than [(?:]), none of which the
    program writes.  A capturing group is read as a group: only the
    existence and the start of a match are observed. *)

Module Re.

Inductive cls : Type := CDigit | CSpace | CWord.

Inductive anchor : Type :=
| ABol        (* ^  *)
| AEol        (* $  *)
| AWordB      (* \b *)
| ANotWordB   (* \B *)
| AStart      (* \A *)
| AEnd.       (* \Z *)

Inductive set_item : Type :=
| SChr (c : ascii)
| SCls (neg : bool) (k : cls).

Inductive regex : Type :=
| REps
| RLit (c : ascii)
| RAny
| RCls (neg : bool) (k : cls)
| RSet (neg : bool) (items : list set_item)
| RAt (a : anchor)
| RCat (r1 r2 : regex)
| ROr (r1 r2 : regex)
| RStar (r : regex)
| RPlus (r : regex)
| ROpt (r : regex).

Inductive token : Type :=
| TAtom (r : regex)
| TOpen | TClose | TBar | TStar | TPlus | TQuest.

(** *** [re.escape] *)

(** The characters of [_special_chars_map]. *)
Definition special_chars : list ascii :=
  list_ascii_of_string "()[]{}?*+-|^$\.&~# "
  ++ ["009"; "010"; "013"; "011"; "012"]%char.

Definition is_special (c : ascii) : bool :=
  existsb (Ascii.eqb c) special_chars.

Fixpoint escape (s : string) : string :=
  match s with
  | EmptyString => EmptyString
  | String c s' =>
      if is_special c then String "\" (String c (escape s'))
      else String c (escape s')
  end.

(** *** Lexing *)

Inductive mode : Type :=
| MNormal
| MSet (neg : bool) (acc : list set_item).

Definition ocons {A} (x : A) (o : option (list A)) : option (list A) :=
  option_map (cons x) o.

Definition class_escape (d : ascii) : option (bool * cls) :=
  if Ascii.eqb d "d" then Some (false, CDigit)
  else if Ascii.eqb d "D" then Some (true, CDigit)
  else if Ascii.eqb d "s" then Some (false, CSpace)
  else if Ascii.eqb d "S" then Some (true, CSpace)
  else if Ascii.eqb d "w" then Some (false, CWord)
  else if Ascii.eqb d "W" then Some (true, CWord)
  else None.

(** The table [ESCAPES] of sre_parse, without [\b]. *)
Definition char_escape (d : ascii) : option ascii :=
  if Ascii.eqb d "a" then Some "007"%char
  else if Ascii.eqb d "f" then Some "012"%char
  else if Ascii.eqb d "n" then Some "010"%char
  else if Ascii.eqb d "r" then Some "013"%char
  else if Ascii.eqb d "t" then Some "009"%char
  else if Ascii.eqb d "v" then Some "011"%char
  else if Ascii.eqb d "\" then Some "\"%char
  else None.

(** A remaining escape [\d] is the character itself unless [d] is an ASCII
    letter (a bad escape) or a digit (a group reference or octal code). *)
Definition plain_escape (d : ascii) : option ascii :=
  if Text.is_ascii_letter d || Text.is_digit d then None else Some d.

(** An escape outside a character set. *)
Definition escape_atom (d : ascii) : option regex :=
  match class_escape d with
  | Some (neg, k) => Some (RCls neg k)
  | None =>
      if Ascii.eqb d "b" then Some (RAt AWordB)
      else if Ascii.eqb d "B" then Some (RAt ANotWordB)
      else if Ascii.eqb d "A" then Some (RAt AStart)
      else if Ascii.eqb d "Z" then Some (RAt AEnd)
      else match char_escape d with
           | Some c => Some (RLit c)
           | None => option_map RLit (plain_escape d)
           end
  end.

(** An escape inside a character set; [\b] is the backspace there. *)
Definition escape_item (d : ascii) : option set_item :=
  match class_escape d with
  | Some (neg, k) => Some (SCls neg k)
  | None =>
      if Ascii.eqb d "b" then Some (SChr "008"%char)
      else match char_escape d with
           | Some c => Some (SChr c)
           | None => option_map SChr (plain_escape d)
           end
  end.

Fixpoint lex (md : mode) (s : string) {struct s} : option (list token) :=
  match md, s with
  | MNormal, EmptyString => Some []
  | MSet _ _, EmptyString => None
  | MNormal, String c rest =>
      if Ascii.eqb c "\" then
        match rest with
        | EmptyString => None
        | String d rest' =>
            match escape_atom d with
            | Some a => ocons (TAtom a) (lex MNormal rest')
            | None => None
            end
        end
      else if Ascii.eqb c "[" then
        match rest with
        | String "^" rest' => lex (MSet true []) rest'
        | _ => lex (MSet false []) rest
        end
      else if Ascii.eqb c "(" then
        match rest with
        | String "?" (String ":" rest') => ocons TOpen (lex MNormal rest')
        | String "?" _ => None
        | _ => ocons TOpen (lex MNormal rest)
        end
      else if Ascii.eqb c ")" then ocons TClose (lex MNormal rest)
      else if Ascii.eqb c "|" then ocons TBar (lex MNormal rest)
      else if Ascii.eqb c "*" then ocons TStar (lex MNormal rest)
      else if Ascii.eqb c "+" then ocons TPlus (lex MNormal rest)
      else if Ascii.eqb c "?" then ocons TQuest (lex MNormal rest)
      else if Ascii.eqb c "^" then ocons (TAtom (RAt ABol)) (lex MNormal rest)
      else if Ascii.eqb c "$" then ocons (TAtom (RAt AEol)) (lex MNormal rest)
      else if Ascii.eqb c "." then ocons (TAtom RAny) (lex MNormal rest)
      else if Ascii.eqb c "{" then None
      else ocons (TAtom (RLit c)) (lex MNormal rest)
  | MSet neg acc, String c rest =>
      if Ascii.eqb c "]" && negb (match acc with [] => true | _ => false end)
      then ocons (TAtom (RSet neg (rev acc))) (lex MNormal rest)
      else if Ascii.eqb c "\" then
        match rest with
        | EmptyString => None
        | String d rest' =>
            match escape_item d with
            | Some it => lex (MSet neg (it :: acc)) rest'
            | None => None
            end
        end
      else if Ascii.eqb c "-" && negb (match acc with [] => true | _ => false end)
      then
        match rest with
        | String "]" _ => lex (MSet neg (SChr c :: acc)) rest
        | _ => None
        end
      else lex (MSet neg (SChr c :: acc)) rest
  end.

(** *** Parsing *)

Fixpoint mk_seq (l : list regex) : regex :=
  match l with
  | [] => REps
  | r :: l' => RCat r (mk_seq l')
  end.

Fixpoint mk_alt (l : list regex) : regex :=
  match l with
  | [] => REps
  | [r] => r
  | r :: l' => ROr r (mk_alt l')
  end.

(** One open group: the finished branches and the items of the branch being
    read, both latest first. *)
Record frame : Type := Frame { branches : list regex; items : list regex }.

Record pstate : Type :=
  PState { stack : list frame; top : frame; fresh : bool }.

Definition init : pstate := PState [] (Frame [] []) false.

Definition close_frame (f : frame) : regex :=
  mk_alt (rev (mk_seq (rev (items f)) :: branches f)).

Definition is_repeat (r : regex) : bool :=
  match r with RStar _ | RPlus _ | ROpt _ => true | _ => false end.

Definition is_at (r : regex) : bool :=
  match r with RAt _ => true | _ => false end.

(** A quantifier applies to the last item; there must be one, it must not be
    a position assertion ("nothing to repeat") nor a repeat ("multiple
    repeat"). *)
Definition quantify (q : regex -> regex) (st : pstate) : option pstate :=
  match items (top st) with
  | [] => None
  | x :: l =>
      if is_at x || is_repeat x then None
      else Some (PState (stack st) (Frame (branches (top st)) (q x :: l)) true)
  end.

Definition step (st : pstate) (t : token) : option pstate :=
  match t with
  | TAtom a =>
      Some (PState (stack st)
                   (Frame (branches (top st)) (a :: items (top st))) false)
  | TStar => quantify RStar st
  | TPlus => if fresh st then None else quantify RPlus st
  | TQuest =>
      if fresh st then Some (PState (stack st) (top st) false)
      else quantify ROpt st
  | TBar =>
      Some (PState (stack st)
                   (Frame (mk_seq (rev (items (top st))) :: branches (top st)) [])
                   false)
  | TOpen => Some (PState (top st :: stack st) (Frame [] []) false)
  | TClose =>
      match stack st with
      | [] => None
      | f :: fs =>
          Some (PState fs (Frame (branches f) (close_frame (top st) :: items f))
                       false)
      end
  end.

Fixpoint run (st : pstate) (ts : list token) : option pstate :=
  match ts with
  | [] => Some st
  | t :: ts' =>
      match step st t with
      | Some st' => run st' ts'
      | None => None
      end
  end.

Definition finish (st : pstate) : option regex :=
  match stack st with
  | [] => Some (close_frame (top st))
  | _ :: _ => None
  end.

Definition parse (src : string) : option regex :=
  match lex MNormal src with
  | Some ts =>
      match run init ts with
      | Some st => finish st
      | None => None
      end
  | None => None
  end.

(** A compiled pattern: the expression and the [re.IGNORECASE] flag. *)
Record pattern : Type := Pattern { pat_re : regex; pat_icase : bool }.

(** [re.compile(src, flags)]. *)
Definition compile (src : string) (icase : bool) : option pattern :=
  option_map (fun r => Pattern r icase) (parse src).

(** *** Matching *)

Definition chr_eq (ic : bool) (a c : ascii) : bool :=
  if ic then Ascii.eqb (Text.lower_char a) (Text.lower_char c)
  else Ascii.eqb a c.

Definition cls_test (k : cls) (c : ascii) : bool :=
  match k with
  | CDigit => Text.is_digit c
  | CSpace => Text.is_space c
  | CWord => Text.is_word c
  end.

Definition item_test (ic : bool) (it : set_item) (c : ascii) : bool :=
  match it with
  | SChr a => chr_eq ic a c
  | SCls neg k => xorb neg (cls_test k c)
  end.

Definition word_before (prev : option ascii) : bool :=
  match prev with Some c => Text.is_word c | None => false end.

Definition word_after (s : string) : bool :=
  match s with String c _ => Text.is_word c | EmptyString => false end.

(** A position is the character before it, if any, and the text after. *)
Definition at_test (a : anchor) (prev : option ascii) (s : string) : bool :=
  match a with
  | ABol | AStart => match prev with None => true | Some _ => false end
  | AEol =>
      match s with
      | EmptyString => true
      | String c EmptyString => Ascii.eqb c "010"
      | _ => false
      end
  | AEnd => match s with EmptyString => true | _ => false end
  | AWordB => xorb (word_before prev) (word_after s)
  | ANotWordB => negb (xorb (word_before prev) (word_after s))
  end.

(** [accepts ic r prev s k]: some match of [r] at the position [(prev, s)]
    ends at a position accepted by [k].  A repeat only iterates over matches
    of its body that consume text. *)
Fixpoint accepts (ic : bool) (r : regex) (prev : option ascii) (s : string)
         (k : option ascii -> string -> bool) {struct r} : bool :=
  match r with
  | REps => k prev s
  | RLit a =>
      match s with
      | String c s' => chr_eq ic a c && k (Some c) s'
      | EmptyString => false
      end
  | RAny =>
      match s with
      | String c s' => negb (Ascii.eqb c "010") && k (Some c) s'
      | EmptyString => false
      end
  | RCls neg cl =>
      match s with
      | String c s' => xorb neg (cls_test cl c) && k (Some c) s'
      | EmptyString => false
      end
  | RSet neg its =>
      match s with
      | String c s' =>
          xorb neg (existsb (fun it => item_test ic it c) its) && k (Some c) s'
      | EmptyString => false
      end
  | RAt a => at_test a prev s && k prev s
  | RCat r1 r2 =>
      accepts ic r1 prev s (fun p' s' => accepts ic r2 p' s' k)
  | ROr r1 r2 => accepts ic r1 prev s k || accepts ic r2 prev s k
  | ROpt r1 => accepts ic r1 prev s k || k prev s
  | RStar r1 =>
      (fix star (n : nat) (p : option ascii) (t : string) : bool :=
         k p t
         || match n with
            | 0 => false
            | S n' =>
                accepts ic r1 p t
                  (fun p' t' =>
                     (String.length t' <? String.length t)%nat && star n' p' t')
            end) (String.length s) prev s
  | RPlus r1 =>
      accepts ic r1 prev s
        (fun p0 t0 =>
           (fix star (n : nat) (p : option ascii) (t : string) : bool :=
              k p t
              || match n with
                 | 0 => false
                 | S n' =>
                     accepts ic r1 p t
                       (fun p' t' =>
                          (String.length t' <? String.length t)%nat
                          && star n' p' t')
                 end) (String.length t0) p0 t0)
  end.

Definition match_here (p : pattern) (prev : option ascii) (s : string) : bool :=
  accepts (pat_icase p) (pat_re p) prev s (fun _ _ => true).

Fixpoint search_from (p : pattern) (prev : option ascii) (s : string) (i : nat)
  : option nat :=
  if match_here p prev s then Some i
  else match s with
       | EmptyString => None
       | String c s' => search_from p (Some c) s' (S i)
       end.

(** [pattern.search(s)]: the start of the leftmost match, if any. *)
Definition search (p : pattern) (s : string) : option nat :=
  search_from p None s 0.

Definition matches (p : pattern) (s : string) : bool :=
  match search p s with Some _ => true | None => false end.

End Re.

(** ** Exceptions *)

Inductive exn : Type :=
| re_error       (* re.error from re.compile *)
| ValueError.

Inductive result (A : Type) : Type :=
| Ok (a : A)
| Raise (e : exn).
Arguments Ok {A} a.
Arguments Raise {A} e.

Definition bind {A B} (m : result A) (f : A -> result B) : result B :=
  match m with
  | Ok a => f a
  | Raise e => Raise e
  end.

Notation "x <- m ;; k" := (bind m (fun x => k))
  (at level 61, m at next level, right associativity).
Notation "' pat <- m ;; k" := (bind m (fun x => match x with pat => k end))
  (at level 61, pat pattern, m at next level, right associativity).

Fixpoint mapM {A B} (f : A -> result B) (l : list A) : result (list B) :=
  match l with
  | [] => Ok []
  | x :: l' => y <- f x ;; ys <- mapM f l' ;; Ok (y :: ys)
  end.

(** [re.compile(src)] and [re.compile(src, re.IGNORECASE)]. *)
Definition re_compile (src : string) (icase : bool) : result Re.pattern :=
  match Re.compile src icase with
  | Some p => Ok p
  | None => Raise re_error
  end.

(** ** The data model *)

Inductive match_kind : Type := definition | import | usage.

Record PackageMatch : Type := mkMatch {
  path : Path;
  match_type : match_kind;
  line_number : option nat;
  line_content : option string
}.

Record SearchResult : Type := mkResult {
  package_name : string;
  language : string;
  definitions : list PackageMatch;
  imports : list PackageMatch;
  usages : list PackageMatch
}.

Definition nonempty {A} (l : list A) : bool :=
  match l with [] => false | _ => true end.

Definition found (r : SearchResult) : bool :=
  nonempty (definitions r) || nonempty (imports r) || nonempty (usages r).

Definition SKIP_DIRS : list string :=
  [".git"; ".hg"; ".svn"; "__pycache__"; ".pytest_cache"; ".mypy_cache";
   ".ruff_cache"; "node_modules"; ".venv"; "venv"; "env"; ".env"; ".tox";
   "build"; "dist"; "*.egg-info"; ".eggs"; "bin"; "obj"; "packages"; ".vs";
   ".idea"].

(** The registry, in the order the dictionary lists its keys:
    language, extensions, config files. *)
Definition LANGUAGE_CONFIG : list (string * (list string * list string)) :=
  [("python", ([".py"; ".pyi"; ".pyx"],
               ["pyproject.toml"; "setup.py"; "setup.cfg"; "requirements.txt"]));
   ("csharp", ([".cs"; ".csx"],
               ["*.csproj"; "*.sln"; "packages.config"; "*.nuspec"]));
   ("perl", ([".pl"; ".pm"; ".t"; ".pod"],
             ["Makefile.PL"; "Build.PL"; "cpanfile"; "META.json"; "META.yml"]));
   ("rust", ([".rs"], ["Cargo.toml"; "Cargo.lock"]));
   ("packageset", ([".packageset"], []))].

Fixpoint config_get (lang : string) (cfg : list (string * (list string * list string)))
  : option (list string * list string) :=
  match cfg with
  | [] => None
  | (l, c) :: cfg' => if String.eqb l lang then Some c else config_get lang cfg'
  end.

Definition ALL_EXTENSIONS : list string :=
  flat_map (fun e => fst (snd e)) LANGUAGE_CONFIG.

Definition should_skip_dir (dir_name : string) : bool :=
  Text.mem dir_name SKIP_DIRS || Text.endswith dir_name ".egg-info".

(** What every component does with [dirnames] before the walk goes on:
    [dirnames[:] = [d for d in dirnames if not should_skip_dir(d)]]. *)
Definition keep_dir (d : string) : bool := negb (should_skip_dir d).

(** [os.walk(root)] as every component consumes it. *)
Definition walk (fs : node) (root : Path)
  : list (Path * list string * list string) :=
  match lookup fs root with
  | Some n => os_walk keep_dir root n
  | None => []
  end.

(** ** The pattern compiler *)

(** The double quote, as a one-character string. *)
Definition dq : string := String "034" EmptyString.

Definition get_definition_patterns (package_name language : string)
  : result (list Re.pattern) :=
  let escaped := Re.escape package_name in
  if String.eqb language "python" then Ok []
  else if String.eqb language "csharp" then
    mapM (fun t => re_compile (fst t) (snd t))
      [("^\s*namespace\s+" +++ escaped +++ "\s*[{;]", true);
       ("^\s*namespace\s+" +++ escaped +++ "\.", true)]
  else if String.eqb language "perl" then
    mapM (fun t => re_compile (fst t) (snd t))
      [("^\s*package\s+" +++ escaped +++ "\s*;", false);
       ("^\s*package\s+" +++ escaped +++ "::", false)]
  else if String.eqb language "rust" then
    mapM (fun t => re_compile (fst t) (snd t))
      [("^\s*(?:pub\s+)?mod\s+" +++ escaped +++ "\s*\{", false);
       ("^\s*(?:pub\s+)?mod\s+" +++ escaped +++ "\s*;", false);
       (("^\s*name\s*=\s*" +++ dq) +++ escaped +++ dq, false)]
  else Ok [].

Definition get_import_patterns (package_name language : string)
  : result (list Re.pattern) :=
  let escaped := Re.escape package_name in
  if String.eqb language "python" then
    mapM (fun t => re_compile (fst t) (snd t))
      [("^\s*import\s+" +++ escaped +++ "(?:\s|$|,)", false);
       ("^\s*from\s+" +++ escaped +++ "(?:\.|$|\s)", false);
       ("^\s*import\s+.*\b" +++ escaped +++ "\b", false)]
  else if String.eqb language "csharp" then
    mapM (fun t => re_compile (fst t) (snd t))
      [("^\s*using\s+" +++ escaped +++ "\s*;", true);
       ("^\s*using\s+" +++ escaped +++ "\.", true);
       ("^\s*using\s+static\s+" +++ escaped +++ "\.", true);
       ("^\s*using\s+\w+\s*=\s*" +++ escaped +++ EmptyString, true)]
  else if String.eqb language "perl" then
    mapM (fun t => re_compile (fst t) (snd t))
      [("^\s*use\s+" +++ escaped +++ "\s*[;(]", false);
       ("^\s*use\s+" +++ escaped +++ "::", false);
       ("^\s*require\s+" +++ escaped +++ "\s*;", false);
       ("^\s*require\s+" +++ escaped +++ "::", false)]
  else if String.eqb language "rust" then
    mapM (fun t => re_compile (fst t) (snd t))
      [("^\s*use\s+" +++ escaped +++ "\s*;", false);
       ("^\s*use\s+" +++ escaped +++ "::", false);
       ("^\s*use\s+crate::" +++ escaped +++ EmptyString, false);
       ("^\s*use\s+super::" +++ escaped +++ EmptyString, false);
       ("^\s*extern\s+crate\s+" +++ escaped +++ "\s*;", false);
       ("^\s*" +++ escaped +++ "\s*=", false)]
  else Ok [].

Definition get_usage_pattern (package_name language : string)
  : result (option Re.pattern) :=
  let escaped := Re.escape package_name in
  if String.eqb language "python" then
    p <- re_compile ("\b" +++ escaped +++ "\.") false ;; Ok (Some p)
  else if String.eqb language "csharp" then
    p <- re_compile ("\b" +++ escaped +++ "\.") true ;; Ok (Some p)
  else if String.eqb language "perl" then
    p <- re_compile ("\b" +++ escaped +++ "(?:::|->)") false ;; Ok (Some p)
  else if String.eqb language "rust" then
    p <- re_compile ("\b" +++ escaped +++ "::") false ;; Ok (Some p)
  else Ok None.

(** The pattern of the packageset locator,
    ["id"\s*:\s*"[^"]*{re.escape(package_name)}[^"]*"]. *)
Definition id_pattern (package_name : string) : string :=
  (dq +++ "id" +++ dq +++ "\s*:\s*" +++ dq +++ "[^" +++ dq +++ "]*")
  +++ Re.escape package_name +++ ("[^" +++ dq +++ "]*" +++ dq).

(** ** Collecting source files *)

Definition all_config_files : list string :=
  flat_map (fun e => snd (snd e)) LANGUAGE_CONFIG.

Definition source_file (extensions config_files : list string)
           (include_configs : bool) (dirpath : Path) (filename : string)
  : list Path :=
  if Text.mem (suffix filename) extensions then [path_join dirpath filename]
  else if include_configs && Text.mem filename config_files
       then [path_join dirpath filename]
       else [].

Definition iter_source_files (fs : node) (root : Path) (language : string)
           (include_configs : bool) : list Path :=
  let '(extensions, config_files) :=
    match config_get language LANGUAGE_CONFIG with
    | Some c => c
    | None => (ALL_EXTENSIONS, all_config_files)
    end in
  flat_map (fun t : Path * list string * list string =>
              let '(dirpath, _, filenames) := t in
              flat_map (source_file extensions config_files include_configs dirpath)
                       filenames)
           (walk fs root).

(** ** The import/usage scanner *)

Definition any_match (pats : list Re.pattern) (line : string) : bool :=
  existsb (fun p => Re.matches p line) pats.

Definition usage_match (usage_pattern : option Re.pattern) (line : string) : bool :=
  match usage_pattern with
  | Some u => Re.matches u line
  | None => false
  end.

(** The loop over [enumerate(f, line_num)]. *)
Fixpoint scan_lines (filepath : Path) (import_patterns : list Re.pattern)
         (usage_pattern : option Re.pattern) (line_num : nat)
         (lines : list string) : list PackageMatch * list PackageMatch :=
  match lines with
  | [] => ([], [])
  | line :: rest =>
      let '(imports, usages) :=
        scan_lines filepath import_patterns usage_pattern (S line_num) rest in
      if any_match import_patterns line then
        (mkMatch filepath import (Some line_num) (Some (Text.strip line))
           :: imports, usages)
      else if usage_match usage_pattern line then
        (imports,
         mkMatch filepath usage (Some line_num) (Some (Text.strip line))
           :: usages)
      else (imports, usages)
  end.

Definition search_file_for_imports (fs : node) (filepath : Path)
           (package_name language : string)
  : result (list PackageMatch * list PackageMatch) :=
  import_patterns <- get_import_patterns package_name language ;;
  usage_pattern <- get_usage_pattern package_name language ;;
  match read_text fs filepath with
  | Some text =>
      Ok (scan_lines filepath import_patterns usage_pattern 1
                     (Text.readlines text))
  | None => Ok ([], [])
  end.

Fixpoint search_files_batch (fs : node) (filepaths : list Path)
         (package_name language : string)
  : result (list PackageMatch * list PackageMatch) :=
  match filepaths with
  | [] => Ok ([], [])
  | filepath :: rest =>
      '(imports, usages) <- search_file_for_imports fs filepath package_name language ;;
      '(all_imports, all_usages) <- search_files_batch fs rest package_name language ;;
      Ok (imports ++ all_imports, usages ++ all_usages)
  end.

(** ** The packageset locator *)

Fixpoint concatM {A B} (f : A -> result (list B)) (l : list A) : result (list B) :=
  match l with
  | [] => Ok []
  | x :: l' => ys <- f x ;; zs <- concatM f l' ;; Ok (ys ++ zs)
  end.

Definition canonical_pkgset (root : Path) : Path :=
  root ++ ["src"; "otools"; "deps"; "pkgsets"].

(** Check 1 of the locator: the file name against the package name. *)
Definition filename_matches (filename package_name : string) : bool :=
  let package_lower := Text.lower package_name in
  let filename_base := Text.lower (Text.rsplit1_head filename ".packageset") in
  String.eqb filename_base package_lower
  || Text.endswith filename_base ("." +++ package_lower).

(** The body of the loop over the files of one directory, for a file whose
    name ends with ".packageset". *)
Definition check_packageset (fs : node) (dirpath : Path)
           (filename package_name : string) : result (list PackageMatch) :=
  let filepath := path_join dirpath filename in
  if filename_matches filename package_name then
    Ok [mkMatch filepath definition None
                (Some ("Filename match: " +++ filename))]
  else
    match read_text fs filepath with
    | None => Ok []
    | Some content =>
        pat <- re_compile (id_pattern package_name) true ;;
        match Re.search pat content with
        | Some start =>
            let line_num := Text.count_nl_before start content + 1 in
            Ok [mkMatch filepath definition (Some line_num)
                  (Some (Text.strip
                           (nth (line_num - 1) (Text.split_nl content)
                                EmptyString)))]
        | None =>
            if Text.contains (Text.lower content) (Text.lower package_name)
            then Ok [mkMatch filepath import None
                       (Some ("References '" +++ package_name
                              +++ "' in content"))]
            else Ok []
        end
    end.

Definition pkgset_root (fs : node) (root : Path) : Path :=
  if isdir fs (canonical_pkgset root) then canonical_pkgset root else root.

Definition find_packageset_definition (fs : node) (root : Path)
           (package_name : string) : result (list PackageMatch) :=
  concatM (fun t : Path * list string * list string =>
             let '(dirpath, _, filenames) := t in
             concatM (fun filename =>
                        if Text.endswith filename ".packageset"
                        then check_packageset fs dirpath filename package_name
                        else Ok [])
                     filenames)
          (walk fs (pkgset_root fs root)).

(** ** The definition locator *)

(** What one visited directory contributes to a Python search. *)
Definition python_definitions (package_name : string)
           (t : Path * list string * list string) : list PackageMatch :=
  let '(current_dir, _, filenames) := t in
  (if String.eqb (path_name current_dir) package_name
      && Text.mem "__init__.py" filenames
   then [mkMatch (path_join current_dir "__init__.py") definition None None]
   else [])
  ++ (if Text.mem (package_name +++ ".py") filenames
      then [mkMatch (path_join current_dir (package_name +++ ".py"))
                    definition None None]
      else []).

Fixpoint definition_lines (filepath : Path) (pats : list Re.pattern)
         (line_num : nat) (lines : list string) : list PackageMatch :=
  match lines with
  | [] => []
  | line :: rest =>
      (if any_match pats line
       then [mkMatch filepath definition (Some line_num)
                     (Some (Text.strip line))]
       else [])
      ++ definition_lines filepath pats (S line_num) rest
  end.

Definition file_definitions (fs : node) (extensions : list string)
           (pats : list Re.pattern) (dirpath : Path) (filename : string)
  : list PackageMatch :=
  if Text.mem (suffix filename) extensions then
    match read_text fs (path_join dirpath filename) with
    | Some text =>
        definition_lines (path_join dirpath filename) pats 1
                         (Text.readlines text)
    | None => []
    end
  else [].

Definition find_package_definition (fs : node) (root : Path)
           (package_name language : string) : result (list PackageMatch) :=
  let extensions :=
    match config_get language LANGUAGE_CONFIG with
    | Some c => fst c
    | None => ALL_EXTENSIONS
    end in
  if String.eqb language "python" then
    Ok (flat_map (python_definitions package_name) (walk fs root))
  else
    definition_patterns <- get_definition_patterns package_name language ;;
    Ok (flat_map (fun t : Path * list string * list string =>
                    let '(dirpath, _, filenames) := t in
                    flat_map (file_definitions fs extensions definition_patterns
                                               dirpath)
                             filenames)
                 (walk fs root)).

(** ** Language auto-detection *)

Definition counts_t := list (string * nat).

Definition zero_counts : counts_t :=
  map (fun e => (fst e, 0)) LANGUAGE_CONFIG.

(** The first language of the registry listing the extension. *)
Fixpoint lang_of_suffix (sfx : string)
         (cfg : list (string * (list string * list string))) : option string :=
  match cfg with
  | [] => None
  | (lang, (exts, _)) :: cfg' =>
      if Text.mem sfx exts then Some lang else lang_of_suffix sfx cfg'
  end.

Definition incr (lang : string) (counts : counts_t) : counts_t :=
  map (fun e => if String.eqb (fst e) lang then (fst e, S (snd e)) else e)
      counts.

Definition count_file (counts : counts_t) (filename : string) : counts_t :=
  match lang_of_suffix (suffix filename) LANGUAGE_CONFIG with
  | Some lang => incr lang counts
  | None => counts
  end.

Definition total (counts : counts_t) : nat :=
  fold_right (fun e acc => snd e + acc) 0 counts.

(** The loop over the walk, left once more than 1000 files are counted. *)
Fixpoint census (counts : counts_t)
         (dirs : list (Path * list string * list string)) : counts_t :=
  match dirs with
  | [] => counts
  | (_, _, filenames) :: rest =>
      let counts' := fold_left count_file filenames counts in
      if (1000 <? total counts')%nat then counts' else census counts' rest
  end.

Definition max_count (counts : counts_t) : nat :=
  fold_right (fun e acc => Nat.max (snd e) acc) 0 counts.

(** [max(counts.keys(), key=...)]: the first key with the largest count. *)
Fixpoint first_max (best : string * nat) (counts : counts_t) : string :=
  match counts with
  | [] => fst best
  | e :: rest =>
      if (snd best <? snd e)%nat then first_max e rest else first_max best rest
  end.

Definition detect_language (fs : node) (root : Path) : string :=
  let counts := census zero_counts (walk fs root) in
  if (max_count counts =? 0)%nat then "csharp"
  else match counts with
       | [] => "csharp"
       | e :: rest => first_max e rest
       end.

(** ** Batches, aggregation and sorting *)

(** [range(0, n, step)] for a positive step. *)
Definition range_step (n step : nat) : list nat :=
  map (fun k => k * step) (seq 0 ((n + step - 1) / step)).

(** [[all_files[i : i + batch_size] for i in range(0, len(all_files), batch_size)]]. *)
Definition make_batches {A} (batch_size : Z) (all_files : list A)
  : result (list (list A)) :=
  match batch_size with
  | Z0 => Raise ValueError
  | Zneg _ => Ok []
  | Zpos p =>
      Ok (map (fun i => firstn (Pos.to_nat p) (skipn i all_files))
              (range_step (List.length all_files) (Pos.to_nat p)))
  end.

Definition line_or_zero (m : PackageMatch) : nat :=
  match line_number m with Some n => n | None => 0 end.

(** [key(a) <= key(b)] for the key [(m.path, m.line_number or 0)]. *)
Definition key_le (a b : PackageMatch) : bool :=
  match path_compare (path a) (path b) with
  | Lt => true
  | Gt => false
  | Eq => (line_or_zero a <=? line_or_zero b)%nat
  end.

Fixpoint insert_sorted (x : PackageMatch) (l : list PackageMatch)
  : list PackageMatch :=
  match l with
  | [] => [x]
  | y :: l' => if key_le x y then x :: l else y :: insert_sorted x l'
  end.

(** [list.sort(key=...)]: a stable sort. *)
Fixpoint sort_matches (l : list PackageMatch) : list PackageMatch :=
  match l with
  | [] => []
  | x :: l' => insert_sorted x (sort_matches l')
  end.

Definition is_definition (m : PackageMatch) : bool :=
  match match_type m with definition => true | _ => false end.

Definition concat_pairs (rs : list (list PackageMatch * list PackageMatch))
  : list PackageMatch * list PackageMatch :=
  (flat_map fst rs, flat_map snd rs).

(** The two ways of running the batches.  [arrival] lists the indices of the
    batches in the order in which [as_completed] hands their futures over. *)
Definition run_batches (fs : node) (batches : list (list Path))
           (package_name language : string) (max_workers : option Z)
           (arrival : list nat)
  : result (list (list PackageMatch * list PackageMatch)) :=
  if (1 <? List.length batches)%nat
     && negb (match max_workers with Some 1%Z => true | _ => false end)
  then
    bind (match max_workers with
          | Some w => if (w <=? 0)%Z then Raise ValueError else Ok tt
          | None => Ok tt
          end)
         (fun _ =>
            mapM (fun i => search_files_batch fs (nth i batches [])
                                              package_name language)
                 arrival)
  else
    mapM (fun batch => search_files_batch fs batch package_name language)
         batches.

(** ** The search *)

Definition find_package (fs : node) (root : Path)
           (package_name language : string) (max_workers : option Z)
           (batch_size : Z) (search_packagesets : bool) (arrival : list nat)
  : result SearchResult :=
  packageset_matches <-
    (if search_packagesets
     then find_packageset_definition fs root package_name
     else Ok []) ;;
  let language :=
    if String.eqb language "auto" then detect_language fs root else language in
  let definitions0 := filter is_definition packageset_matches in
  let imports0 := filter (fun m => negb (is_definition m)) packageset_matches in
  source_definitions <- find_package_definition fs root package_name language ;;
  let all_files := iter_source_files fs root language true in
  batches <- make_batches batch_size all_files ;;
  results <- run_batches fs batches package_name language max_workers arrival ;;
  Ok (mkResult package_name language
               (definitions0 ++ source_definitions)
               (sort_matches (imports0 ++ fst (concat_pairs results)))
               (sort_matches (snd (concat_pairs results)))).

(** ** The formatter *)

Definition nl : string := String "010" EmptyString.

(** The decorations of the three headings, as the bytes of the source text. *)
Definition glyph_definitions : string :=
  string_of_list_ascii
    ["195"; "176"; "197"; "184"; "226"; "128"; "156"; "194"; "166"]%char.
Definition glyph_imports : string :=
  string_of_list_ascii
    ["195"; "176"; "197"; "184"; "226"; "128"; "156"; "194"; "165"]%char.
Definition glyph_usages : string :=
  string_of_list_ascii
    ["195"; "176"; "197"; "184"; "226"; "128"; "157"; "226"; "128"; "148"]%char.

(** [l[:max_items]]. *)
Definition slice_to {A} (max_items : Z) (l : list A) : list A :=
  if (0 <=? max_items)%Z then firstn (Z.to_nat max_items) l
  else firstn (List.length l - Z.to_nat (- max_items)) l.

Definition str_len {A} (l : list A) : string := Text.str_nat (List.length l).

Definition str_line (o : option nat) : string :=
  match o with Some n => Text.str_nat n | None => "None" end.

Definition rel_path (root : Path) (m : PackageMatch) : result string :=
  match relative_to (path m) root with
  | Some rel => Ok (str_rel rel)
  | None => Raise ValueError
  end.

Definition definition_entry (root : Path) (m : PackageMatch)
  : result (list string) :=
  rel <- rel_path root m ;; Ok ["  " +++ rel].

Definition located_entry (root : Path) (m : PackageMatch)
  : result (list string) :=
  rel <- rel_path root m ;;
  Ok (("  " +++ rel +++ ":" +++ str_line (line_number m))
      :: match line_content m with
         | Some (String c t) => ["    " +++ String c t]
         | _ => []
         end).

(** The line [... and N more], present when the list is longer than
    [max_items]. *)
Definition more_line (max_items : Z) (l : list PackageMatch) : list string :=
  if (max_items <? Z.of_nat (List.length l))%Z
  then ["  ... and " +++ Text.str_Z (Z.of_nat (List.length l) - max_items)
        +++ " more"]
  else [].

Definition definitions_section (root : Path) (max_items : Z)
           (l : list PackageMatch) : result (list string) :=
  match l with
  | [] => Ok []
  | _ =>
      shown <- concatM (definition_entry root) (slice_to max_items l) ;;
      Ok ([nl +++ glyph_definitions +++ " Package Definitions ("
           +++ str_len l +++ "):";
           Text.repeat_char "-" 40]
          ++ shown)
  end.

Definition located_section (heading : string) (root : Path) (max_items : Z)
           (l : list PackageMatch) : result (list string) :=
  match l with
  | [] => Ok []
  | _ =>
      shown <- concatM (located_entry root) (slice_to max_items l) ;;
      Ok ([nl +++ heading +++ " (" +++ str_len l +++ "):";
           Text.repeat_char "-" 40]
          ++ shown ++ more_line max_items l)
  end.

(** The lines [format_results] joins with "\n". *)
Definition format_lines (r : SearchResult) (root : Path) (max_items : Z)
  : result (list string) :=
  let head :=
    ["Search Results for: " +++ package_name r +++ " (" +++ language r +++ ")";
     Text.repeat_char "=" 60] in
  if negb (found r) then Ok (head ++ ["No matches found."])
  else
    ds <- definitions_section root max_items (definitions r) ;;
    ims <- located_section (glyph_imports +++ " Imports") root max_items
                          (imports r) ;;
    us <- located_section (glyph_usages +++ " Usages") root max_items
                          (usages r) ;;
    Ok (head ++ ds ++ ims ++ us
        ++ [nl +++ Text.repeat_char "=" 60;
            "Summary:";
            "  Definitions: " +++ str_len (definitions r);
            "  Import statements: " +++ str_len (imports r);
            "  Usage locations: " +++ str_len (usages r)]).

Definition format_results (r : SearchResult) (root : Path) (max_items : Z)
  : result string :=
  lines <- format_lines r root max_items ;; Ok (Text.join nl lines).

(** ** The command line *)

(** The values [--lang] accepts. *)
Inductive lang_choice : Type :=
| lang_auto | lang_python | lang_csharp | lang_perl | lang_rust.

Definition lang_string (l : lang_choice) : string :=
  match l with
  | lang_auto => "auto"
  | lang_python => "python"
  | lang_csharp => "csharp"
  | lang_perl => "perl"
  | lang_rust => "rust"
  end.

(** The parsed arguments; [arg_root] is the resolved, absolute root. *)
Record Args : Type := mkArgs {
  arg_package_name : string;
  arg_root : Path;
  arg_lang : lang_choice;
  arg_max_results : Z;
  arg_workers : option Z;
  arg_verbose : bool;
  arg_json : bool;
  arg_no_packagesets : bool
}.

Inductive printed : Type :=
| ErrorMessage (msg : string)        (* on standard error *)
| Report (text : string)             (* the formatted results *)
| Json (r : SearchResult)            (* the dictionary given to json.dumps *)
| Traceback (e : exn).               (* an exception nobody caught *)

Definition str_abs (p : Path) : string := "/" +++ Text.join "/" p.

Definition exit_code (r : SearchResult) : Z := if found r then 0%Z else 1%Z.

(** [main()], from the parsed arguments to what is printed and the exit
    status; an uncaught exception ends the process with status 1. *)
Definition main (fs : node) (args : Args) (arrival : list nat) : printed * Z :=
  if negb (exists_ fs (arg_root args)) then
    (ErrorMessage ("Error: Path does not exist: " +++ str_abs (arg_root args)),
     1%Z)
  else if negb (isdir fs (arg_root args)) then
    (ErrorMessage ("Error: Path is not a directory: "
                   +++ str_abs (arg_root args)), 1%Z)
  else
    match find_package fs (arg_root args) (arg_package_name args)
                       (lang_string (arg_lang args)) (arg_workers args) 100%Z
                       (negb (arg_no_packagesets args)) arrival with
    | Raise e => (Traceback e, 1%Z)
    | Ok r =>
        if arg_json args then (Json r, exit_code r)
        else match format_results r (arg_root args) (arg_max_results args) with
             | Ok text => (Report text, exit_code r)
             | Raise e => (Traceback e, 1%Z)
             end
    end.

(** ** Shell patterns: [fnmatch] of the Python library on POSIX

    [fnmatch.translate] turns a pattern into a regular expression that has
    to match the whole name: [*] is any text, [?] any character, a bracket
    expression a set of characters and ranges, anything else itself. *)

Module Fnmatch.

Inductive item : Type :=
| Star
| AnyChar
| Chr (c : ascii)
| Among (neg : bool) (ranges : list (ascii * ascii))
| Never.

(** The text between the brackets once escaped: characters that stand for
    themselves and hyphens that make a range. *)
Inductive stoken : Type :=
| SLit (c : ascii)
| SDash.

Definition is_char (a c : ascii) : bool := Ascii.eqb a c.

Definition hyphen : ascii := "-"%char.
Definition bang : ascii := "!"%char.
Definition rbracket : ascii := "]"%char.

(** The scan for the closing bracket: an exclamation mark first and a
    closing bracket right after are part of the set. *)
Inductive stage : Type := AtStart | AfterBang | Inside.

(** The text of a bracket expression and what follows its closing bracket;
    [None] when the bracket is never closed. *)
Fixpoint bracket (st : stage) (acc : list ascii) (s : list ascii)
  : option (list ascii * list ascii) :=
  match s with
  | [] => None
  | c :: rest =>
      match st with
      | AtStart =>
          if is_char c bang then bracket AfterBang (c :: acc) rest
          else bracket Inside (c :: acc) rest
      | AfterBang => bracket Inside (c :: acc) rest
      | Inside =>
          if is_char c rbracket then Some (rev acc, rest)
          else bracket Inside (c :: acc) rest
      end
  end.

(** The chunks the text splits into at the hyphens that can make a range:
    one is looked for from the second character on (the third after an
    exclamation mark), and after each from the third character on. *)
Fixpoint chunks_from (wait : nat) (cur : list ascii) (s : list ascii)
  : list (list ascii) * list ascii :=
  match s with
  | [] => ([], rev cur)
  | c :: rest =>
      match wait with
      | S w => chunks_from w (c :: cur) rest
      | 0 =>
          if is_char c hyphen then
            let '(cs, final) := chunks_from 2 [] rest in
            (rev cur :: cs, final)
          else chunks_from 0 (c :: cur) rest
      end
  end.

Definition split_chunks (stuff : list ascii) : list (list ascii) :=
  let wait := match stuff with
              | c :: _ => if is_char c bang then 2 else 1
              | [] => 1
              end in
  let '(cs, final) := chunks_from wait [] stuff in
  match final with
  | [] => match rev cs with
          | [] => []
          | lst :: before => rev ((lst ++ [hyphen]) :: before)
          end
  | _ => cs ++ [final]
  end.

Definition greater (a b : ascii) : bool := (N_of_ascii b <? N_of_ascii a)%N.

(** Ranges that would be empty are taken out, from the right. *)
Fixpoint drop_empty_ranges (cs : list (list ascii)) : list (list ascii) :=
  match cs with
  | [] => []
  | c0 :: rest =>
      match drop_empty_ranges rest with
      | [] => [c0]
      | c1 :: more =>
          if greater (last c0 "000"%char) (hd "000"%char c1)
          then (removelast c0 ++ tl c1) :: more
          else c0 :: c1 :: more
      end
  end.

Fixpoint join_chunks (cs : list (list ascii)) : list stoken :=
  match cs with
  | [] => []
  | [c] => map SLit c
  | c :: cs' => map SLit c ++ SDash :: join_chunks cs'
  end.

Definition escaped_stuff (stuff : list ascii) : list stoken :=
  if existsb (is_char hyphen) stuff
  then join_chunks (drop_empty_ranges (split_chunks stuff))
  else map SLit stuff.

(** The set as [re] reads it: a character, or two characters around a
    hyphen. *)
Fixpoint ranges_of (ts : list stoken) : list (ascii * ascii) :=
  match ts with
  | [] => []
  | SLit a :: SDash :: SLit b :: rest => (a, b) :: ranges_of rest
  | SLit a :: rest => (a, a) :: ranges_of rest
  | SDash :: rest => (hyphen, hyphen) :: ranges_of rest
  end.

(** The item a bracket expression stands for. *)
Definition bracket_item (stuff : list ascii) : item :=
  match escaped_stuff stuff with
  | [] => Never
  | SLit c :: ts =>
      if is_char c bang then
        match ts with
        | [] => AnyChar
        | _ => Among true (ranges_of ts)
        end
      else Among false (ranges_of (SLit c :: ts))
  | ts => Among false (ranges_of ts)
  end.

(** [translate]: the items of a pattern.  [fuel] bounds the number of
    items; the length of the pattern is enough. *)
Fixpoint translate_items (fuel : nat) (pat : list ascii) : list item :=
  match fuel with
  | 0 => []
  | S fuel' =>
      match pat with
      | [] => []
      | c :: rest =>
          if is_char c "*" then Star :: translate_items fuel' rest
          else if is_char c "?" then AnyChar :: translate_items fuel' rest
          else if is_char c "[" then
            match bracket AtStart [] rest with
            | None => Chr c :: translate_items fuel' rest
            | Some (stuff, after) => bracket_item stuff :: translate_items fuel' after
            end
          else Chr c :: translate_items fuel' rest
      end
  end.

Definition translate (pat : string) : list item :=
  translate_items (String.length pat) (list_ascii_of_string pat).

Definition within (r : ascii * ascii) (c : ascii) : bool :=
  ((N_of_ascii (fst r) <=? N_of_ascii c) && (N_of_ascii c <=? N_of_ascii (snd r)))%N.

Definition item_accepts (it : item) (c : ascii) : bool :=
  match it with
  | Star => true
  | AnyChar => true
  | Chr a => Ascii.eqb a c
  | Among neg ranges => xorb neg (existsb (fun r => within r c) ranges)
  | Never => false
  end.

(** The whole of [name] is matched by the items. *)
Fixpoint full_match (its : list item) (name : string) {struct its} : bool :=
  match its with
  | [] => match name with EmptyString => true | _ => false end
  | Star :: its' =>
      (fix skip (s : string) : bool :=
         full_match its' s
         || match s with
            | EmptyString => false
            | String _ s' => skip s'
            end) name
  | it :: its' =>
      match name with
      | EmptyString => false
      | String c s' => item_accepts it c && full_match its' s'
      end
  end.

(** [fnmatch.fnmatchcase(name, pat)]; [fnmatch.fnmatch] is the same where
    [os.path.normcase] changes nothing. *)
Definition fnmatchcase (name pat : string) : bool :=
  full_match (translate pat) name.

Definition fnmatch (name pat : string) : bool := fnmatchcase name pat.

End Fnmatch.

(** ** file_finder: the search by name

    The second program, [python_scripts/src/file_finder.py]. *)

Module FileFinder.

Definition skip_dirs : list string :=
  [".git"; ".hg"; ".svn"; "__pycache__"; "node_modules"; ".venv"; "venv"].

(** [os.walk(top)], top-down, for a caller that reads [dirnames] as listed
    and then replaces it in place by the names passing [keep]. *)
Fixpoint os_walk_listed (keep : string -> bool) (top : Path) (n : node)
  : list (Path * list string * list string) :=
  match n with
  | Dir es =>
      (top, dirnames_of es, filenames_of es)
      :: (fix sub (l : list (string * node)) :=
            match l with
            | [] => []
            | (name, child) :: l' =>
                (if keep name
                 then os_walk_listed keep (path_join top name) child
                 else [])
                ++ sub l'
            end) es
  | _ => []
  end.

(** [name if case_sensitive else name.lower()]. *)
Definition cased (case_sensitive : bool) (name : string) : string :=
  if case_sensitive then name else Text.lower name.

(** The test of one name against the name searched for. *)
Definition name_matches (pattern_match : bool) (compare_name search_name : string)
  : bool :=
  if pattern_match then Fnmatch.fnmatch compare_name search_name
  else String.eqb compare_name search_name.

(** The body of the loop over the walk. *)
Definition visit (search_name : string) (case_sensitive pattern_match : bool)
           (find_type : string) (t : Path * list string * list string)
  : list Path :=
  let '(dirpath, dirnames, filenames) := t in
  (if Text.mem find_type ["dirs"; "both"] then
     flat_map (fun name =>
                 if Text.mem name skip_dirs then []
                 else if name_matches pattern_match (cased case_sensitive name)
                                      search_name
                      then [path_join dirpath name]
                      else [])
              dirnames
   else [])
  ++ (if Text.mem find_type ["files"; "both"] then
        flat_map (fun name =>
                    if name_matches pattern_match (cased case_sensitive name)
                                    search_name
                    then [path_join dirpath name]
                    else [])
                 filenames
      else []).

(** Paths in their order. *)
Definition path_le (p q : Path) : bool :=
  match path_compare p q with
  | Gt => false
  | _ => true
  end.

Fixpoint insert_path (x : Path) (l : list Path) : list Path :=
  match l with
  | [] => [x]
  | y :: l' => if path_le x y then x :: l else y :: insert_path x l'
  end.

(** [sorted(matches)]. *)
Fixpoint sorted (l : list Path) : list Path :=
  match l with
  | [] => []
  | x :: l' => insert_path x (sorted l')
  end.

Definition find_files (fs : node) (root : Path) (filename : string)
           (case_sensitive pattern_match : bool) (find_type : string)
  : list Path :=
  let search_name := cased case_sensitive filename in
  sorted
    (flat_map (visit search_name case_sensitive pattern_match find_type)
              (match lookup fs root with
               | Some n =>
                   os_walk_listed (fun d => negb (Text.mem d skip_dirs)) root n
               | None => []
               end)).

(** The parsed arguments; [farg_root] is the resolved, absolute root. *)
Record FinderArgs : Type := mkFinderArgs {
  farg_filename : string;
  farg_root : Path;
  farg_pattern : bool;
  farg_case_sensitive : bool;
  farg_absolute : bool;
  farg_files_only : bool;
  farg_dirs_only : bool
}.

(** The line printed for one match. *)
Definition match_line (fs : node) (args : FinderArgs) (p : Path) : string :=
  let suffix := if isdir fs p then "/" else EmptyString in
  if farg_absolute args then str_abs p +++ suffix
  else match relative_to p (farg_root args) with
       | Some rel => str_rel rel +++ suffix
       | None => str_abs p +++ suffix
       end.

(** [main()] of file_finder.py, from the parsed arguments to the texts
    given to [print] and the value returned, which is the exit status. *)
Definition finder_main (fs : node) (args : FinderArgs) : list string * Z :=
  if negb (exists_ fs (farg_root args)) then
    (["Error: Path does not exist: " +++ str_abs (farg_root args)], 1%Z)
  else if negb (isdir fs (farg_root args)) then
    (["Error: Not a directory: " +++ str_abs (farg_root args)], 1%Z)
  else if farg_files_only args && farg_dirs_only args then
    (["Error: Cannot use both --files-only and --dirs-only"], 1%Z)
  else
    let find_type :=
      if farg_files_only args then "files"
      else if farg_dirs_only args then "dirs"
      else "both" in
    let matches :=
      find_files fs (farg_root args) (farg_filename args)
                 (farg_case_sensitive args) (farg_pattern args) find_type in
    match matches with
    | [] =>
        (["No files or folders found matching: " +++ farg_filename args], 1%Z)
    | _ =>
        (("Found " +++ Text.str_nat (List.length matches) +++ " match(es):"
          +++ nl)
         :: map (match_line fs args) matches, 0%Z)
    end.

End FileFinder.

(** ** Definitions used in the statements *)

Module ReFacts.
Import Re.

Definition lit_tokens (P : string) : list token :=
  map (fun c => TAtom (RLit c)) (list_ascii_of_string P).

(** The package name as a sequence of literal characters. *)
Definition lits (P : string) : list regex :=
  map RLit (list_ascii_of_string P).

Definition push_lits (P : string) (st : pstate) : pstate :=
  PState (stack st)
         (Frame (branches (top st)) (rev (lits P) ++ items (top st)))
         (match P with EmptyString => fresh st | _ => false end).

(** What a piece of a template contributes to the top-level sequence. *)
Definition items_of (src : string) : list regex :=
  match lex MNormal src with
  | Some ts =>
      match run init ts with
      | Some st => rev (items (top st))
      | None => []
      end
  | None => []
  end.

(** The compiled form of [pre + re.escape(P) + post]: the items of [pre],
    the characters of [P] as literals, the items of [post]. *)
Definition fill (P : string) (t : string * string * bool) : pattern :=
  let '(pre, post, ic) := t in
  Pattern (mk_seq (items_of pre ++ lits P ++ items_of post)) ic.

End ReFacts.

(** The templates of the pattern compiler: the text before the escaped
    name, the text after it, and the [re.IGNORECASE] flag. *)
Definition definition_templates (language : string)
  : list (string * string * bool) :=
  if String.eqb language "csharp" then
    [("^\s*namespace\s+", "\s*[{;]", true);
     ("^\s*namespace\s+", "\.", true)]
  else if String.eqb language "perl" then
    [("^\s*package\s+", "\s*;", false);
     ("^\s*package\s+", "::", false)]
  else if String.eqb language "rust" then
    [("^\s*(?:pub\s+)?mod\s+", "\s*\{", false);
     ("^\s*(?:pub\s+)?mod\s+", "\s*;", false);
     ("^\s*name\s*=\s*" +++ dq, dq, false)]
  else [].

Definition import_templates (language : string)
  : list (string * string * bool) :=
  if String.eqb language "python" then
    [("^\s*import\s+", "(?:\s|$|,)", false);
     ("^\s*from\s+", "(?:\.|$|\s)", false);
     ("^\s*import\s+.*\b", "\b", false)]
  else if String.eqb language "csharp" then
    [("^\s*using\s+", "\s*;", true);
     ("^\s*using\s+", "\.", true);
     ("^\s*using\s+static\s+", "\.", true);
     ("^\s*using\s+\w+\s*=\s*", EmptyString, true)]
  else if String.eqb language "perl" then
    [("^\s*use\s+", "\s*[;(]", false);
     ("^\s*use\s+", "::", false);
     ("^\s*require\s+", "\s*;", false);
     ("^\s*require\s+", "::", false)]
  else if String.eqb language "rust" then
    [("^\s*use\s+", "\s*;", false);
     ("^\s*use\s+", "::", false);
     ("^\s*use\s+crate::", EmptyString, false);
     ("^\s*use\s+super::", EmptyString, false);
     ("^\s*extern\s+crate\s+", "\s*;", false);
     ("^\s*", "\s*=", false)]
  else [].

Definition usage_template (language : string)
  : option (string * string * bool) :=
  if String.eqb language "python" then Some ("\b", "\.", false)
  else if String.eqb language "csharp" then Some ("\b", "\.", true)
  else if String.eqb language "perl" then Some ("\b", "(?:::|->)", false)
  else if String.eqb language "rust" then Some ("\b", "::", false)
  else None.

Definition id_template : string * string * bool :=
  (dq +++ "id" +++ dq +++ "\s*:\s*" +++ dq +++ "[^" +++ dq +++ "]*",
   "[^" +++ dq +++ "]*" +++ dq, true).

(** The four languages with lexical patterns. *)
Definition lexical (language : string) : bool :=
  Text.mem language ["python"; "csharp"; "perl"; "rust"].

(** The character before the position reached after reading [s]. *)
Fixpoint last_char (prev : option ascii) (s : string) : option ascii :=
  match s with
  | EmptyString => prev
  | String c s' => last_char (Some c) s'
  end.

(** Equality of texts as a pattern compares them. *)
Definition text_eq (ic : bool) (a b : string) : Prop :=
  if ic then Text.lower a = Text.lower b else a = b.

(** The lines of a file as the scanner reads them. *)
Definition file_lines (fs : node) (filepath : Path) : list string :=
  match read_text fs filepath with
  | Some text => Text.readlines text
  | None => []
  end.

(** No component of [rel] is a denylisted directory name. *)
Definition clean (rel : list string) : Prop :=
  Forall (fun d => should_skip_dir d = false) rel.

(** [p] is a file below [root] with no denylisted directory on the way. *)
Definition clean_under (root p : Path) : Prop :=
  exists rel name, p = root ++ rel ++ [name] /\ clean rel.

(** What the scanner finds in one file. *)
Definition scan_file (fs : node) (package_name language : string)
           (filepath : Path) : list PackageMatch * list PackageMatch :=
  scan_lines filepath
             (map (ReFacts.fill package_name) (import_templates language))
             (option_map (ReFacts.fill package_name) (usage_template language))
             1 (file_lines fs filepath).

(** What the packageset locator reports for one file. *)
Definition packageset_entry (fs : node) (dirpath : Path)
           (filename package_name : string) : list PackageMatch :=
  let filepath := path_join dirpath filename in
  if filename_matches filename package_name then
    [mkMatch filepath definition None (Some ("Filename match: " +++ filename))]
  else
    match read_text fs filepath with
    | None => []
    | Some content =>
        match Re.search (ReFacts.fill package_name id_template) content with
        | Some start =>
            let line_num := Text.count_nl_before start content + 1 in
            [mkMatch filepath definition (Some line_num)
               (Some (Text.strip (nth (line_num - 1) (Text.split_nl content)
                                      EmptyString)))]
        | None =>
            if Text.contains (Text.lower content) (Text.lower package_name)
            then [mkMatch filepath import None
                    (Some ("References '" +++ package_name +++ "' in content"))]
            else []
        end
    end.

Definition packageset_dir (fs : node) (package_name : string)
           (t : Path * list string * list string) : list PackageMatch :=
  let '(dirpath, _, filenames) := t in
  flat_map (fun filename =>
              if Text.endswith filename ".packageset"
              then packageset_entry fs dirpath filename package_name
              else [])
           filenames.

(** The language the search runs with. *)
Definition resolve_language (fs : node) (root : Path) (language : string)
  : string :=
  if String.eqb language "auto" then detect_language fs root else language.

(** The batches of one search. *)
Definition batches_of (fs : node) (root : Path) (language : string)
           (batch_size : Z) : list (list Path) :=
  match make_batches batch_size
          (iter_source_files fs root (resolve_language fs root language) true)
  with
  | Ok b => b
  | Raise _ => []
  end.

(** What one batch of files yields. *)
Definition batch_result (fs : node) (package_name language : string)
           (batch : list Path) : list PackageMatch * list PackageMatch :=
  (flat_map (fun f => fst (scan_file fs package_name language f)) batch,
   flat_map (fun f => snd (scan_file fs package_name language f)) batch).

(** What the packageset step hands to the search. *)
Definition packageset_found (fs : node) (root : Path) (package_name : string)
           (search_packagesets : bool) : list PackageMatch :=
  if search_packagesets
  then flat_map (packageset_dir fs package_name) (walk fs (pkgset_root fs root))
  else [].

(** What the definition locator reports. *)
Definition source_definitions (fs : node) (root : Path)
           (package_name language : string) : list PackageMatch :=
  let extensions :=
    match config_get language LANGUAGE_CONFIG with
    | Some c => fst c
    | None => ALL_EXTENSIONS
    end in
  if String.eqb language "python" then
    flat_map (python_definitions package_name) (walk fs root)
  else
    flat_map (fun t : Path * list string * list string =>
                let '(dirpath, _, filenames) := t in
                flat_map (file_definitions fs extensions
                            (map (ReFacts.fill package_name)
                                 (definition_templates language))
                            dirpath)
                         filenames)
             (walk fs root).

(** The result built from the results of the batches, in the order in which
    they were collected. *)
Definition assemble (fs : node) (root : Path) (package_name language : string)
           (search_packagesets : bool)
           (results : list (list PackageMatch * list PackageMatch))
  : SearchResult :=
  let lang := resolve_language fs root language in
  let pm := packageset_found fs root package_name search_packagesets in
  mkResult package_name lang
           (filter is_definition pm
            ++ source_definitions fs root package_name lang)
           (sort_matches (filter (fun m => negb (is_definition m)) pm
                          ++ fst (concat_pairs results)))
           (sort_matches (snd (concat_pairs results))).

(** The worker pool is used: more than one batch and [max_workers != 1]. *)
Definition parallel (max_workers : option Z) (batches : list (list Path))
  : bool :=
  (1 <? List.length batches)%nat
  && negb (match max_workers with Some 1%Z => true | _ => false end).

(** The order the aggregation sorts by. *)
Definition key_ord (a b : PackageMatch) : Prop := key_le a b = true.

(** A worker count the pool accepts. *)
Definition workers_ok (max_workers : option Z) : Prop :=
  match max_workers with
  | Some w => (0 < w)%Z
  | None => True
  end.

(** The import matches a search can hold: a reference found by the
    packageset locator, or a line of the file the match points to. *)
Definition import_shape (fs : node) (P : string) (m : PackageMatch) : Prop :=
  m = mkMatch (path m) import None
              (Some ("References '" +++ P +++ "' in content"))
  \/ exists n line,
       nth_error (file_lines fs (path m)) n = Some line
       /\ m = mkMatch (path m) import (Some (S n)) (Some (Text.strip line)).

Definition usage_shape (fs : node) (m : PackageMatch) : Prop :=
  exists n line,
    nth_error (file_lines fs (path m)) n = Some line
    /\ m = mkMatch (path m) usage (Some (S n)) (Some (Text.strip line)).

(** The result of a search run over the batches in their own order. *)
Definition sequential_result (fs : node) (root : Path) (P L : string)
           (batch_size : Z) (search_packagesets : bool) : SearchResult :=
  assemble fs root P L search_packagesets
           (map (batch_result fs P (resolve_language fs root L))
                (batches_of fs root L batch_size)).

(** The two matches a directory can contribute to a Python search. *)
Definition marker_match (current_dir : Path) : PackageMatch :=
  mkMatch (path_join current_dir "__init__.py") definition None None.

Definition module_match (current_dir : Path) (P : string) : PackageMatch :=
  mkMatch (path_join current_dir (P +++ ".py")) definition None None.

(** The file name without its ".packageset" extension, in lower case. *)
Definition stem (filename : string) : string :=
  Text.lower (substring 0 (String.length filename
                           - String.length ".packageset") filename).



(** The languages of the registry, in its order. *)
Definition languages : list string := map fst LANGUAGE_CONFIG.

Definition extensions_of (lang : string) : list string :=
  match config_get lang LANGUAGE_CONFIG with
  | Some c => fst c
  | None => []
  end.

(** The file's extension is one of the profile of [lang]. *)
Definition has_extension (lang filename : string) : bool :=
  Text.mem (suffix filename) (extensions_of lang).

(** The number of files of the directories [dirs] with an extension of the
    profile of [lang]. *)
Definition tally (lang : string)
           (dirs : list (Path * list string * list string)) : nat :=
  List.length (filter (has_extension lang) (flat_map snd dirs)).

(** Counters holding [g l] for every language [l]. *)
Definition counters (g : string -> nat) : counts_t :=
  map (fun l => (l, g l)) languages.

(** ** File systems for the worked searches *)

(** A file whose only line both imports the package and uses it. *)
Definition both_fs : node :=
  Dir [("m.py", File (Some "import foo.bar"))].

(** A package directory and a module file of the same name, side by side,
    and a file importing the package. *)
Definition widgets_fs : node :=
  Dir [("repo",
        Dir [("src", Dir [("widgets", Dir [("__init__.py", File (Some EmptyString))]);
                          ("widgets.py", File (Some "x = 1"))]);
             ("main.py", File (Some "import widgets"))])].

(** An empty tree, and a tree holding only packageset files. *)
Definition empty_fs : node := Dir [("repo", Dir [])].

Definition packageset_fs : node :=
  Dir [("repo", Dir [("a.packageset", File (Some "foo"))])].

(** Two packages named [pkg] and a file importing [pkg] twice. *)
Definition two_definitions_fs : node :=
  Dir [("repo",
        Dir [("a", Dir [("pkg", Dir [("__init__.py", File (Some EmptyString))])]);
             ("b", Dir [("pkg", Dir [("__init__.py", File (Some EmptyString))])]);
             ("m.py", File (Some ("import pkg" +++ nl +++ "import pkg" +++ nl)))])].

(** Three source files, scanned one per batch. *)
Definition three_files_fs : node :=
  Dir [("repo",
        Dir [("b.py", File (Some ("import foo" +++ nl +++ "foo.run()" +++ nl)));
             ("a.py", File (Some ("x = foo.y" +++ nl +++ "import foo" +++ nl)));
             ("c.py", File (Some "from foo import bar"))])].

(** A packageset named after the package, holding no identifier field. *)
Definition opmlite_fs : node :=
  Dir [("repo",
        Dir [("pkgsets",
              Dir [("office.engineering.opmlite.packageset",
                    File (Some "{ }"))])])].

(** Matching files inside denylisted directories, and one outside. *)
Definition denylisted_fs : node :=
  Dir [("repo",
        Dir [("node_modules",
              Dir [("widgets", Dir [("__init__.py", File (Some EmptyString))]);
                   ("use.py", File (Some "import widgets"))]);
             ("x.egg-info", Dir [("widgets.py", File (Some "import widgets"))]);
             ("main.py", File (Some "import widgets"))])].

(** A C# namespace and a file using it. *)
Definition csharp_fs : node :=
  Dir [("repo",
        Dir [("Foo.cs", File (Some "namespace Acme.Foo { }"));
             ("Bar.cs", File (Some "using Acme.Foo;"))])].

(** ** Definitions used in the further statements *)

(** The files a search collects for scanning. *)
Definition collected (fs : node) (root : Path) (language : string) : list Path :=
  iter_source_files fs root (resolve_language fs root language) true.

(** The worker pool, when it is used, gets a worker count it accepts and
    hands every batch back once. *)
Definition pool_ok (max_workers : option Z) (arrival : list nat)
           (batches : list (list Path)) : Prop :=
  parallel max_workers batches = true ->
  workers_ok max_workers
  /\ Permutation arrival (seq 0 (List.length batches)).

(** The matches shown by the three displays at [max_items]. *)
Definition displayed (r : SearchResult) (max_items : Z) : list PackageMatch :=
  slice_to max_items (definitions r) ++ slice_to max_items (imports r)
  ++ slice_to max_items (usages r).

(** The extensions and the config file names [iter_source_files] looks
    for. *)
Definition profile (language : string) : list string * list string :=
  match config_get language LANGUAGE_CONFIG with
  | Some c => c
  | None => (ALL_EXTENSIONS, all_config_files)
  end.

(** [relative_to] raises for the path of [m]. *)
Definition outside (root : Path) (m : PackageMatch) : bool :=
  match relative_to (path m) root with
  | Some _ => false
  | None => true
  end.

Definition wildcard_fs : node :=
  Dir [("repo", Dir [("App.csproj", File (Some "using Foo;"));
                     ("*.csproj", File (Some "using Foo;"));
                     ("Main.cs", File (Some "using Foo;"))])].

(** Every directory lists a name once. *)
Fixpoint well_formed (n : node) : bool :=
  match n with
  | Dir es =>
      (fix names_once (l : list (string * node)) : bool :=
         match l with
         | [] => true
         | (name, child) :: l' =>
             negb (Text.mem name (map fst l')) && well_formed child
             && names_once l'
         end) es
  | _ => true
  end.

(** The directories [find_files] visits. *)
Definition visited (fs : node) (root : Path)
  : list (Path * list string * list string) :=
  match lookup fs root with
  | Some n => FileFinder.os_walk_listed (fun d => negb (Text.mem d FileFinder.skip_dirs)) root n
  | None => []
  end.

(** What one directory contributes, by kind. *)
Definition dir_hits (search_name : string) (cs pm : bool)
           (tr : Path * list string * list string) : list Path :=
  flat_map (fun name =>
              if Text.mem name FileFinder.skip_dirs then []
              else if FileFinder.name_matches pm (FileFinder.cased cs name) search_name
                   then [path_join (fst (fst tr)) name]
                   else [])
           (snd (fst tr)).

Definition file_hits (search_name : string) (cs pm : bool)
           (tr : Path * list string * list string) : list Path :=
  flat_map (fun name =>
              if FileFinder.name_matches pm (FileFinder.cased cs name) search_name
              then [path_join (fst (fst tr)) name]
              else [])
           (snd tr).

(** No component of [rel] is one of [skip_dirs]. *)
Definition unskipped (rel : list string) : Prop :=
  Forall (fun d => Text.mem d FileFinder.skip_dirs = false) rel.

Definition path_ord (p q : Path) : Prop := FileFinder.path_le p q = true.

(** The characters that start an item of a pattern other than a plain
    character, and the texts without any. *)
Definition special (c : ascii) : bool :=
  Ascii.eqb c "*" || Ascii.eqb c "?" || Ascii.eqb c "[".

Definition plain (s : string) : bool :=
  forallb (fun c => negb (special c)) (list_ascii_of_string s).

Definition finder_fs : node :=
  Dir [("repo",
        Dir [("src", Dir [("cli", Dir []);
                          ("Cli.py", File (Some "x"));
                          ("data.json", File (Some "{}"))]);
             ("node_modules", Dir [("cli", Dir []);
                                   ("p.json", File (Some "{}"))]);
             ("venv", File (Some "x"));
             ("CLI", File (Some "x"));
             ("a.json", File (Some "{}"))])].

(** The canonical packageset directory, and a packageset kept elsewhere. *)
Definition canonical_fs : node :=
  Dir [("repo",
        Dir [("src",
              Dir [("otools",
                    Dir [("deps",
                          Dir [("pkgsets",
                                Dir [("office.opmlite.packageset",
                                      File (Some "{ }"))])])])]);
             ("extra", Dir [("opmlite.packageset", File (Some "{ }"))])])].

(** A crate: the manifest names it, a source file declares a module. *)
Definition rust_fs : node :=
  Dir [("repo",
        Dir [("Cargo.toml", File (Some ("name = " +++ dq +++ "foo" +++ dq)));
             ("lib.rs", File (Some "mod foo;"))])].

(** Two imports found in [three_files_fs]. *)
Definition two_imports : list PackageMatch :=
  [mkMatch ["repo"; "a.py"] import (Some 2) (Some "import foo");
   mkMatch ["repo"; "b.py"] import (Some 1) (Some "import foo")].

(** A packageset whose second line holds the identifier. *)
Definition id_line : string :=
  dq +++ "id" +++ dq +++ ": " +++ dq +++ "office.foo" +++ dq.

Definition id_content : string := "{" +++ nl +++ "  " +++ id_line +++ nl +++ "}".

Definition id_fs : node :=
  Dir [("repo", Dir [("x.packageset", File (Some id_content))])].

(** A package directory named as a denylisted directory, below the root. *)
Definition build_fs : node :=
  Dir [("repo",
        Dir [("src", Dir [("build", Dir [("__init__.py", File (Some EmptyString))])]);
             ("main.py", File (Some "import build"))])].

(** ** Facts about compilation *)

Module PatternFacts.
Import Re ReFacts.

Lemma lex_plain (c : ascii) (s : string) :
  is_special c = false ->
  lex MNormal (String c s) = ocons (TAtom (RLit c)) (lex MNormal s).
Proof.
  destruct c as [[] [] [] [] [] [] [] []];
    intros H; try discriminate H; reflexivity.
Qed.

Lemma lex_escaped (c : ascii) (s : string) :
  is_special c = true ->
  lex MNormal (String "\" (String c s)) = ocons (TAtom (RLit c)) (lex MNormal s).
Proof.
  destruct c as [[] [] [] [] [] [] [] []];
    intros H; try discriminate H; reflexivity.
Qed.

(** An escaped name lexes to its characters, whatever follows it. *)
Lemma lex_escape (P rest : string) :
  lex MNormal (escape P +++ rest)
  = option_map (app (lit_tokens P)) (lex MNormal rest).
Proof.
  induction P as [|c P IH].
  - cbn. destruct (lex MNormal rest); reflexivity.
  - cbn [escape]. destruct (is_special c) eqn:E.
    + cbn [String.append]. rewrite lex_escaped by exact E.
      rewrite IH. destruct (lex MNormal rest); reflexivity.
    + cbn [String.append]. rewrite lex_plain by exact E.
      rewrite IH. destruct (lex MNormal rest); reflexivity.
Qed.

(** The parser reads the characters of a name as that many items. *)
Lemma run_lits (P : string) (ts : list token) (st : pstate) :
  run st (lit_tokens P ++ ts) = run (push_lits P st) ts.
Proof.
  revert st. induction P as [|c P IH]; intros [stk [br its] fr].
  - reflexivity.
  - cbn [lit_tokens list_ascii_of_string map app run step].
    change (map (fun c0 => TAtom (RLit c0)) (list_ascii_of_string P))
      with (lit_tokens P).
    rewrite IH. unfold push_lits, lits. cbn.
    rewrite <- app_assoc. cbn.
    destruct P; reflexivity.
Qed.

Ltac norm_items :=
  repeat match goal with
         | |- context [items_of ?s] =>
             let v := eval vm_compute in (items_of s) in
             change (items_of s) with v
         end.

(** Compiles [pre + re.escape(P) + post] with [P] left symbolic. *)
Ltac template :=
  unfold re_compile, compile, parse, fill;
  cbn [String.append dq];
  cbn [lex Ascii.eqb Bool.eqb ocons escape_atom class_escape char_escape
       plain_escape andb orb negb];
  rewrite lex_escape; cbn;
  rewrite run_lits; unfold push_lits; cbn;
  unfold finish, close_frame; cbn;
  norm_items;
  rewrite ?rev_app_distr, ?rev_involutive, ?app_nil_r; cbn;
  rewrite <- ?app_assoc; cbn;
  reflexivity.

Ltac templates :=
  repeat match goal with
         | |- context [re_compile (?pre +++ escape ?P +++ ?post) ?ic] =>
             let H := fresh in
             assert (H : re_compile (pre +++ escape P +++ post) ic
                         = Ok (fill P (pre, post, ic))) by template;
             rewrite H; clear H
         end.

Ltac pick_language :=
  cbn [String.eqb Ascii.eqb Bool.eqb mapM bind fst snd map option_map].

Lemma definition_csharp P :
  get_definition_patterns P "csharp"
  = Ok (map (fill P) (definition_templates "csharp")).
Proof.
  unfold get_definition_patterns, definition_templates. pick_language.
  templates. reflexivity.
Qed.

Lemma definition_perl P :
  get_definition_patterns P "perl"
  = Ok (map (fill P) (definition_templates "perl")).
Proof.
  unfold get_definition_patterns, definition_templates. pick_language.
  templates. reflexivity.
Qed.

Lemma definition_rust P :
  get_definition_patterns P "rust"
  = Ok (map (fill P) (definition_templates "rust")).
Proof.
  unfold get_definition_patterns, definition_templates. pick_language.
  templates. reflexivity.
Qed.

Lemma import_python P :
  get_import_patterns P "python"
  = Ok (map (fill P) (import_templates "python")).
Proof.
  unfold get_import_patterns, import_templates. pick_language.
  templates. reflexivity.
Qed.

Lemma import_csharp P :
  get_import_patterns P "csharp"
  = Ok (map (fill P) (import_templates "csharp")).
Proof.
  unfold get_import_patterns, import_templates. pick_language.
  templates. reflexivity.
Qed.

Lemma import_perl P :
  get_import_patterns P "perl"
  = Ok (map (fill P) (import_templates "perl")).
Proof.
  unfold get_import_patterns, import_templates. pick_language.
  templates. reflexivity.
Qed.

Lemma import_rust P :
  get_import_patterns P "rust"
  = Ok (map (fill P) (import_templates "rust")).
Proof.
  unfold get_import_patterns, import_templates. pick_language.
  templates. reflexivity.
Qed.

Lemma usage_lexical P L :
  lexical L = true ->
  get_usage_pattern P L = Ok (option_map (fill P) (usage_template L)).
Proof.
  unfold lexical, Text.mem. cbn [existsb]. rewrite !orb_true_iff.
  intros [H|[H|[H|[H|H]]]]; try discriminate H;
    apply String.eqb_eq in H; subst L;
    unfold get_usage_pattern, usage_template; pick_language;
    templates; reflexivity.
Qed.

Lemma id_pattern_compiles P :
  re_compile (id_pattern P) true = Ok (fill P id_template).
Proof.
  unfold id_pattern, id_template. template.
Qed.

End PatternFacts.

(** ** The pattern compiler never raises *)

Module CompilerFacts.
Import Re ReFacts PatternFacts.

Lemma definition_patterns_ok P L :
  get_definition_patterns P L = Ok (map (fill P) (definition_templates L)).
Proof.
  destruct (String.eqb L "csharp") eqn:E2;
    [apply String.eqb_eq in E2; subst; apply definition_csharp|].
  destruct (String.eqb L "perl") eqn:E3;
    [apply String.eqb_eq in E3; subst; apply definition_perl|].
  destruct (String.eqb L "rust") eqn:E4;
    [apply String.eqb_eq in E4; subst; apply definition_rust|].
  unfold get_definition_patterns, definition_templates.
  rewrite E2, E3, E4. destruct (String.eqb L "python"); reflexivity.
Qed.

Lemma import_patterns_ok P L :
  get_import_patterns P L = Ok (map (fill P) (import_templates L)).
Proof.
  destruct (String.eqb L "python") eqn:E1;
    [apply String.eqb_eq in E1; subst; apply import_python|].
  destruct (String.eqb L "csharp") eqn:E2;
    [apply String.eqb_eq in E2; subst; apply import_csharp|].
  destruct (String.eqb L "perl") eqn:E3;
    [apply String.eqb_eq in E3; subst; apply import_perl|].
  destruct (String.eqb L "rust") eqn:E4;
    [apply String.eqb_eq in E4; subst; apply import_rust|].
  unfold get_import_patterns, import_templates.
  rewrite E1, E2, E3, E4. reflexivity.
Qed.

Lemma usage_pattern_ok P L :
  get_usage_pattern P L = Ok (option_map (fill P) (usage_template L)).
Proof.
  destruct (lexical L) eqn:E; [apply usage_lexical; exact E|].
  unfold lexical, Text.mem in E. cbn [existsb] in E.
  rewrite !orb_false_iff in E. destruct E as (E1 & E2 & E3 & E4 & _).
  unfold get_usage_pattern, usage_template.
  rewrite E1, E2, E3, E4. reflexivity.
Qed.

(** The literal items of a name match exactly the texts equal to it. *)
Lemma accepts_lits ic P r : forall prev s k,
  accepts ic (mk_seq (lits P ++ r)) prev s k = true <->
  exists P' s', s = P' +++ s' /\ text_eq ic P P'
                /\ accepts ic (mk_seq r) (last_char prev P') s' k = true.
Proof.
  induction P as [|c P IH]; intros prev s k.
  - cbn [lits list_ascii_of_string map app]. split.
    + intros H. exists EmptyString, s. repeat split; try assumption.
      destruct ic; reflexivity.
    + intros (P' & s' & -> & HP & H).
      assert (P' = EmptyString) as ->.
      { destruct P'; [reflexivity|]. destruct ic; discriminate HP. }
      exact H.
  - change (lits (String c P) ++ r) with (RLit c :: (lits P ++ r)).
    cbn [mk_seq accepts]. split.
    + destruct s as [|d s]; [discriminate|].
      rewrite andb_true_iff. intros [Hc H].
      apply IH in H. destruct H as (P' & s' & -> & HP & H).
      exists (String d P'), s'. repeat split; [|exact H].
      unfold text_eq, chr_eq in *. destruct ic.
      * cbn [Text.lower]. apply Ascii.eqb_eq in Hc. congruence.
      * apply Ascii.eqb_eq in Hc. congruence.
    + intros (P' & s' & -> & HP & H).
      destruct P' as [|d P']; [destruct ic; discriminate HP|].
      cbn [String.append]. rewrite andb_true_iff. split.
      * unfold text_eq, chr_eq in *. destruct ic.
        -- cbn [Text.lower] in HP. injection HP as Hc _.
           rewrite Hc. apply Ascii.eqb_refl.
        -- injection HP as Hc _. rewrite Hc. apply Ascii.eqb_refl.
      * apply IH. exists P', s'. repeat split; [|exact H].
        unfold text_eq in *. destruct ic.
        -- cbn [Text.lower] in HP. injection HP as _ HP. exact HP.
        -- injection HP as _ HP. exact HP.
Qed.

(** C3.  For every package name and every language, the definition
    patterns, the import patterns and the usage pattern compile without an
    error: each compiled pattern is the items of the template text before
    the name, the characters of the name as literals, and the items of the
    text after it; and the literal items match exactly the texts equal to
    the name (up to case under [re.IGNORECASE]). *)
Theorem patterns_compile_with_literal_name (P L : string) :
  get_definition_patterns P L = Ok (map (fill P) (definition_templates L))
  /\ get_import_patterns P L = Ok (map (fill P) (import_templates L))
  /\ get_usage_pattern P L = Ok (option_map (fill P) (usage_template L))
  /\ re_compile (id_pattern P) true = Ok (fill P id_template)
  /\ (forall ic r prev s k,
        accepts ic (mk_seq (lits P ++ r)) prev s k = true <->
        exists P' s', s = P' +++ s' /\ text_eq ic P P'
                      /\ accepts ic (mk_seq r) (last_char prev P') s' k = true).
Proof.
  split; [apply definition_patterns_ok|].
  split; [apply import_patterns_ok|].
  split; [apply usage_pattern_ok|].
  split; [apply id_pattern_compiles|].
  intros ic r. apply accepts_lits.
Qed.

(** The pattern [^\s*import\s+os(?:\s|$|,)], compiled. *)
Example python_import_compiled :
  fill "os" ("^\s*import\s+", "(?:\s|$|,)", false)
  = Pattern
      (mk_seq [RAt ABol; RStar (RCls false CSpace);
               RLit "i"; RLit "m"; RLit "p"; RLit "o"; RLit "r"; RLit "t";
               RPlus (RCls false CSpace);
               RLit "o"; RLit "s";
               ROr (mk_seq [RCls false CSpace])
                   (ROr (mk_seq [RAt AEol]) (mk_seq [RLit ","]))])
      false.
Proof. reflexivity. Qed.

(** A dot in the name matches a dot only. *)
Example metacharacters_are_literal :
  get_import_patterns "a.b" "python"
  = Ok (map (fill "a.b") (import_templates "python"))
  /\ any_match (map (fill "a.b") (import_templates "python")) "import a.b"
     = true
  /\ any_match (map (fill "a.b") (import_templates "python")) "import aXb"
     = false.
Proof.
  split; [apply import_patterns_ok|].
  split; vm_compute; reflexivity.
Qed.

End CompilerFacts.

(** ** The import/usage scanner *)

Module ScanFacts.
Import ReFacts CompilerFacts.

Lemma scan_lines_imports f pats up lines : forall k m,
  In m (fst (scan_lines f pats up k lines)) <->
  exists n line, nth_error lines n = Some line
                 /\ any_match pats line = true
                 /\ m = mkMatch f import (Some (k + n)) (Some (Text.strip line)).
Proof.
  induction lines as [|line rest IH]; intros k m.
  - cbn. split; [intros []|]. intros (n & l & H & _). destruct n; discriminate H.
  - cbn [scan_lines].
    destruct (scan_lines f pats up (S k) rest) as [imps uses] eqn:E.
    specialize (IH (S k) m). rewrite E in IH. cbn [fst] in IH.
    assert (Hshift : In m imps <->
              exists n l, nth_error (line :: rest) (S n) = Some l
                          /\ any_match pats l = true
                          /\ m = mkMatch f import (Some (k + S n))
                                         (Some (Text.strip l))).
    { rewrite IH. split; intros (n & l & H1 & H2 & H3); exists n, l;
        (split; [exact H1|split; [exact H2|]]); rewrite H3; f_equal; f_equal; lia. }
    destruct (any_match pats line) eqn:A.
    + cbn [fst In]. rewrite Hshift. split.
      * intros [<-|(n & l & H)].
        -- exists 0, line. cbn. rewrite Nat.add_0_r. auto.
        -- exists (S n), l. exact H.
      * intros ([|n] & l & H1 & H2 & H3).
        -- left. cbn in H1. injection H1 as <-. rewrite Nat.add_0_r in H3. auto.
        -- right. exists n, l. auto.
    + assert (Hfst : fst (if usage_match up line
                          then (imps, mkMatch f usage (Some k)
                                        (Some (Text.strip line)) :: uses)
                          else (imps, uses)) = imps)
        by (destruct (usage_match up line); reflexivity).
      rewrite Hfst, Hshift. split.
      * intros (n & l & H). exists (S n), l. exact H.
      * intros ([|n] & l & H1 & H2 & H3).
        -- cbn in H1. injection H1 as <-. congruence.
        -- exists n, l. auto.
Qed.

Lemma scan_lines_usages f pats up lines : forall k m,
  In m (snd (scan_lines f pats up k lines)) <->
  exists n line, nth_error lines n = Some line
                 /\ any_match pats line = false
                 /\ usage_match up line = true
                 /\ m = mkMatch f usage (Some (k + n)) (Some (Text.strip line)).
Proof.
  induction lines as [|line rest IH]; intros k m.
  - cbn. split; [intros []|]. intros (n & l & H & _). destruct n; discriminate H.
  - cbn [scan_lines].
    destruct (scan_lines f pats up (S k) rest) as [imps uses] eqn:E.
    specialize (IH (S k) m). rewrite E in IH. cbn [snd] in IH.
    assert (Hshift : In m uses <->
              exists n l, nth_error (line :: rest) (S n) = Some l
                          /\ any_match pats l = false
                          /\ usage_match up l = true
                          /\ m = mkMatch f usage (Some (k + S n))
                                         (Some (Text.strip l))).
    { rewrite IH. split; intros (n & l & H1 & H2 & H3 & H4); exists n, l;
        (split; [exact H1|split; [exact H2|split; [exact H3|]]]);
        rewrite H4; f_equal; f_equal; lia. }
    destruct (any_match pats line) eqn:A; [|destruct (usage_match up line) eqn:U].
    + cbn [snd]. rewrite Hshift. split.
      * intros (n & l & H). exists (S n), l. exact H.
      * intros ([|n] & l & H1 & H2 & H3).
        -- cbn in H1. injection H1 as <-. congruence.
        -- exists n, l. auto.
    + cbn [snd In]. rewrite Hshift. split.
      * intros [<-|(n & l & H)].
        -- exists 0, line. cbn. rewrite Nat.add_0_r. auto.
        -- exists (S n), l. exact H.
      * intros ([|n] & l & H1 & H2 & H3 & H4).
        -- left. cbn in H1. injection H1 as <-. rewrite Nat.add_0_r in H4. auto.
        -- right. exists n, l. auto.
    + cbn [snd]. rewrite Hshift. split.
      * intros (n & l & H). exists (S n), l. exact H.
      * intros ([|n] & l & H1 & H2 & H3 & H4).
        -- cbn in H1. injection H1 as <-. congruence.
        -- exists n, l. auto.
Qed.

(** The scanner always returns, and what it returns. *)
Lemma search_file_for_imports_ok fs filepath P L :
  search_file_for_imports fs filepath P L
  = Ok (scan_lines filepath (map (fill P) (import_templates L))
                   (option_map (fill P) (usage_template L)) 1
                   (file_lines fs filepath)).
Proof.
  unfold search_file_for_imports, file_lines.
  rewrite import_patterns_ok, usage_pattern_ok. cbn [bind].
  destruct (read_text fs filepath); reflexivity.
Qed.

(** C1.  For every file, package name and language the scanner returns; a
    line is recorded as an import exactly when some import pattern matches
    it, and as a usage exactly when no import pattern matches it and the
    usage pattern does; so no line number is in both lists. *)
Theorem import_takes_precedence (fs : node) (filepath : Path) (P L : string) :
  exists pats upat imports usages,
    get_import_patterns P L = Ok pats
    /\ get_usage_pattern P L = Ok upat
    /\ search_file_for_imports fs filepath P L = Ok (imports, usages)
    /\ (forall m, In m imports <->
          exists n line, nth_error (file_lines fs filepath) n = Some line
                         /\ any_match pats line = true
                         /\ m = mkMatch filepath import (Some (S n))
                                        (Some (Text.strip line)))
    /\ (forall m, In m usages <->
          exists n line, nth_error (file_lines fs filepath) n = Some line
                         /\ any_match pats line = false
                         /\ usage_match upat line = true
                         /\ m = mkMatch filepath usage (Some (S n))
                                        (Some (Text.strip line)))
    /\ (forall mi mu, In mi imports -> In mu usages ->
          line_number mi <> line_number mu).
Proof.
  set (pats := map (fill P) (import_templates L)).
  set (upat := option_map (fill P) (usage_template L)).
  exists pats, upat,
    (fst (scan_lines filepath pats upat 1 (file_lines fs filepath))),
    (snd (scan_lines filepath pats upat 1 (file_lines fs filepath))).
  split; [apply import_patterns_ok|].
  split; [apply usage_pattern_ok|].
  split; [rewrite search_file_for_imports_ok; fold pats upat;
          destruct (scan_lines filepath pats upat 1 (file_lines fs filepath));
          reflexivity|].
  split; [intros m; apply scan_lines_imports|].
  split; [intros m; apply scan_lines_usages|].
  intros mi mu Hi Hu Heq.
  apply scan_lines_imports in Hi. apply scan_lines_usages in Hu.
  destruct Hi as (n & l & Hn & Ha & ->).
  destruct Hu as (n' & l' & Hn' & Ha' & _ & ->).
  cbn in Heq. injection Heq as Heq. subst n'.
  rewrite Hn in Hn'. injection Hn' as <-. congruence.
Qed.

(** A line matched by an import pattern and by the usage pattern is
    recorded as an import only. *)
Example import_and_usage_line :
  any_match (map (fill "foo") (import_templates "python")) "import foo.bar"
  = true
  /\ usage_match (option_map (fill "foo") (usage_template "python"))
                 "import foo.bar" = true
  /\ search_file_for_imports both_fs ["m.py"] "foo" "python"
     = Ok ([mkMatch ["m.py"] import (Some 1) (Some "import foo.bar")], []).
Proof.
  split; [vm_compute; reflexivity|].
  split; [vm_compute; reflexivity|].
  vm_compute; reflexivity.
Qed.

(** C10.  When the language is none of python, csharp, perl and rust, there
    is no import pattern and no usage pattern, and the scanner returns two
    empty lists for every file. *)
Theorem no_patterns_outside_lexical_languages
        (fs : node) (filepath : Path) (P L : string) :
  lexical L = false ->
  get_import_patterns P L = Ok []
  /\ get_usage_pattern P L = Ok None
  /\ search_file_for_imports fs filepath P L = Ok ([], []).
Proof.
  intros H.
  assert (Hi : import_templates L = []).
  { unfold lexical, Text.mem in H. cbn [existsb] in H.
    rewrite !orb_false_iff in H. destruct H as (E1 & E2 & E3 & E4 & _).
    unfold import_templates. rewrite E1, E2, E3, E4. reflexivity. }
  assert (Hu : usage_template L = None).
  { unfold lexical, Text.mem in H. cbn [existsb] in H.
    rewrite !orb_false_iff in H. destruct H as (E1 & E2 & E3 & E4 & _).
    unfold usage_template. rewrite E1, E2, E3, E4. reflexivity. }
  split; [rewrite import_patterns_ok, Hi; reflexivity|].
  split; [rewrite usage_pattern_ok, Hu; reflexivity|].
  rewrite search_file_for_imports_ok, Hi, Hu. cbn [map option_map].
  generalize 1. induction (file_lines fs filepath) as [|l ls IH]; intros k.
  - reflexivity.
  - cbn [scan_lines]. specialize (IH (S k)).
    injection IH as IH. rewrite IH. reflexivity.
Qed.

End ScanFacts.

(** ** The directory walker *)

Module WalkFacts.

(** Induction over the file system tree. *)
Lemma node_ind' (Q : node -> Prop) :
  (forall c, Q (File c)) -> Q Locked ->
  (forall es, Forall (fun e => Q (snd e)) es -> Q (Dir es)) ->
  forall n, Q n.
Proof.
  intros HF HL HD. fix IH 1. intros [c|es|]; [apply HF| |apply HL].
  apply HD. induction es as [|[name child] es IHes]; constructor.
  - apply IH.
  - exact IHes.
Qed.

Lemma os_walk_Dir keep top es :
  os_walk keep top (Dir es)
  = (top, filter keep (dirnames_of es), filenames_of es)
    :: flat_map (fun e => if keep (fst e)
                          then os_walk keep (path_join top (fst e)) (snd e)
                          else [])
                es.
Proof.
  cbn [os_walk]. f_equal.
  induction es as [|[name child] es IH]; [reflexivity|].
  cbn [flat_map fst snd]. rewrite IH. reflexivity.
Qed.

(** The walk only reaches directories through names that pass the filter,
    and only hands over such names for the next level. *)
Lemma os_walk_kept keep n : forall top t,
  In t (os_walk keep top n) ->
  exists rel, fst (fst t) = top ++ rel
              /\ Forall (fun d => keep d = true) rel
              /\ Forall (fun d => keep d = true) (snd (fst t)).
Proof.
  induction n as [c| |es IH] using node_ind'; intros top t H;
    try (cbn in H; contradiction).
  rewrite os_walk_Dir in H. destruct H as [<-|H].
  - exists []. cbn [fst snd]. rewrite app_nil_r.
    split; [reflexivity|]. split; [constructor|].
    apply Forall_forall. intros d Hd. apply filter_In in Hd. apply Hd.
  - apply in_flat_map in H. destruct H as ([name child] & Hin & H).
    cbn [fst snd] in H. destruct (keep name) eqn:K; [|contradiction].
    rewrite Forall_forall in IH. specialize (IH _ Hin). cbn [snd] in IH.
    destruct (IH _ _ H) as (rel & E & Hrel & Hdirs).
    exists (name :: rel). unfold path_join in E. rewrite <- app_assoc in E.
    split; [exact E|]. split; [constructor; assumption|assumption].
Qed.

Lemma keep_dir_clean rel :
  Forall (fun d => keep_dir d = true) rel -> clean rel.
Proof.
  unfold clean, keep_dir. apply Forall_impl. intros d H.
  apply negb_true_iff in H. exact H.
Qed.

Lemma walk_clean fs start dirpath dirnames filenames :
  In (dirpath, dirnames, filenames) (walk fs start) ->
  exists rel, dirpath = start ++ rel /\ clean rel /\ clean dirnames.
Proof.
  unfold walk. destruct (lookup fs start) as [n|]; [|intros []].
  intros H. apply os_walk_kept in H. cbn [fst snd] in H.
  destruct H as (rel & E & H1 & H2).
  exists rel. auto using keep_dir_clean.
Qed.

End WalkFacts.

(** ** The search as a whole *)

Module SearchFacts.
Import ReFacts PatternFacts CompilerFacts ScanFacts WalkFacts.

Lemma mapM_ok {A B} (f : A -> result B) (g : A -> B) (l : list A) :
  (forall x, f x = Ok (g x)) -> mapM f l = Ok (map g l).
Proof.
  intros H. induction l as [|x l IH]; [reflexivity|].
  cbn [mapM map]. rewrite H, IH. reflexivity.
Qed.

Lemma concatM_ok {A B} (f : A -> result (list B)) (g : A -> list B)
      (l : list A) :
  (forall x, f x = Ok (g x)) -> concatM f l = Ok (flat_map g l).
Proof.
  intros H. induction l as [|x l IH]; [reflexivity|].
  cbn [concatM flat_map]. rewrite H, IH. reflexivity.
Qed.

Lemma search_files_batch_ok fs batch P L :
  search_files_batch fs batch P L = Ok (batch_result fs P L batch).
Proof.
  unfold batch_result. induction batch as [|f batch IH]; [reflexivity|].
  cbn [search_files_batch flat_map]. rewrite search_file_for_imports_ok.
  fold (scan_file fs P L f). cbn [bind].
  destruct (scan_file fs P L f) as [i u]. rewrite IH. reflexivity.
Qed.

Lemma check_packageset_ok fs dirpath filename P :
  check_packageset fs dirpath filename P
  = Ok (packageset_entry fs dirpath filename P).
Proof.
  unfold check_packageset, packageset_entry.
  destruct (filename_matches filename P); [reflexivity|].
  destruct (read_text fs (path_join dirpath filename)); [|reflexivity].
  rewrite id_pattern_compiles. cbn [bind].
  destruct (Re.search (fill P id_template) s); [reflexivity|].
  destruct (Text.contains (Text.lower s) (Text.lower P)); reflexivity.
Qed.

Lemma find_packageset_definition_ok fs root P :
  find_packageset_definition fs root P
  = Ok (flat_map (packageset_dir fs P) (walk fs (pkgset_root fs root))).
Proof.
  unfold find_packageset_definition. apply concatM_ok.
  intros [[dirpath dirnames] filenames]. unfold packageset_dir.
  apply concatM_ok. intros filename.
  destruct (Text.endswith filename ".packageset"); [|reflexivity].
  apply check_packageset_ok.
Qed.

Lemma find_package_definition_ok fs root P L :
  find_package_definition fs root P L = Ok (source_definitions fs root P L).
Proof.
  unfold find_package_definition, source_definitions.
  destruct (String.eqb L "python"); [reflexivity|].
  rewrite definition_patterns_ok. reflexivity.
Qed.

Lemma run_batches_sequential fs batches P L mw arrival :
  parallel mw batches = false ->
  run_batches fs batches P L mw arrival
  = Ok (map (batch_result fs P L) batches).
Proof.
  unfold run_batches, parallel. intros ->.
  apply mapM_ok. intros b. apply search_files_batch_ok.
Qed.

Lemma run_batches_parallel fs batches P L mw arrival :
  parallel mw batches = true ->
  run_batches fs batches P L mw arrival
  = match mw with
    | Some w =>
        if (w <=? 0)%Z then Raise ValueError
        else Ok (map (fun i => batch_result fs P L (nth i batches [])) arrival)
    | None => Ok (map (fun i => batch_result fs P L (nth i batches [])) arrival)
    end.
Proof.
  unfold run_batches, parallel. intros ->.
  assert (H : mapM (fun i => search_files_batch fs (nth i batches []) P L) arrival
              = Ok (map (fun i => batch_result fs P L (nth i batches [])) arrival))
    by (apply mapM_ok; intros i; apply search_files_batch_ok).
  destruct mw as [w|]; [destruct (w <=? 0)%Z|]; cbn [bind]; auto.
Qed.

(** The search, step by step, with the steps that cannot fail made
    explicit. *)
Lemma find_package_eq fs root P L mw bs sp arrival :
  find_package fs root P L mw bs sp arrival
  = (batches <- make_batches bs
                  (iter_source_files fs root (resolve_language fs root L) true) ;;
     results <- run_batches fs batches P (resolve_language fs root L) mw arrival ;;
     Ok (assemble fs root P L sp results)).
Proof.
  unfold find_package, assemble, packageset_found, resolve_language.
  destruct sp.
  - rewrite find_packageset_definition_ok. cbn [bind].
    rewrite find_package_definition_ok. reflexivity.
  - cbn [bind]. rewrite find_package_definition_ok. reflexivity.
Qed.

Lemma insert_sorted_perm x l : Permutation (insert_sorted x l) (x :: l).
Proof.
  induction l as [|y l IH]; [reflexivity|].
  cbn [insert_sorted]. destruct (key_le x y); [reflexivity|].
  rewrite IH. apply perm_swap.
Qed.

Lemma sort_matches_perm l : Permutation (sort_matches l) l.
Proof.
  induction l as [|x l IH]; [reflexivity|].
  cbn [sort_matches]. rewrite insert_sorted_perm. constructor. exact IH.
Qed.

Lemma in_sort_matches m l : In m (sort_matches l) <-> In m l.
Proof.
  split; apply Permutation_in;
    [apply sort_matches_perm | symmetry; apply sort_matches_perm].
Qed.

Lemma in_firstn {A} n (l : list A) x : In x (firstn n l) -> In x l.
Proof.
  intros H. rewrite <- (firstn_skipn n l). apply in_or_app. left. exact H.
Qed.

Lemma in_skipn {A} n (l : list A) x : In x (skipn n l) -> In x l.
Proof.
  intros H. rewrite <- (firstn_skipn n l). apply in_or_app. right. exact H.
Qed.

Lemma make_batches_members {A} bs (l : list A) bts b x :
  make_batches bs l = Ok bts -> In b bts -> In x b -> In x l.
Proof.
  unfold make_batches. destruct bs as [|p|p]; intros H; [discriminate| |];
    injection H as <-; [|intros []].
  intros Hb Hx. apply in_map_iff in Hb. destruct Hb as (i & <- & _).
  apply (in_skipn i). apply (in_firstn (Pos.to_nat p)). exact Hx.
Qed.

Lemma nth_batch {A} (bts : list (list A)) i :
  nth i bts [] = [] \/ In (nth i bts []) bts.
Proof.
  destruct (Nat.lt_ge_cases i (List.length bts)) as [H|H].
  - right. apply nth_In. exact H.
  - left. apply nth_overflow. exact H.
Qed.

(** Every result of a search is assembled from results of batches of the
    collected files. *)
Lemma find_package_results fs root P L mw bs sp arrival r :
  find_package fs root P L mw bs sp arrival = Ok r ->
  exists results,
    r = assemble fs root P L sp results
    /\ Forall (fun res =>
                 exists b,
                   res = batch_result fs P (resolve_language fs root L) b
                   /\ incl b (iter_source_files fs root
                                (resolve_language fs root L) true))
              results.
Proof.
  rewrite find_package_eq.
  destruct (make_batches bs _) as [bts|e] eqn:Eb; [|discriminate].
  cbn [bind]. destruct (parallel mw bts) eqn:Ep.
  - rewrite run_batches_parallel by exact Ep.
    assert (Hall : Forall (fun res =>
                 exists b,
                   res = batch_result fs P (resolve_language fs root L) b
                   /\ incl b (iter_source_files fs root
                                (resolve_language fs root L) true))
              (map (fun i => batch_result fs P (resolve_language fs root L)
                                          (nth i bts [])) arrival)).
    { apply Forall_forall. intros res Hres. apply in_map_iff in Hres.
      destruct Hres as (i & <- & _). exists (nth i bts []).
      split; [reflexivity|]. intros x Hx.
      destruct (nth_batch bts i) as [E|Hin]; [rewrite E in Hx; destruct Hx|].
      eapply make_batches_members; eassumption. }
    destruct mw as [w|]; [destruct (w <=? 0)%Z; [discriminate|]|];
      cbn [bind]; intros H; injection H as <-; eexists; split;
      try reflexivity; exact Hall.
  - rewrite run_batches_sequential by exact Ep. cbn [bind].
    intros H; injection H as <-. eexists. split; [reflexivity|].
    apply Forall_forall. intros res Hres. apply in_map_iff in Hres.
    destruct Hres as (b & <- & Hb). exists b. split; [reflexivity|].
    intros x Hx. eapply make_batches_members; eassumption.
Qed.

Lemma scan_file_import_path fs P L f m :
  In m (fst (scan_file fs P L f)) -> path m = f.
Proof.
  unfold scan_file. intros H. apply scan_lines_imports in H.
  destruct H as (n & l & _ & _ & ->). reflexivity.
Qed.

Lemma scan_file_usage_path fs P L f m :
  In m (snd (scan_file fs P L f)) -> path m = f.
Proof.
  unfold scan_file. intros H. apply scan_lines_usages in H.
  destruct H as (n & l & _ & _ & _ & ->). reflexivity.
Qed.

Lemma packageset_entry_path fs dirpath filename P m :
  In m (packageset_entry fs dirpath filename P) ->
  path m = path_join dirpath filename.
Proof.
  unfold packageset_entry.
  destruct (filename_matches filename P); [intros [<-|[]]; reflexivity|].
  destruct (read_text fs (path_join dirpath filename)); [|intros []].
  destruct (Re.search _ s); [intros [<-|[]]; reflexivity|].
  destruct (Text.contains _ _); [intros [<-|[]]; reflexivity|intros []].
Qed.

Lemma definition_lines_path f pats lines : forall k m,
  In m (definition_lines f pats k lines) -> path m = f.
Proof.
  induction lines as [|l ls IH]; intros k m H; [destruct H|].
  cbn [definition_lines] in H. apply in_app_or in H. destruct H as [H|H].
  - destruct (any_match pats l); [destruct H as [<-|[]]; reflexivity|destruct H].
  - eapply IH. exact H.
Qed.

Lemma iter_source_files_clean fs root L ic p :
  In p (iter_source_files fs root L ic) -> clean_under root p.
Proof.
  unfold iter_source_files.
  destruct (match config_get L LANGUAGE_CONFIG with
            | Some c => c
            | None => (ALL_EXTENSIONS, all_config_files)
            end) as [exts cfgs].
  intros H. apply in_flat_map in H.
  destruct H as ([[dirpath dirnames] filenames] & Hw & H).
  apply in_flat_map in H. destruct H as (filename & _ & H).
  apply walk_clean in Hw. destruct Hw as (rel & -> & Hrel & _).
  exists rel, filename. split; [|exact Hrel].
  unfold source_file, path_join in H.
  destruct (Text.mem (suffix filename) exts);
    [destruct H as [<-|[]]; apply eq_sym, app_assoc|].
  destruct (ic && Text.mem filename cfgs);
    [destruct H as [<-|[]]; apply eq_sym, app_assoc|destruct H].
Qed.

Lemma packageset_found_clean fs root P sp m :
  In m (packageset_found fs root P sp) -> clean_under root (path m).
Proof.
  unfold packageset_found. destruct sp; [|intros []].
  intros H. apply in_flat_map in H.
  destruct H as ([[dirpath dirnames] filenames] & Hw & H).
  unfold packageset_dir in H. apply in_flat_map in H.
  destruct H as (filename & _ & H).
  destruct (Text.endswith filename ".packageset"); [|destruct H].
  apply packageset_entry_path in H. rewrite H. unfold path_join.
  apply walk_clean in Hw. destruct Hw as (rel & -> & Hrel & _).
  unfold pkgset_root, canonical_pkgset.
  destruct (isdir fs (root ++ ["src"; "otools"; "deps"; "pkgsets"])).
  - exists (["src"; "otools"; "deps"; "pkgsets"] ++ rel), filename.
    split; [rewrite <- !app_assoc; reflexivity|].
    apply Forall_app. split; [|exact Hrel].
    repeat constructor.
  - exists rel, filename. split; [rewrite <- app_assoc; reflexivity|exact Hrel].
Qed.

Lemma source_definitions_clean fs root P L m :
  In m (source_definitions fs root P L) -> clean_under root (path m).
Proof.
  unfold source_definitions. destruct (String.eqb L "python").
  - intros H. apply in_flat_map in H.
    destruct H as ([[dirpath dirnames] filenames] & Hw & H).
    apply walk_clean in Hw. destruct Hw as (rel & -> & Hrel & _).
    unfold python_definitions, path_join in H.
    apply in_app_or in H. destruct H as [H|H].
    + destruct (_ && _); [|destruct H]. destruct H as [<-|[]].
      exists rel, "__init__.py". split; [apply eq_sym, app_assoc|exact Hrel].
    + destruct (Text.mem _ _); [|destruct H]. destruct H as [<-|[]].
      exists rel, (P +++ ".py"). split; [apply eq_sym, app_assoc|exact Hrel].
  - intros H. apply in_flat_map in H.
    destruct H as ([[dirpath dirnames] filenames] & Hw & H).
    apply in_flat_map in H. destruct H as (filename & _ & H).
    apply walk_clean in Hw. destruct Hw as (rel & -> & Hrel & _).
    unfold file_definitions in H.
    destruct (Text.mem _ _); [|destruct H].
    destruct (read_text _ _); [|destruct H].
    apply definition_lines_path in H. rewrite H.
    exists rel, filename. split; [apply eq_sym, app_assoc|exact Hrel].
Qed.

Lemma batch_results_clean fs root P L results m :
  Forall (fun res =>
            exists b, res = batch_result fs P L b
                      /\ incl b (iter_source_files fs root L true)) results ->
  In m (fst (concat_pairs results)) \/ In m (snd (concat_pairs results)) ->
  clean_under root (path m).
Proof.
  intros Hall H. rewrite Forall_forall in Hall. unfold concat_pairs in H.
  cbn [fst snd] in H.
  destruct H as [H|H]; apply in_flat_map in H; destruct H as (res & Hres & H);
    destruct (Hall _ Hres) as (b & -> & Hb); unfold batch_result in H;
    cbn [fst snd] in H; apply in_flat_map in H; destruct H as (f & Hf & H).
  - apply scan_file_import_path in H. rewrite H.
    eapply iter_source_files_clean. apply Hb. exact Hf.
  - apply scan_file_usage_path in H. rewrite H.
    eapply iter_source_files_clean. apply Hb. exact Hf.
Qed.

(** Every match of a search lies below the root, off the denylist. *)
Lemma find_package_clean fs root P L mw bs sp arrival r m :
  find_package fs root P L mw bs sp arrival = Ok r ->
  In m (definitions r ++ imports r ++ usages r) ->
  clean_under root (path m).
Proof.
  intros H Hm.
  apply find_package_results in H. destruct H as (results & -> & Hall).
  unfold assemble in Hm. cbn [definitions imports usages] in Hm.
  rewrite !in_app_iff, !in_sort_matches, in_app_iff in Hm.
  destruct Hm as [[Hm|Hm]|[[Hm|Hm]|Hm]].
  - apply filter_In in Hm. eapply packageset_found_clean. apply Hm.
  - eapply source_definitions_clean. exact Hm.
  - apply filter_In in Hm. eapply packageset_found_clean. apply Hm.
  - eapply batch_results_clean; [exact Hall|left; exact Hm].
  - eapply batch_results_clean; [exact Hall|right; exact Hm].
Qed.

(** C4.  The walk every component uses never goes through a denylisted
    directory name and never offers one for the next level; hence every
    file collected for scanning, and every match of a search (definition,
    import or usage, from the packageset locator, the definition locator or
    the scanner), lies below the root with no denylisted directory on the
    way. *)
Theorem denylisted_directories_never_visited (fs : node) (root : Path) :
  (forall start dirpath dirnames filenames,
      In (dirpath, dirnames, filenames) (walk fs start) ->
      exists rel, dirpath = start ++ rel /\ clean rel /\ clean dirnames)
  /\ (forall L include_configs p,
         In p (iter_source_files fs root L include_configs) ->
         clean_under root p)
  /\ (forall P ms m,
         find_packageset_definition fs root P = Ok ms -> In m ms ->
         clean_under root (path m))
  /\ (forall P L ms m,
         find_package_definition fs root P L = Ok ms -> In m ms ->
         clean_under root (path m))
  /\ (forall P L mw bs sp arrival r m,
         find_package fs root P L mw bs sp arrival = Ok r ->
         In m (definitions r ++ imports r ++ usages r) ->
         clean_under root (path m)).
Proof.
  split; [intros start dirpath dirnames filenames; apply walk_clean|].
  split; [intros L ic p; apply iter_source_files_clean|].
  split.
  { intros P ms m H Hm. rewrite find_packageset_definition_ok in H.
    injection H as <-. apply (packageset_found_clean fs root P true). exact Hm. }
  split.
  { intros P L ms m H Hm. rewrite find_package_definition_ok in H.
    injection H as <-. eapply source_definitions_clean. exact Hm. }
  intros P L mw bs sp arrival r m. apply find_package_clean.
Qed.

End SearchFacts.

(** ** Ordering and aggregation *)

Module OrderFacts.
Import SearchFacts.

Lemma ascii_compare_refl a : Ascii.compare a a = Eq.
Proof. unfold Ascii.compare. apply N.compare_refl. Qed.

Lemma ascii_compare_trans a b c :
  Ascii.compare a b = Lt -> Ascii.compare b c = Lt -> Ascii.compare a c = Lt.
Proof.
  unfold Ascii.compare. rewrite !N.compare_lt_iff. apply N.lt_trans.
Qed.

Lemma string_compare_refl s : String.compare s s = Eq.
Proof.
  induction s as [|a s IH]; [reflexivity|].
  cbn [String.compare]. rewrite ascii_compare_refl. exact IH.
Qed.

Lemma string_compare_trans : forall s1 s2 s3,
  String.compare s1 s2 = Lt -> String.compare s2 s3 = Lt ->
  String.compare s1 s3 = Lt.
Proof.
  induction s1 as [|a s1 IH]; intros [|b s2] [|c s3]; cbn [String.compare];
    try congruence.
  destruct (Ascii.compare a b) eqn:Eab; try discriminate;
    destruct (Ascii.compare b c) eqn:Ebc; try discriminate; intros H1 H2.
  - apply Ascii.compare_eq_iff in Eab, Ebc. subst.
    rewrite ascii_compare_refl. eauto.
  - apply Ascii.compare_eq_iff in Eab. subst. rewrite Ebc. reflexivity.
  - apply Ascii.compare_eq_iff in Ebc. subst. rewrite Eab. reflexivity.
  - rewrite (ascii_compare_trans _ _ _ Eab Ebc). reflexivity.
Qed.

Lemma path_compare_refl p : path_compare p p = Eq.
Proof.
  induction p as [|a p IH]; [reflexivity|].
  cbn [path_compare]. rewrite string_compare_refl. exact IH.
Qed.

Lemma path_compare_eq : forall p q, path_compare p q = Eq -> p = q.
Proof.
  induction p as [|a p IH]; intros [|b q]; cbn [path_compare];
    try congruence.
  destruct (String.compare a b) eqn:E; try discriminate.
  apply String.compare_eq_iff in E. intros H. f_equal; auto.
Qed.

Lemma path_compare_antisym : forall p q,
  path_compare q p = CompOpp (path_compare p q).
Proof.
  induction p as [|a p IH]; intros [|b q]; cbn [path_compare]; try reflexivity.
  rewrite (String.compare_antisym a b).
  destruct (String.compare b a); cbn [CompOpp]; auto.
Qed.

Lemma path_compare_trans : forall p q r,
  path_compare p q = Lt -> path_compare q r = Lt -> path_compare p r = Lt.
Proof.
  induction p as [|a p IH]; intros [|b q] [|c r]; cbn [path_compare];
    try congruence.
  destruct (String.compare a b) eqn:Eab; try discriminate;
    destruct (String.compare b c) eqn:Ebc; try discriminate; intros H1 H2.
  - apply String.compare_eq_iff in Eab, Ebc. subst.
    rewrite string_compare_refl. eauto.
  - apply String.compare_eq_iff in Eab. subst. rewrite Ebc. reflexivity.
  - apply String.compare_eq_iff in Ebc. subst. rewrite Eab. reflexivity.
  - rewrite (string_compare_trans _ _ _ Eab Ebc). reflexivity.
Qed.

Lemma key_le_total a b : key_le a b = false -> key_le b a = true.
Proof.
  unfold key_le. rewrite (path_compare_antisym (path a) (path b)).
  destruct (path_compare (path a) (path b)); cbn [CompOpp];
    try congruence.
  rewrite Nat.leb_gt, Nat.leb_le. lia.
Qed.

Lemma key_le_trans a b c :
  key_le a b = true -> key_le b c = true -> key_le a c = true.
Proof.
  unfold key_le.
  destruct (path_compare (path a) (path b)) eqn:Eab; try discriminate;
    destruct (path_compare (path b) (path c)) eqn:Ebc; try discriminate.
  - apply path_compare_eq in Eab, Ebc. rewrite Eab, Ebc, path_compare_refl.
    rewrite !Nat.leb_le. lia.
  - apply path_compare_eq in Eab. rewrite Eab, Ebc. reflexivity.
  - apply path_compare_eq in Ebc. rewrite <- Ebc, Eab. reflexivity.
  - rewrite (path_compare_trans _ _ _ Eab Ebc). reflexivity.
Qed.

(** Two matches each below the other have the same key. *)
Lemma key_le_antisym a b :
  key_le a b = true -> key_le b a = true ->
  path a = path b /\ line_or_zero a = line_or_zero b.
Proof.
  unfold key_le. rewrite (path_compare_antisym (path a) (path b)).
  destruct (path_compare (path a) (path b)) eqn:E; cbn [CompOpp];
    try discriminate.
  apply path_compare_eq in E. rewrite !Nat.leb_le. split; [exact E|lia].
Qed.

Lemma insert_sorted_sorted x l :
  StronglySorted key_ord l -> StronglySorted key_ord (insert_sorted x l).
Proof.
  induction 1 as [|y l Hl IH Hy]; cbn [insert_sorted].
  - repeat constructor.
  - destruct (key_le x y) eqn:E.
    + constructor; [constructor; assumption|].
      constructor; [exact E|].
      eapply Forall_impl; [|exact Hy]. intros z Hz.
      eapply key_le_trans; eassumption.
    + constructor; [exact IH|].
      apply Forall_forall. intros z Hz.
      apply (Permutation_in _ (insert_sorted_perm x l)) in Hz.
      destruct Hz as [<-|Hz].
      * apply key_le_total. exact E.
      * rewrite Forall_forall in Hy. apply Hy. exact Hz.
Qed.

(** The aggregation sorts. *)
Lemma sort_matches_sorted l : StronglySorted key_ord (sort_matches l).
Proof.
  induction l as [|x l IH]; [constructor|].
  cbn [sort_matches]. apply insert_sorted_sorted. exact IH.
Qed.

(** Two sorted lists with the same elements are the same list, when equal
    keys mean equal elements. *)
Lemma sorted_perm_unique : forall l1 l2,
  StronglySorted key_ord l1 -> StronglySorted key_ord l2 ->
  Permutation l1 l2 ->
  (forall x y, In x l1 -> In y l1 ->
               key_le x y = true -> key_le y x = true -> x = y) ->
  l1 = l2.
Proof.
  induction l1 as [|x l1 IH]; intros l2 S1 S2 HP Hinj.
  - apply Permutation_nil in HP. congruence.
  - destruct l2 as [|y l2];
      [apply Permutation_sym, Permutation_nil in HP; discriminate|].
    inversion S1 as [|? ? S1' F1]; subst.
    inversion S2 as [|? ? S2' F2]; subst.
    assert (x = y) as <-.
    { assert (Hx : In x (y :: l2))
        by (eapply Permutation_in; [exact HP|left; reflexivity]).
      assert (Hy : In y (x :: l1))
        by (eapply Permutation_in;
            [apply Permutation_sym; exact HP|left; reflexivity]).
      destruct Hx as [->|Hx]; [reflexivity|].
      destruct Hy as [->|Hy]; [reflexivity|].
      rewrite Forall_forall in F1, F2.
      apply Hinj; [left; reflexivity|right; exact Hy|apply F1; exact Hy|
                   apply F2; exact Hx]. }
    f_equal. apply IH; try assumption.
    + eapply Permutation_cons_inv. exact HP.
    + intros a b Ha Hb. apply Hinj; right; assumption.
Qed.

Lemma sort_matches_unique l1 l2 :
  Permutation l1 l2 ->
  (forall x y, In x l1 -> In y l1 ->
               key_le x y = true -> key_le y x = true -> x = y) ->
  sort_matches l1 = sort_matches l2.
Proof.
  intros HP Hinj. apply sorted_perm_unique.
  - apply sort_matches_sorted.
  - apply sort_matches_sorted.
  - rewrite !sort_matches_perm. exact HP.
  - intros x y Hx Hy. apply Hinj; apply in_sort_matches; assumption.
Qed.

Import ScanFacts.

Lemma import_shape_determined fs P a b :
  import_shape fs P a -> import_shape fs P b ->
  key_le a b = true -> key_le b a = true -> a = b.
Proof.
  intros Ha Hb H1 H2. destruct (key_le_antisym _ _ H1 H2) as [Ep El].
  destruct Ha as [Ha|(n & l & Hn & Ha)], Hb as [Hb|(n' & l' & Hn' & Hb)].
  - rewrite Ha, Hb, Ep. reflexivity.
  - exfalso. assert (line_or_zero a = 0) by (rewrite Ha; reflexivity).
    assert (line_or_zero b = S n') by (rewrite Hb; reflexivity). lia.
  - exfalso. assert (line_or_zero b = 0) by (rewrite Hb; reflexivity).
    assert (line_or_zero a = S n) by (rewrite Ha; reflexivity). lia.
  - assert (line_or_zero a = S n) by (rewrite Ha; reflexivity).
    assert (line_or_zero b = S n') by (rewrite Hb; reflexivity).
    assert (n = n') as <- by lia.
    rewrite Ep, Hn' in Hn. injection Hn as <-.
    rewrite Ha, Hb, Ep. reflexivity.
Qed.

Lemma usage_shape_determined fs a b :
  usage_shape fs a -> usage_shape fs b ->
  key_le a b = true -> key_le b a = true -> a = b.
Proof.
  intros (n & l & Hn & Ha) (n' & l' & Hn' & Hb) H1 H2.
  destruct (key_le_antisym _ _ H1 H2) as [Ep El].
  assert (line_or_zero a = S n) by (rewrite Ha; reflexivity).
  assert (line_or_zero b = S n') by (rewrite Hb; reflexivity).
  assert (n = n') as <- by lia.
  rewrite Ep, Hn' in Hn. injection Hn as <-.
  rewrite Ha, Hb, Ep. reflexivity.
Qed.

Lemma packageset_reference_shape fs root P sp m :
  In m (filter (fun m => negb (is_definition m))
               (packageset_found fs root P sp)) ->
  import_shape fs P m.
Proof.
  intros H. apply filter_In in H. destruct H as [H Hd].
  unfold packageset_found in H. destruct sp; [|destruct H].
  apply in_flat_map in H.
  destruct H as ([[dirpath dirnames] filenames] & _ & H).
  unfold packageset_dir in H. apply in_flat_map in H.
  destruct H as (filename & _ & H).
  destruct (Text.endswith filename ".packageset"); [|destruct H].
  unfold packageset_entry in H.
  destruct (filename_matches filename P).
  { destruct H as [<-|[]]. discriminate Hd. }
  destruct (read_text fs (path_join dirpath filename)); [|destruct H].
  destruct (Re.search _ s).
  { destruct H as [<-|[]]. discriminate Hd. }
  destruct (Text.contains _ _); [|destruct H].
  destruct H as [<-|[]]. left. reflexivity.
Qed.

Lemma batch_import_shape fs P L results m :
  Forall (fun res => exists b, res = batch_result fs P L b) results ->
  In m (fst (concat_pairs results)) -> import_shape fs P m.
Proof.
  intros Hall H. rewrite Forall_forall in Hall.
  unfold concat_pairs in H. cbn [fst] in H. apply in_flat_map in H.
  destruct H as (res & Hres & H). destruct (Hall _ Hres) as (b & ->).
  unfold batch_result in H. cbn [fst] in H. apply in_flat_map in H.
  destruct H as (f & _ & H). unfold scan_file in H.
  apply scan_lines_imports in H. destruct H as (n & l & Hn & _ & ->).
  right. exists n, l. cbn [path]. split; [exact Hn|reflexivity].
Qed.

Lemma batch_usage_shape fs P L results m :
  Forall (fun res => exists b, res = batch_result fs P L b) results ->
  In m (snd (concat_pairs results)) -> usage_shape fs m.
Proof.
  intros Hall H. rewrite Forall_forall in Hall.
  unfold concat_pairs in H. cbn [snd] in H. apply in_flat_map in H.
  destruct H as (res & Hres & H). destruct (Hall _ Hres) as (b & ->).
  unfold batch_result in H. cbn [snd] in H. apply in_flat_map in H.
  destruct H as (f & _ & H). unfold scan_file in H.
  apply scan_lines_usages in H. destruct H as (n & l & Hn & _ & _ & ->).
  exists n, l. cbn [path]. split; [exact Hn|reflexivity].
Qed.

Lemma map_nth_seq {A} (l : list A) d :
  map (fun i => nth i l d) (seq 0 (List.length l)) = l.
Proof.
  induction l as [|x l IH]; [reflexivity|].
  cbn [List.length seq map nth]. f_equal.
  rewrite <- seq_shift, map_map. exact IH.
Qed.

(** Collecting the batches in any order gives the same result as running
    them in their own order. *)
Lemma assemble_any_order fs root P L sp bts arrival :
  Permutation arrival (seq 0 (List.length bts)) ->
  assemble fs root P L sp
           (map (fun i => batch_result fs P (resolve_language fs root L)
                                       (nth i bts [])) arrival)
  = assemble fs root P L sp
             (map (batch_result fs P (resolve_language fs root L)) bts).
Proof.
  intros HP.
  set (lang := resolve_language fs root L).
  set (par := map (fun i => batch_result fs P lang (nth i bts [])) arrival).
  set (sq := map (batch_result fs P lang) bts).
  assert (Hperm : Permutation par sq).
  { unfold par, sq.
    replace (map (batch_result fs P lang) bts)
      with (map (batch_result fs P lang)
                (map (fun i => nth i bts []) (seq 0 (List.length bts))))
      by (rewrite map_nth_seq; reflexivity).
    rewrite map_map. apply Permutation_map. exact HP. }
  assert (Hshape : Forall (fun res => exists b, res = batch_result fs P lang b)
                          par).
  { apply Forall_forall. intros res H. apply in_map_iff in H.
    destruct H as (i & <- & _). eexists. reflexivity. }
  unfold assemble. fold lang. f_equal.
  - apply sort_matches_unique.
    + apply Permutation_app_head. unfold concat_pairs. cbn [fst].
      apply Permutation_flat_map. exact Hperm.
    + intros x y Hx Hy. apply (import_shape_determined fs P).
      * apply in_app_or in Hx. destruct Hx as [Hx|Hx].
        -- eapply packageset_reference_shape. exact Hx.
        -- eapply batch_import_shape; eassumption.
      * apply in_app_or in Hy. destruct Hy as [Hy|Hy].
        -- eapply packageset_reference_shape. exact Hy.
        -- eapply batch_import_shape; eassumption.
  - apply sort_matches_unique.
    + unfold concat_pairs. cbn [snd].
      apply Permutation_flat_map. exact Hperm.
    + intros x y Hx Hy. apply (usage_shape_determined fs);
        eapply batch_usage_shape; eassumption.
Qed.

Lemma make_batches_of fs root L bs :
  bs <> 0%Z ->
  make_batches bs (iter_source_files fs root (resolve_language fs root L) true)
  = Ok (batches_of fs root L bs).
Proof.
  unfold batches_of. intros H.
  destruct bs; [congruence| |]; reflexivity.
Qed.

(** C2.  For every root, package name, language and batch size other than
    zero (for which [range] raises), the search returns; its imports and
    usages are sorted ascending by (path, line number or zero); and the
    result is the same whether the batches ran one after the other (a
    single batch, or one worker) or in a pool of workers whose results
    arrive in any order. *)
Theorem sorted_and_order_independent
        (fs : node) (root : Path) (P L : string) (bs : Z) (sp : bool) :
  bs <> 0%Z ->
  let r := sequential_result fs root P L bs sp in
  StronglySorted key_ord (imports r)
  /\ StronglySorted key_ord (usages r)
  /\ (forall mw arrival,
        parallel mw (batches_of fs root L bs) = false ->
        find_package fs root P L mw bs sp arrival = Ok r)
  /\ (forall mw arrival,
        parallel mw (batches_of fs root L bs) = true ->
        workers_ok mw ->
        Permutation arrival (seq 0 (List.length (batches_of fs root L bs))) ->
        find_package fs root P L mw bs sp arrival = Ok r)
  /\ (forall mw arrival r',
        find_package fs root P L mw bs sp arrival = Ok r' ->
        StronglySorted key_ord (imports r')
        /\ StronglySorted key_ord (usages r')).
Proof.
  intros Hbs r. unfold r, sequential_result.
  split; [apply sort_matches_sorted|].
  split; [apply sort_matches_sorted|].
  split.
  { intros mw arrival Hp. rewrite find_package_eq, make_batches_of by exact Hbs.
    cbn [bind]. rewrite run_batches_sequential by exact Hp. reflexivity. }
  split.
  { intros mw arrival Hp Hw HP.
    rewrite find_package_eq, make_batches_of by exact Hbs.
    cbn [bind]. rewrite run_batches_parallel by exact Hp.
    assert (E : Ok (map (fun i => batch_result fs P (resolve_language fs root L)
                                   (nth i (batches_of fs root L bs) [])) arrival)
                = match mw with
                  | Some w =>
                      if (w <=? 0)%Z then Raise ValueError
                      else Ok (map (fun i => batch_result fs P
                                     (resolve_language fs root L)
                                     (nth i (batches_of fs root L bs) []))
                                   arrival)
                  | None =>
                      Ok (map (fun i => batch_result fs P
                                 (resolve_language fs root L)
                                 (nth i (batches_of fs root L bs) [])) arrival)
                  end).
    { destruct mw as [w|]; [|reflexivity]. cbn in Hw.
      destruct (Z.leb_spec w 0); [lia|reflexivity]. }
    rewrite <- E. cbn [bind]. f_equal. apply assemble_any_order. exact HP. }
  intros mw arrival r' H. apply find_package_results in H.
  destruct H as (results & -> & _). unfold assemble. cbn [imports usages].
  split; apply sort_matches_sorted.
Qed.

(** The batches are consecutive pieces of the list of files. *)
Lemma chunks_concat {A} (b : nat) : forall m (l : list A),
  List.length l <= m * b ->
  List.concat (map (fun k => firstn b (skipn (k * b) l)) (seq 0 m)) = l.
Proof.
  induction m as [|m IH]; intros l Hl.
  - destruct l; [reflexivity|cbn in Hl; lia].
  - cbn [seq map List.concat]. rewrite <- seq_shift, map_map.
    transitivity (firstn b l ++ skipn b l); [|apply firstn_skipn].
    f_equal.
    rewrite <- (IH (skipn b l)) by (rewrite length_skipn; lia).
    f_equal. apply map_ext. intros k. rewrite skipn_skipn.
    replace (S k * b) with (k * b + b) by (cbn [Nat.mul]; lia).
    reflexivity.
Qed.

Lemma make_batches_concat {A} p (l : list A) bts :
  make_batches (Zpos p) l = Ok bts -> List.concat bts = l.
Proof.
  unfold make_batches, range_step. intros H. injection H as <-.
  rewrite map_map. apply chunks_concat.
  set (b := Pos.to_nat p). assert (0 < b) by apply Pos2Nat.is_pos.
  pose proof (Nat.div_mod_eq (List.length l + b - 1) b) as E.
  pose proof (Nat.mod_upper_bound (List.length l + b - 1) b) as U.
  nia.
Qed.

Lemma batch_results_concat fs P L bts :
  concat_pairs (map (batch_result fs P L) bts)
  = batch_result fs P L (List.concat bts).
Proof.
  unfold concat_pairs, batch_result.
  induction bts as [|b bts IH]; [reflexivity|].
  cbn [map flat_map fst snd List.concat]. injection IH as IH1 IH2.
  rewrite !flat_map_app, IH1, IH2. reflexivity.
Qed.

(** The result does not depend on the size of the batches, as long as it
    is positive. *)
Lemma batch_size_irrelevant fs root P L sp (bs bs' : Z) :
  (0 < bs)%Z -> (0 < bs')%Z ->
  sequential_result fs root P L bs sp = sequential_result fs root P L bs' sp.
Proof.
  intros H H'. unfold sequential_result, assemble.
  assert (E : forall z, (0 < z)%Z ->
            concat_pairs (map (batch_result fs P (resolve_language fs root L))
                              (batches_of fs root L z))
            = batch_result fs P (resolve_language fs root L)
                (iter_source_files fs root (resolve_language fs root L) true)).
  { intros z Hz. rewrite batch_results_concat. f_equal.
    unfold batches_of. destruct z as [|p|p]; try lia.
    eapply make_batches_concat. reflexivity. }
  rewrite (E bs H), (E bs' H'). reflexivity.
Qed.

End OrderFacts.

(** ** The definition locator for Python *)

Module DefinitionFacts.
Import SearchFacts.

Lemma mem_In x l : Text.mem x l = true <-> In x l.
Proof.
  unfold Text.mem. rewrite existsb_exists. split.
  - intros (y & Hy & E). apply String.eqb_eq in E. subst. exact Hy.
  - intros H. exists x. split; [exact H|apply String.eqb_refl].
Qed.

Lemma mem_not_In x l : Text.mem x l = false <-> ~ In x l.
Proof.
  rewrite <- mem_In. destruct (Text.mem x l); split; congruence.
Qed.

(** What one directory contributes, case by case. *)
Lemma python_definitions_cases P current_dir dirnames filenames :
  exists a b,
    python_definitions P (current_dir, dirnames, filenames) = a ++ b
    /\ ((path_name current_dir = P /\ In "__init__.py" filenames
         /\ a = [marker_match current_dir])
        \/ (~ (path_name current_dir = P /\ In "__init__.py" filenames)
            /\ a = []))
    /\ ((In (P +++ ".py") filenames /\ b = [module_match current_dir P])
        \/ (~ In (P +++ ".py") filenames /\ b = [])).
Proof.
  unfold python_definitions. do 2 eexists. split; [reflexivity|]. split.
  - destruct (String.eqb (path_name current_dir) P) eqn:E1;
      [apply String.eqb_eq in E1|apply String.eqb_neq in E1];
      (destruct (Text.mem "__init__.py" filenames) eqn:E2;
       [apply mem_In in E2|apply mem_not_In in E2]); cbn [andb];
      [left; auto|right|right|right]; (split; [tauto|reflexivity]).
  - destruct (Text.mem (P +++ ".py") filenames) eqn:E;
      [apply mem_In in E; left|apply mem_not_In in E; right]; auto.
Qed.

(** A Python search for definitions returns, and matches by structure
    alone: every directory the walk visits whose name is the
    package name and which holds [__init__.py] contributes one match for
    that marker file, without a line number; every visited directory
    holding [<package_name>.py] contributes, independently, one match for
    that module file; and nothing else is reported. *)
Theorem python_definitions_are_structural (fs : node) (root : Path) (P : string) :
  exists ms,
    find_package_definition fs root P "python" = Ok ms
    /\ ms = flat_map (python_definitions P) (walk fs root)
    /\ (forall current_dir dirnames filenames,
          In (current_dir, dirnames, filenames) (walk fs root) ->
          (path_name current_dir = P -> In "__init__.py" filenames ->
           In (marker_match current_dir) ms)
          /\ (In (P +++ ".py") filenames ->
              In (module_match current_dir P) ms)
          /\ exists a b,
               python_definitions P (current_dir, dirnames, filenames) = a ++ b
               /\ ((path_name current_dir = P /\ In "__init__.py" filenames
                    /\ a = [marker_match current_dir])
                   \/ (~ (path_name current_dir = P
                          /\ In "__init__.py" filenames) /\ a = []))
               /\ ((In (P +++ ".py") filenames
                    /\ b = [module_match current_dir P])
                   \/ (~ In (P +++ ".py") filenames /\ b = [])))
    /\ (forall m, In m ms ->
          line_number m = None /\ match_type m = definition
          /\ exists current_dir dirnames filenames,
               In (current_dir, dirnames, filenames) (walk fs root)
               /\ ((m = marker_match current_dir
                    /\ path_name current_dir = P
                    /\ In "__init__.py" filenames)
                   \/ (m = module_match current_dir P
                       /\ In (P +++ ".py") filenames))).
Proof.
  eexists. split; [rewrite find_package_definition_ok; reflexivity|].
  unfold source_definitions. cbn [String.eqb Ascii.eqb Bool.eqb].
  split; [reflexivity|]. split.
  - intros d dn fn Hw.
    destruct (python_definitions_cases P d dn fn) as (a & b & E & Ha & Hb).
    split; [|split].
    + intros H1 H2. apply in_flat_map. eexists. split; [exact Hw|].
      rewrite E. apply in_or_app. left.
      destruct Ha as [(_ & _ & ->)|[Hn _]]; [left; reflexivity|tauto].
    + intros H. apply in_flat_map. eexists. split; [exact Hw|].
      rewrite E. apply in_or_app. right.
      destruct Hb as [(_ & ->)|[Hn _]]; [left; reflexivity|tauto].
    + exists a, b. auto.
  - intros m Hm. apply in_flat_map in Hm.
    destruct Hm as ([[d dn] fn] & Hw & Hm).
    destruct (python_definitions_cases P d dn fn) as (a & b & E & Ha & Hb).
    rewrite E in Hm. apply in_app_or in Hm. destruct Hm as [Hm|Hm].
    + destruct Ha as [(H1 & H2 & ->)|[_ ->]]; [|destruct Hm].
      destruct Hm as [<-|[]]. repeat split. exists d, dn, fn. auto.
    + destruct Hb as [(H1 & ->)|[_ ->]]; [|destruct Hm].
      destruct Hm as [<-|[]]. repeat split. exists d, dn, fn. auto.
Qed.

(** The marker file and the module file are both reported, and so is the
    line importing the package. *)
Example both_definitions_fire :
  find_package widgets_fs ["repo"] "widgets" "python" None 100 true []
  = Ok (mkResult "widgets" "python"
          [module_match ["repo"; "src"] "widgets";
           marker_match ["repo"; "src"; "widgets"]]
          [mkMatch ["repo"; "main.py"] import (Some 1) (Some "import widgets")]
          []).
Proof. vm_compute. reflexivity. Qed.

End DefinitionFacts.

(** ** The packageset locator *)

Module PackagesetFacts.
Import SearchFacts DefinitionFacts.



Lemma substring_all s : substring 0 (String.length s) s = s.
Proof.
  induction s as [|a s IH]; [reflexivity|]. cbn. rewrite IH. reflexivity.
Qed.










End PackagesetFacts.

(** ** Language auto-detection *)

Module DetectFacts.

(** The extension sets of the registry are disjoint, so a file is counted
    for the one language whose profile lists its extension. *)
Lemma count_file_counters g f :
  count_file (counters g) f
  = counters (fun l => g l + (if has_extension l f then 1 else 0)).
Proof.
  unfold count_file, has_extension. generalize (suffix f) as sfx. intros sfx.
  destruct (Text.mem sfx ALL_EXTENSIONS) eqn:E.
  - apply existsb_exists in E. destruct E as (e & He & E).
    apply String.eqb_eq in E. subst e.
    repeat (destruct He as [<-|He];
            [cbn; rewrite ?Nat.add_0_r, ?Nat.add_1_r; reflexivity|]).
    destruct He.
  - unfold Text.mem, ALL_EXTENSIONS in E. cbn [existsb flat_map fst snd
      LANGUAGE_CONFIG app] in E.
    repeat (apply orb_false_iff in E; destruct E as [? E]).
    unfold counters, languages, extensions_of, Text.mem.
    cbn [lang_of_suffix LANGUAGE_CONFIG existsb map fst snd config_get
         String.eqb Ascii.eqb Bool.eqb Text.mem].
    repeat match goal with H : String.eqb sfx _ = false |- _ =>
                           rewrite H; clear H end.
    cbn [orb]. rewrite ?Nat.add_0_r. reflexivity.
Qed.

Lemma counters_ext g h :
  (forall l, g l = h l) -> counters g = counters h.
Proof. intros H. unfold counters. apply map_ext. intros l. rewrite H. reflexivity. Qed.

Lemma fold_count_file files : forall g,
  fold_left count_file files (counters g)
  = counters (fun l => g l + List.length (filter (has_extension l) files)).
Proof.
  induction files as [|f files IH]; intros g; cbn [fold_left].
  - apply counters_ext. intros l. cbn. lia.
  - rewrite count_file_counters, IH. apply counters_ext. intros l.
    cbn [filter]. destruct (has_extension l f); cbn [List.length]; lia.
Qed.

Lemma tally_app l a b : tally l (a ++ b) = tally l a + tally l b.
Proof.
  unfold tally. rewrite flat_map_app, filter_app, length_app. reflexivity.
Qed.

(** The loop counts the files of a prefix of the walk: all of it, or up to
    the directory after which more than 1000 files are counted. *)
Lemma census_counters dirs : forall g,
  exists scanned rest,
    dirs = scanned ++ rest
    /\ census (counters g) dirs
       = counters (fun l => g l + tally l scanned)
    /\ (rest = [] \/ 1000 < total (census (counters g) dirs)).
Proof.
  induction dirs as [|[[d dn] fn] dirs IH]; intros g.
  - exists [], []. split; [reflexivity|]. split; [|left; reflexivity].
    apply counters_ext. intros l. cbn. lia.
  - cbn [census]. rewrite fold_count_file.
    destruct (1000 <? total _)%nat eqn:E.
    + exists [(d, dn, fn)], dirs. split; [reflexivity|]. split.
      * apply counters_ext. intros l. unfold tally. cbn [flat_map snd].
        rewrite app_nil_r. reflexivity.
      * right. apply Nat.ltb_lt. exact E.
    + destruct (IH (fun l => g l + List.length (filter (has_extension l) fn)))
        as (scanned & rest & -> & E1 & E2).
      exists ((d, dn, fn) :: scanned), rest. split; [reflexivity|].
      split; [|exact E2]. rewrite E1. apply counters_ext. intros l.
      change ((d, dn, fn) :: scanned) with ([(d, dn, fn)] ++ scanned).
      rewrite tally_app. unfold tally at 2. cbn [flat_map snd].
      rewrite app_nil_r. lia.
Qed.

(** [first_max] returns the first entry with the largest count. *)
Lemma first_max_spec rest : forall best pre mid,
  (forall x, In x pre -> snd x < snd best) ->
  (forall x, In x mid -> snd x <= snd best) ->
  exists before e after,
    pre ++ best :: mid ++ rest = before ++ e :: after
    /\ first_max best rest = fst e
    /\ (forall x, In x before -> snd x < snd e)
    /\ (forall x, In x after -> snd x <= snd e).
Proof.
  induction rest as [|e rest IH]; intros best pre mid Hpre Hmid.
  - exists pre, best, mid. rewrite app_nil_r. auto.
  - cbn [first_max]. destruct (snd best <? snd e)%nat eqn:E.
    + apply Nat.ltb_lt in E.
      destruct (IH e (pre ++ best :: mid) []) as (b & x & a & H1 & H2 & H3 & H4).
      * intros y Hy. apply in_app_or in Hy.
        destruct Hy as [Hy|[<-|Hy]];
          [apply Hpre in Hy|exact E|apply Hmid in Hy]; lia.
      * intros y [].
      * exists b, x, a. split; [|auto].
        rewrite <- H1, <- app_assoc. reflexivity.
    + apply Nat.ltb_ge in E.
      destruct (IH best pre (mid ++ [e])) as (b & x & a & H1 & H2 & H3 & H4).
      * exact Hpre.
      * intros y Hy. apply in_app_or in Hy.
        destruct Hy as [Hy|[<-|[]]]; [apply Hmid; exact Hy|exact E].
      * exists b, x, a. split; [|auto].
        rewrite <- H1, <- app_assoc. reflexivity.
Qed.

Lemma max_count_zero (counts : counts_t) :
  max_count counts = 0 <-> forall e, In e counts -> snd e = 0.
Proof.
  induction counts as [|e counts IH]; cbn [max_count fold_right].
  - split; [intros _ e []|reflexivity].
  - fold (max_count counts). split.
    + intros H e' [<-|He]; [lia|]. apply IH; [lia|exact He].
    + intros H. assert (snd e = 0) by (apply H; left; reflexivity).
      assert (max_count counts = 0) by (apply IH; intros; apply H; right; assumption).
      lia.
Qed.

(** C7.  Auto-detection counts, for every language of the registry, the
    files whose extension its profile lists, over the directories walked
    until more than 1000 files are counted; it returns the language with
    the highest count, the first such in the order of the registry; and
    when every count is zero it returns "csharp". *)
Theorem detect_language_highest_count (fs : node) (root : Path) :
  exists scanned rest,
    walk fs root = scanned ++ rest
    /\ census zero_counts (walk fs root)
       = counters (fun l => tally l scanned)
    /\ (rest = [] \/ 1000 < total (census zero_counts (walk fs root)))
    /\ ((forall l, In l languages -> tally l scanned = 0) ->
        detect_language fs root = "csharp")
    /\ ((exists l, In l languages /\ 0 < tally l scanned) ->
        exists before after,
          languages = before ++ detect_language fs root :: after
          /\ (forall l, In l before ->
                tally l scanned < tally (detect_language fs root) scanned)
          /\ (forall l, In l after ->
                tally l scanned <= tally (detect_language fs root) scanned)).
Proof.
  destruct (census_counters (walk fs root) (fun _ => 0))
    as (scanned & rest & Hw & Hc & Hstop).
  change (counters (fun _ => 0)) with zero_counts in Hc, Hstop.
  cbn [Nat.add] in Hc.
  exists scanned, rest. split; [exact Hw|]. split; [exact Hc|].
  split; [exact Hstop|]. unfold detect_language. rewrite Hc. split.
  - intros Hz.
    assert (E : max_count (counters (fun l => tally l scanned)) = 0).
    { apply max_count_zero. intros e He. unfold counters in He.
      apply in_map_iff in He. destruct He as (l & <- & Hl). apply Hz, Hl. }
    rewrite E. reflexivity.
  - intros (l & Hl & Hpos).
    destruct (max_count (counters (fun l => tally l scanned)) =? 0)%nat eqn:E.
    { apply Nat.eqb_eq in E.
      pose proof (proj1 (max_count_zero _) E (l, tally l scanned)) as Hz.
      cbn [snd] in Hz. rewrite Hz in Hpos; [lia|].
      unfold counters. apply in_map_iff. exists l. auto. }
    destruct (counters (fun l => tally l scanned)) as [|best others] eqn:Ec;
      [discriminate Ec|].
    destruct (first_max_spec others best [] [])
      as (b & x & a & H1 & H2 & H3 & H4); try (intros ? []).
    cbn [app] in H1. rewrite H2. rewrite <- Ec in H1. unfold counters in H1.
    apply map_eq_app in H1.
    destruct H1 as (lb & la' & El & Eb & Ea).
    destruct la' as [|lx la]; [discriminate Ea|].
    cbn [map] in Ea. injection Ea as Ex Ea. subst x b a. cbn [fst snd] in *.
    exists lb, la. split; [exact El|]. split.
    + intros y Hy. apply (H3 (y, tally y scanned)).
      apply in_map_iff. exists y. auto.
    + intros y Hy. apply (H4 (y, tally y scanned)).
      apply in_map_iff. exists y. auto.
Qed.

(** With no file to count the answer is the default; with a tie it is the
    language the registry lists first. *)
Example detect_language_empty_tree :
  detect_language empty_fs ["repo"] = "csharp".
Proof. reflexivity. Qed.

Example detect_language_tie :
  detect_language
    (Dir [("repo", Dir [("a.rs", File None); ("b.pl", File None);
                        ("c.txt", File None)])])
    ["repo"] = "perl".
Proof. vm_compute. reflexivity. Qed.

(** Auto-detection can return "packageset", which is not one of the four
    lexical languages and not a value the command line accepts. *)
Lemma packageset_is_detectable :
  detect_language packageset_fs ["repo"] = "packageset"
  /\ lexical "packageset" = false
  /\ forall c, lang_string c <> "packageset".
Proof.
  split; [vm_compute; reflexivity|]. split; [reflexivity|].
  intros []; discriminate.
Qed.

End DetectFacts.

(** ** The formatter and the exit status *)

Module MainFacts.
Import SearchFacts.

Lemma relative_to_app root : forall x, relative_to (root ++ x) root = Some x.
Proof.
  induction root as [|r root IH]; intros x; [destruct x; reflexivity|].
  cbn [app relative_to]. rewrite String.eqb_refl. apply IH.
Qed.

Lemma rel_path_ok root m :
  clean_under root (path m) -> exists s, rel_path root m = Ok s.
Proof.
  intros (rel & name & E & _). unfold rel_path.
  rewrite E, relative_to_app. eexists. reflexivity.
Qed.

Lemma concatM_all {A B} (f : A -> result (list B)) (l : list A) :
  (forall x, In x l -> exists y, f x = Ok y) -> exists ys, concatM f l = Ok ys.
Proof.
  induction l as [|x l IH]; intros H; [eexists; reflexivity|].
  destruct (H x (or_introl eq_refl)) as (y & Hy).
  destruct IH as (ys & Hys); [intros z Hz; apply H; right; exact Hz|].
  cbn [concatM]. rewrite Hy, Hys. eexists. reflexivity.
Qed.

Lemma in_slice_to {A} k (l : list A) x : In x (slice_to k l) -> In x l.
Proof.
  unfold slice_to. destruct (0 <=? k)%Z; apply in_firstn.
Qed.

Lemma definitions_section_ok root k l :
  (forall m, In m l -> clean_under root (path m)) ->
  exists lines, definitions_section root k l = Ok lines.
Proof.
  intros H. unfold definitions_section. destruct l as [|m0 l0];
    [eexists; reflexivity|].
  destruct (concatM_all (definition_entry root) (slice_to k (m0 :: l0)))
    as (ys & Hys).
  - intros m Hm. apply in_slice_to in Hm. unfold definition_entry.
    destruct (rel_path_ok root m (H m Hm)) as (s & ->). eexists. reflexivity.
  - rewrite Hys. eexists. reflexivity.
Qed.

Lemma located_section_ok heading root k l :
  (forall m, In m l -> clean_under root (path m)) ->
  exists lines, located_section heading root k l = Ok lines.
Proof.
  intros H. unfold located_section. destruct l as [|m0 l0];
    [eexists; reflexivity|].
  destruct (concatM_all (located_entry root) (slice_to k (m0 :: l0)))
    as (ys & Hys).
  - intros m Hm. apply in_slice_to in Hm. unfold located_entry.
    destruct (rel_path_ok root m (H m Hm)) as (s & ->). eexists. reflexivity.
  - rewrite Hys. eexists. reflexivity.
Qed.

(** Formatting the result of a search never raises. *)
Lemma format_results_ok root k r :
  (forall m, In m (definitions r ++ imports r ++ usages r) ->
             clean_under root (path m)) ->
  exists text, format_results r root k = Ok text.
Proof.
  intros H. unfold format_results, format_lines.
  destruct (negb (found r)); [eexists; reflexivity|].
  destruct (definitions_section_ok root k (definitions r)) as (ds & ->).
  { intros m Hm. apply H. apply in_or_app. left. exact Hm. }
  destruct (located_section_ok (glyph_imports +++ " Imports") root k (imports r))
    as (ims & ->).
  { intros m Hm. apply H. apply in_or_app. right. apply in_or_app. left. exact Hm. }
  destruct (located_section_ok (glyph_usages +++ " Usages") root k (usages r))
    as (us & ->).
  { intros m Hm. apply H. apply in_or_app. right. apply in_or_app. right. exact Hm. }
  eexists. reflexivity.
Qed.

(** The definitions section is the heading, the rule and one line per
    entry shown: nothing follows the entries, however many are left out. *)
Lemma definitions_section_shape root k l lines :
  l <> [] ->
  definitions_section root k l = Ok lines ->
  exists entries,
    lines = [nl +++ glyph_definitions +++ " Package Definitions ("
             +++ str_len l +++ "):";
             Text.repeat_char "-" 40] ++ entries
    /\ List.length entries = List.length (slice_to k l)
    /\ Forall (fun e => exists m rel,
                   In m l /\ rel_path root m = Ok rel /\ e = "  " +++ rel)
              entries.
Proof.
  intros Hl. unfold definitions_section. destruct l as [|m0 l0]; [congruence|].
  destruct (concatM (definition_entry root) (slice_to k (m0 :: l0)))
    as [ys|e] eqn:E; [|discriminate].
  cbn [bind]. intros H. injection H as <-. exists ys. split; [reflexivity|].
  assert (Hin : forall m, In m (slice_to k (m0 :: l0)) -> In m (m0 :: l0))
    by (intros m; apply in_slice_to).
  revert ys E Hin. generalize (slice_to k (m0 :: l0)) as shown.
  induction shown as [|m shown IH]; intros ys E Hin; cbn [concatM] in E.
  - injection E as <-. split; [reflexivity|constructor].
  - unfold definition_entry at 1 in E.
    destruct (rel_path root m) as [rel|] eqn:Er; [|discriminate].
    cbn [bind] in E.
    destruct (concatM (definition_entry root) shown) as [zs|]; [|discriminate].
    cbn [bind] in E. injection E as <-.
    destruct (IH zs eq_refl) as [H1 H2]; [intros x Hx; apply Hin; right; exact Hx|].
    split; [cbn [List.length app]; rewrite H1; reflexivity|].
    constructor; [|exact H2]. exists m, rel.
    split; [apply Hin; left; reflexivity|]. split; [exact Er|reflexivity].
Qed.

(** The imports and usages sections end with the line [... and N more]
    whenever the list is longer than [max_items]. *)
Lemma located_section_shape heading root k l lines :
  l <> [] ->
  located_section heading root k l = Ok lines ->
  exists entries,
    lines = [nl +++ heading +++ " (" +++ str_len l +++ "):";
             Text.repeat_char "-" 40] ++ entries ++ more_line k l
    /\ concatM (located_entry root) (slice_to k l) = Ok entries.
Proof.
  intros Hl. unfold located_section. destruct l as [|m0 l0]; [congruence|].
  destruct (concatM (located_entry root) (slice_to k (m0 :: l0)))
    as [ys|e]; [|discriminate].
  cbn [bind]. intros H. injection H as <-. exists ys. auto.
Qed.

Lemma found_iff r :
  found r = true <->
  definitions r <> [] \/ imports r <> [] \/ usages r <> [].
Proof.
  unfold found, nonempty.
  destruct (definitions r), (imports r), (usages r); cbn;
    split; intros H; try reflexivity; try discriminate;
    try (left; discriminate); try (right; left; discriminate);
    try (right; right; discriminate).
  destruct H as [H|[H|H]]; congruence.
Qed.

(** C6.  The command exits with status 1 when the root is not a directory
    (missing or not), printing only the error; otherwise, when the search
    returns, it exits with 0 if some category of the result is not empty
    and with 1 if all are empty; so the status is 0 exactly when the search
    returned a result with a match. *)
Theorem exit_status (fs : node) (args : Args) (arrival : list nat) :
  let run := find_package fs (arg_root args) (arg_package_name args)
                          (lang_string (arg_lang args)) (arg_workers args)
                          100%Z (negb (arg_no_packagesets args)) arrival in
  (isdir fs (arg_root args) = false ->
   exists msg, main fs args arrival = (ErrorMessage msg, 1%Z))
  /\ (isdir fs (arg_root args) = true -> forall r, run = Ok r ->
      snd (main fs args arrival) = (if found r then 0%Z else 1%Z))
  /\ (isdir fs (arg_root args) = true -> forall e, run = Raise e ->
      main fs args arrival = (Traceback e, 1%Z))
  /\ (snd (main fs args arrival) = 0%Z <->
      isdir fs (arg_root args) = true
      /\ exists r, run = Ok r
                   /\ (definitions r <> [] \/ imports r <> [] \/ usages r <> [])).
Proof.
  intros run.
  assert (Hex : isdir fs (arg_root args) = true ->
                exists_ fs (arg_root args) = true).
  { unfold isdir, exists_. destruct (lookup fs (arg_root args)); congruence. }
  assert (Hok : isdir fs (arg_root args) = true -> forall r, run = Ok r ->
                snd (main fs args arrival) = (if found r then 0%Z else 1%Z)).
  { intros Hd r Hr. unfold main. rewrite (Hex Hd), Hd. cbn [negb].
    fold run. rewrite Hr. destruct (arg_json args); [reflexivity|].
    destruct (format_results_ok (arg_root args) (arg_max_results args) r)
      as (text & ->); [|reflexivity].
    intros m Hm. eapply find_package_clean; eassumption. }
  assert (Hbad : isdir fs (arg_root args) = false ->
                 exists msg, main fs args arrival = (ErrorMessage msg, 1%Z)).
  { intros Hd. unfold main. destruct (exists_ fs (arg_root args)); cbn [negb];
      [rewrite Hd|]; eexists; reflexivity. }
  assert (Hraise : isdir fs (arg_root args) = true -> forall e, run = Raise e ->
                   main fs args arrival = (Traceback e, 1%Z)).
  { intros Hd e He. unfold main. rewrite (Hex Hd), Hd. cbn [negb].
    fold run. rewrite He. reflexivity. }
  split; [exact Hbad|]. split; [exact Hok|]. split; [exact Hraise|]. split.
  - intros H0. destruct (isdir fs (arg_root args)) eqn:Hd.
    + split; [reflexivity|]. destruct run as [r|e] eqn:Hr.
      * exists r. split; [reflexivity|]. apply found_iff.
        rewrite (Hok eq_refl r eq_refl) in H0.
        destruct (found r); [reflexivity|discriminate].
      * rewrite (Hraise eq_refl e eq_refl) in H0. discriminate.
    + destruct (Hbad eq_refl) as (msg & E). rewrite E in H0. discriminate.
  - intros (Hd & r & Hr & Hf). rewrite (Hok Hd r Hr).
    apply found_iff in Hf. rewrite Hf. reflexivity.
Qed.

End MainFacts.

(** ** Worked searches *)

Module Scenarios.
Import ScanFacts OrderFacts PackagesetFacts DetectFacts.

(** C9, at [--max-results 1] on a tree with two definitions and two
    imports: both displays stop after one entry and both headings and the
    summary give the totals, but only the imports get the line
    [... and 1 more]; the definitions get none. *)
Theorem definitions_display_lacks_more_line :
  main two_definitions_fs
       (mkArgs "pkg" ["repo"] lang_python 1 None false false false) []
  = (Report
       (Text.join nl
          ["Search Results for: pkg (python)";
           Text.repeat_char "=" 60;
           nl +++ glyph_definitions +++ " Package Definitions (2):";
           Text.repeat_char "-" 40;
           "  a/pkg/__init__.py";
           nl +++ glyph_imports +++ " Imports (2):";
           Text.repeat_char "-" 40;
           "  m.py:1";
           "    import pkg";
           "  ... and 1 more";
           nl +++ Text.repeat_char "=" 60;
           "Summary:";
           "  Definitions: 2";
           "  Import statements: 2";
           "  Usage locations: 0"]),
     0%Z).
Proof. vm_compute. reflexivity. Qed.

(** The batches of three files arriving in the order 2, 0, 1. *)
Lemma sorted_and_order_independent_witness :
  1%Z <> 0%Z
  /\ find_package three_files_fs ["repo"] "foo" "python" None 1 true [2; 0; 1]
     = Ok (sequential_result three_files_fs ["repo"] "foo" "python" 1 true).
Proof.
  split; [discriminate|].
  refine (proj1 (proj2 (proj2 (proj2
            (sorted_and_order_independent three_files_fs ["repo"] "foo"
               "python" 1%Z true _))))
            None [2; 0; 1] _ _ _).
  - discriminate.
  - vm_compute. reflexivity.
  - exact I.
  - change (Permutation [2; 0; 1] [0; 1; 2]).
    apply Permutation_sym.
    apply (perm_trans (l' := [0; 2; 1])).
    + apply perm_skip. apply perm_swap.
    + apply (perm_trans (l' := [2; 0; 1])); [apply perm_swap|reflexivity].
Defined.

(** The sorted lists of that search. *)
Example three_files_sorted :
  sequential_result three_files_fs ["repo"] "foo" "python" 1 true
  = mkResult "foo" "python" []
      [mkMatch ["repo"; "a.py"] import (Some 2) (Some "import foo");
       mkMatch ["repo"; "b.py"] import (Some 1) (Some "import foo");
       mkMatch ["repo"; "c.py"] import (Some 1) (Some "from foo import bar")]
      [mkMatch ["repo"; "a.py"] usage (Some 1) (Some "x = foo.y");
       mkMatch ["repo"; "b.py"] usage (Some 2) (Some "foo.run()")].
Proof. vm_compute. reflexivity. Qed.


(** With the packageset step switched off nothing is reported for the
    same tree. *)
Example packagesets_disabled :
  find_package opmlite_fs ["repo"] "opmlite" "auto" None 100 false []
  = Ok (mkResult "opmlite" "packageset" [] [] []).
Proof. vm_compute. reflexivity. Qed.

(** The language auto-detection finds for a tree of packageset files. *)
Lemma no_patterns_outside_lexical_languages_witness :
  lexical (detect_language packageset_fs ["repo"]) = false
  /\ search_file_for_imports packageset_fs ["repo"; "a.packageset"] "foo"
                             (detect_language packageset_fs ["repo"])
     = Ok ([], []).
Proof.
  assert (H : lexical (detect_language packageset_fs ["repo"]) = false)
    by reflexivity.
  split; [exact H|].
  exact (proj2 (proj2
           (no_patterns_outside_lexical_languages packageset_fs
              ["repo"; "a.packageset"] "foo"
              (detect_language packageset_fs ["repo"]) H))).
Defined.

(** Only the file outside the denylisted directories is reported. *)
Example denylisted_file_not_reported :
  find_package denylisted_fs ["repo"] "widgets" "python" None 100 true []
  = Ok (mkResult "widgets" "python" []
          [mkMatch ["repo"; "main.py"] import (Some 1) (Some "import widgets")]
          []).
Proof. vm_compute. reflexivity. Qed.

(** One definition and one import, each with its line. *)
Example csharp_definition_and_import :
  find_package csharp_fs ["repo"] "Acme.Foo" "csharp" None 100 true []
  = Ok (mkResult "Acme.Foo" "csharp"
          [mkMatch ["repo"; "Foo.cs"] definition (Some 1)
                   (Some "namespace Acme.Foo { }")]
          [mkMatch ["repo"; "Bar.cs"] import (Some 1) (Some "using Acme.Foo;")]
          []).
Proof. vm_compute. reflexivity. Qed.

End Scenarios.

(** ** Batches and workers *)

Module BatchFacts.
Import ReFacts SearchFacts OrderFacts.

(** A search with a positive batch size and a well-used pool returns the
    result of the run over batches of one file. *)
Lemma find_package_positive fs root P L mw bs sp arrival :
  (0 < bs)%Z ->
  pool_ok mw arrival (batches_of fs root L bs) ->
  find_package fs root P L mw bs sp arrival
  = Ok (sequential_result fs root P L 1 sp).
Proof.
  intros Hbs Hpool.
  rewrite (batch_size_irrelevant fs root P L sp 1 bs) by lia.
  rewrite find_package_eq, make_batches_of by lia. cbn [bind].
  destruct (parallel mw (batches_of fs root L bs)) eqn:Ep.
  - destruct (Hpool Ep) as [Hw HP].
    rewrite run_batches_parallel by exact Ep.
    unfold sequential_result. rewrite <- (assemble_any_order _ _ _ _ _ _ _ HP).
    destruct mw as [w|]; [|reflexivity]. cbn in Hw.
    destruct (Z.leb_spec w 0); [lia|reflexivity].
  - rewrite run_batches_sequential by exact Ep. reflexivity.
Qed.

Lemma range_step_length n b : List.length (range_step n b) = (n + b - 1) / b.
Proof. unfold range_step. rewrite length_map, length_seq. reflexivity. Qed.

Lemma batches_of_length fs root L p :
  List.length (batches_of fs root L (Zpos p))
  = (List.length (collected fs root L) + Pos.to_nat p - 1) / Pos.to_nat p.
Proof.
  unfold batches_of, make_batches, collected.
  rewrite length_map, range_step_length. reflexivity.
Qed.

(** There is more than one batch exactly when there are more files than
    fit in one. *)
Lemma several_batches fs root L bs :
  (0 < bs)%Z ->
  (1 <? List.length (batches_of fs root L bs))%nat = true
  <-> (bs < Z.of_nat (List.length (collected fs root L)))%Z.
Proof.
  intros Hbs. destruct bs as [|p|p]; try lia.
  rewrite batches_of_length, Nat.ltb_lt.
  set (n := List.length (collected fs root L)).
  set (b := Pos.to_nat p).
  assert (Hb : 0 < b) by apply Pos2Nat.is_pos.
  assert (Ez : Z.pos p = Z.of_nat b) by (unfold b; lia).
  rewrite Ez.
  pose proof (Nat.div_mod_eq (n + b - 1) b) as E.
  pose proof (Nat.mod_upper_bound (n + b - 1) b) as U.
  split; intros H.
  - assert (b < n); [|lia]. nia.
  - assert (b < n) by lia. nia.
Qed.

Lemma parallel_nonpositive fs root L bs w :
  (0 < bs)%Z -> (w <= 0)%Z ->
  parallel (Some w) (batches_of fs root L bs) = true
  <-> (bs < Z.of_nat (List.length (collected fs root L)))%Z.
Proof.
  intros Hbs Hw. unfold parallel. rewrite <- several_batches by exact Hbs.
  destruct w; try lia; cbn [negb]; rewrite andb_true_r; reflexivity.
Qed.

(** X1.  The result of a search depends neither on the batch size, as long
    as it is positive, nor on the number of workers or on the order in which
    the pool hands the batches back. *)
Theorem batching_is_unobservable
        (fs : node) (root : Path) (P L : string) (sp : bool)
        (bs bs' : Z) (mw mw' : option Z) (arrival arrival' : list nat) :
  (0 < bs)%Z -> (0 < bs')%Z ->
  pool_ok mw arrival (batches_of fs root L bs) ->
  pool_ok mw' arrival' (batches_of fs root L bs') ->
  find_package fs root P L mw bs sp arrival
  = find_package fs root P L mw' bs' sp arrival'
  /\ exists r, find_package fs root P L mw bs sp arrival = Ok r.
Proof.
  intros H H' Hp Hp'.
  rewrite (find_package_positive fs root P L mw bs sp arrival H Hp).
  rewrite (find_package_positive fs root P L mw' bs' sp arrival' H' Hp').
  split; [reflexivity|]. eexists. reflexivity.
Qed.

(** X2.  A batch size of zero makes the search raise [ValueError] (the
    step of [range] is zero), whatever the repository holds; the packageset
    step and the definition locator have run by then. *)
Theorem zero_batch_size_raises
        (fs : node) (root : Path) (P L : string) (mw : option Z) (sp : bool)
        (arrival : list nat) :
  find_package fs root P L mw 0 sp arrival = Raise ValueError.
Proof. rewrite find_package_eq. reflexivity. Qed.

(** X3.  With a negative batch size the list of batches is empty: the
    search returns without scanning any file, so there are no usages, the
    only imports are the references of the packageset step, and the
    definitions are those of any other run. *)
Theorem negative_batch_size_scans_nothing
        (fs : node) (root : Path) (P L : string) (mw : option Z) (bs : Z)
        (sp : bool) (arrival : list nat) :
  (bs < 0)%Z ->
  exists r,
    find_package fs root P L mw bs sp arrival = Ok r
    /\ usages r = []
    /\ imports r
       = sort_matches (filter (fun m => negb (is_definition m))
                              (packageset_found fs root P sp))
    /\ definitions r = definitions (sequential_result fs root P L 1 sp).
Proof.
  intros Hbs. destruct bs as [|p|p]; try lia.
  eexists. split.
  - rewrite find_package_eq. cbn [make_batches bind].
    rewrite run_batches_sequential by reflexivity. reflexivity.
  - unfold assemble. cbn [usages imports definitions map concat_pairs flat_map
                           fst snd sort_matches].
    rewrite app_nil_r. auto.
Qed.

(** X4.  With a worker count of zero or less, and a positive batch size:
    when the collected files fit in one batch the pool is not used and the
    count is ignored; when they do not, the search raises [ValueError]. *)
Theorem nonpositive_worker_count
        (fs : node) (root : Path) (P L : string) (bs w : Z) (sp : bool)
        (arrival : list nat) :
  (0 < bs)%Z -> (w <= 0)%Z ->
  ((Z.of_nat (List.length (collected fs root L)) <= bs)%Z ->
   find_package fs root P L (Some w) bs sp arrival
   = Ok (sequential_result fs root P L bs sp))
  /\ ((bs < Z.of_nat (List.length (collected fs root L)))%Z ->
      find_package fs root P L (Some w) bs sp arrival = Raise ValueError).
Proof.
  intros Hbs Hw.
  pose proof (parallel_nonpositive fs root L bs w Hbs Hw) as Hpar.
  split; intros Hn.
  - assert (Ep : parallel (Some w) (batches_of fs root L bs) = false).
    { destruct (parallel (Some w) (batches_of fs root L bs)) eqn:E;
        [|reflexivity].
      apply proj1 in Hpar. specialize (Hpar eq_refl). lia. }
    rewrite find_package_eq, make_batches_of by lia. cbn [bind].
    rewrite run_batches_sequential by exact Ep. reflexivity.
  - apply Hpar in Hn.
    rewrite find_package_eq, make_batches_of by lia. cbn [bind].
    rewrite run_batches_parallel by exact Hn.
    destruct (Z.leb_spec w 0); [reflexivity|lia].
Qed.

End BatchFacts.

(** ** The search and the command, end to end *)

Module RunFacts.
Import ReFacts CompilerFacts ScanFacts WalkFacts SearchFacts OrderFacts
       DefinitionFacts MainFacts BatchFacts.

(** The outcome of a search for a batch size other than zero. *)
Lemma find_package_cases fs root P L mw bs sp arrival :
  bs <> 0%Z ->
  find_package fs root P L mw bs sp arrival
  = if parallel mw (batches_of fs root L bs) then
      match mw with
      | Some w =>
          if (w <=? 0)%Z then Raise ValueError
          else Ok (assemble fs root P L sp
                     (map (fun i => batch_result fs P (resolve_language fs root L)
                                      (nth i (batches_of fs root L bs) []))
                          arrival))
      | None =>
          Ok (assemble fs root P L sp
                (map (fun i => batch_result fs P (resolve_language fs root L)
                                 (nth i (batches_of fs root L bs) []))
                     arrival))
      end
    else Ok (sequential_result fs root P L bs sp).
Proof.
  intros Hbs. rewrite find_package_eq, make_batches_of by exact Hbs.
  cbn [bind]. destruct (parallel mw (batches_of fs root L bs)) eqn:Ep.
  - rewrite run_batches_parallel by exact Ep.
    destruct mw as [w|]; [destruct (w <=? 0)%Z|]; reflexivity.
  - rewrite run_batches_sequential by exact Ep. reflexivity.
Qed.

(** X5.  The command ends with an uncaught exception in one case only: a
    worker count of zero or less, given for a directory in which more than
    100 files are collected; the exception is [ValueError] and the status
    is 1. *)
Theorem main_crashes_only_on_worker_count
        (fs : node) (args : Args) (arrival : list nat) (e : exn) (c : Z) :
  main fs args arrival = (Traceback e, c)
  <-> (e = ValueError /\ c = 1%Z
       /\ isdir fs (arg_root args) = true
       /\ exists w, arg_workers args = Some w /\ (w <= 0)%Z
                    /\ 100 < List.length
                               (collected fs (arg_root args)
                                          (lang_string (arg_lang args)))).
Proof.
  unfold main.
  assert (Hex : isdir fs (arg_root args) = true ->
                exists_ fs (arg_root args) = true).
  { unfold isdir, exists_. destruct (lookup fs (arg_root args)); congruence. }
  destruct (isdir fs (arg_root args)) eqn:Hd.
  2:{ split.
      - destruct (exists_ fs (arg_root args)); cbn [negb]; discriminate.
      - intros (_ & _ & H & _). discriminate H. }
  rewrite (Hex eq_refl). cbn [negb].
  set (root := arg_root args). set (L := lang_string (arg_lang args)).
  set (P := arg_package_name args).
  set (sp := negb (arg_no_packagesets args)).
  pose proof (several_batches fs root L 100 eq_refl) as Hsev.
  destruct (find_package fs root P L (arg_workers args) 100 sp arrival)
    as [r|e'] eqn:Hrun.
  - assert (Hfmt : exists text,
               format_results r root (arg_max_results args) = Ok text).
    { apply format_results_ok. intros m Hm.
      eapply find_package_clean; eassumption. }
    destruct Hfmt as (text & Hfmt). rewrite Hfmt. split.
    + destruct (arg_json args); discriminate.
    + intros (_ & _ & _ & w & Hw & Hle & Hn). exfalso.
      rewrite find_package_cases in Hrun by discriminate.
      rewrite Hw in Hrun. unfold parallel in Hrun.
      assert (E : (1 <? List.length (batches_of fs root L 100))%nat = true)
        by (apply Hsev; lia).
      rewrite E in Hrun.
      assert (E1 : match w with 1%Z => true | _ => false end = false)
        by (destruct w as [|q|q]; try reflexivity; lia).
      cbn [andb] in Hrun.
      change (match Some w with Some 1%Z => true | _ => false end)
        with (match w with 1%Z => true | _ => false end) in Hrun.
      rewrite E1 in Hrun. cbn [negb] in Hrun.
      destruct (Z.leb_spec w 0); [discriminate|lia].
  - rewrite find_package_cases in Hrun by discriminate.
    destruct (parallel (arg_workers args) (batches_of fs root L 100)) eqn:Ep;
      [|discriminate].
    destruct (arg_workers args) as [w|] eqn:Hw; [|discriminate].
    destruct (Z.leb_spec w 0) as [Hle|Hgt]; [|discriminate].
    injection Hrun as <-.
    unfold parallel in Ep. apply andb_true_iff in Ep. destruct Ep as [Ep _].
    apply Hsev in Ep. split.
    + intros H. injection H as <- <-. repeat split.
      exists w. split; [reflexivity|]. split; [exact Hle|]. lia.
    + intros (-> & -> & _). reflexivity.
Qed.

(** X6.  When the canonical directory [src/otools/deps/pkgsets] exists
    below the root, the packageset locator reports files of that directory
    tree only: a packageset kept elsewhere in the repository is never
    found. *)
Theorem canonical_directory_is_exclusive
        (fs : node) (root : Path) (P : string) :
  isdir fs (canonical_pkgset root) = true ->
  exists ms,
    find_packageset_definition fs root P = Ok ms
    /\ forall m, In m ms ->
         exists rel name,
           path m = root ++ ["src"; "otools"; "deps"; "pkgsets"] ++ rel ++ [name]
           /\ Text.endswith name ".packageset" = true.
Proof.
  intros Hc. eexists. split; [apply find_packageset_definition_ok|].
  intros m H. apply in_flat_map in H.
  destruct H as ([[dirpath dirnames] filenames] & Hw & H).
  unfold packageset_dir in H. apply in_flat_map in H.
  destruct H as (filename & _ & H).
  destruct (Text.endswith filename ".packageset") eqn:He; [|destruct H].
  apply packageset_entry_path in H.
  apply walk_clean in Hw. destruct Hw as (rel & -> & _ & _).
  unfold pkgset_root in H. rewrite Hc in H.
  exists rel, filename. split; [|exact He].
  rewrite H. unfold path_join, canonical_pkgset.
  rewrite <- !app_assoc. reflexivity.
Qed.

Lemma definition_lines_kind f pats lines : forall k m,
  In m (definition_lines f pats k lines) -> match_type m = definition.
Proof.
  induction lines as [|l ls IH]; intros k m H; [destruct H|].
  cbn [definition_lines] in H. apply in_app_or in H. destruct H as [H|H].
  - destruct (any_match pats l); [destruct H as [<-|[]]; reflexivity|destruct H].
  - eapply IH. exact H.
Qed.

Lemma source_definitions_kind fs root P L m :
  In m (source_definitions fs root P L) -> match_type m = definition.
Proof.
  unfold source_definitions. destruct (String.eqb L "python").
  - intros H. apply in_flat_map in H.
    destruct H as ([[dirpath dirnames] filenames] & _ & H).
    unfold python_definitions in H. apply in_app_or in H. destruct H as [H|H].
    + destruct (_ && _); [|destruct H]. destruct H as [<-|[]]. reflexivity.
    + destruct (Text.mem _ _); [|destruct H]. destruct H as [<-|[]]. reflexivity.
  - intros H. apply in_flat_map in H.
    destruct H as ([[dirpath dirnames] filenames] & _ & H).
    apply in_flat_map in H. destruct H as (filename & _ & H).
    unfold file_definitions in H.
    destruct (Text.mem _ _); [|destruct H].
    destruct (read_text _ _); [|destruct H].
    eapply definition_lines_kind. exact H.
Qed.

Lemma import_shape_kind fs P m : import_shape fs P m -> match_type m = import.
Proof. intros [->|(n & l & _ & ->)]; reflexivity. Qed.

Lemma usage_shape_kind fs m : usage_shape fs m -> match_type m = usage.
Proof. intros (n & l & _ & ->). reflexivity. Qed.

Lemma results_shape fs root P L results :
  Forall (fun res =>
            exists b, res = batch_result fs P L b
                      /\ incl b (iter_source_files fs root L true)) results ->
  Forall (fun res => exists b, res = batch_result fs P L b) results.
Proof.
  apply Forall_impl. intros res (b & H & _). exists b. exact H.
Qed.

(** X7.  In the result of a search every entry of [definitions] has the
    match type "definition", every entry of [imports] the type "import" and
    every entry of [usages] the type "usage": the routing of the packageset
    matches, the two locators, the scanner and the sort keep the three
    categories apart. *)
Theorem categories_hold_their_kind
        (fs : node) (root : Path) (P L : string) (mw : option Z) (bs : Z)
        (sp : bool) (arrival : list nat) (r : SearchResult) :
  find_package fs root P L mw bs sp arrival = Ok r ->
  Forall (fun m => match_type m = definition) (definitions r)
  /\ Forall (fun m => match_type m = import) (imports r)
  /\ Forall (fun m => match_type m = usage) (usages r).
Proof.
  intros H. apply find_package_results in H.
  destruct H as (results & -> & Hall). apply results_shape in Hall.
  unfold assemble. cbn [definitions imports usages].
  repeat split; apply Forall_forall; intros m Hm.
  - apply in_app_or in Hm. destruct Hm as [Hm|Hm].
    + apply filter_In in Hm. destruct Hm as [_ Hm]. unfold is_definition in Hm.
      destruct (match_type m); [reflexivity|discriminate|discriminate].
    + eapply source_definitions_kind. exact Hm.
  - rewrite in_sort_matches in Hm. apply (import_shape_kind fs P).
    apply in_app_or in Hm. destruct Hm as [Hm|Hm].
    + eapply packageset_reference_shape. exact Hm.
    + eapply batch_import_shape; eassumption.
  - rewrite in_sort_matches in Hm. apply (usage_shape_kind fs).
    eapply batch_usage_shape; eassumption.
Qed.

(** The batches of a run, put end to end, are the collected files. *)
Lemma sequential_batches_flat fs root P L bs :
  (0 < bs)%Z ->
  concat_pairs (map (batch_result fs P (resolve_language fs root L))
                    (batches_of fs root L bs))
  = batch_result fs P (resolve_language fs root L) (collected fs root L).
Proof.
  intros Hz. rewrite batch_results_concat. f_equal.
  unfold batches_of, collected. destruct bs as [|p|p]; try lia.
  eapply make_batches_concat. reflexivity.
Qed.

(** X8.  A search with a positive batch size returns, and its imports and
    usages are exact.  The imports are the packageset matches that are not
    definitions together with one entry for every line, of every collected
    file, that some import pattern matches; the usages are one entry for
    every line of a collected file that no import pattern matches and the
    usage pattern does.  Each entry carries the file, the 1-based line
    number and the stripped line. *)
Theorem search_is_exact
        (fs : node) (root : Path) (P L : string) (mw : option Z) (bs : Z)
        (sp : bool) (arrival : list nat) :
  (0 < bs)%Z ->
  pool_ok mw arrival (batches_of fs root L bs) ->
  exists pats upat r,
    get_import_patterns P (resolve_language fs root L) = Ok pats
    /\ get_usage_pattern P (resolve_language fs root L) = Ok upat
    /\ find_package fs root P L mw bs sp arrival = Ok r
    /\ (forall m, In m (imports r) <->
          (sp = true
           /\ exists ms, find_packageset_definition fs root P = Ok ms
                         /\ In m ms /\ match_type m <> definition)
          \/ exists f n line,
               In f (collected fs root L)
               /\ nth_error (file_lines fs f) n = Some line
               /\ any_match pats line = true
               /\ m = mkMatch f import (Some (S n)) (Some (Text.strip line)))
    /\ (forall m, In m (usages r) <->
          exists f n line,
            In f (collected fs root L)
            /\ nth_error (file_lines fs f) n = Some line
            /\ any_match pats line = false
            /\ usage_match upat line = true
            /\ m = mkMatch f usage (Some (S n)) (Some (Text.strip line))).
Proof.
  intros Hbs Hpool.
  set (lang := resolve_language fs root L).
  exists (map (fill P) (import_templates lang)),
         (option_map (fill P) (usage_template lang)),
         (sequential_result fs root P L 1 sp).
  split; [apply import_patterns_ok|].
  split; [apply usage_pattern_ok|].
  split; [apply find_package_positive; assumption|].
  unfold sequential_result, assemble. cbn [imports usages].
  rewrite sequential_batches_flat by lia. fold lang.
  unfold batch_result. cbn [fst snd]. split; intros m.
  - rewrite in_sort_matches, in_app_iff, filter_In, in_flat_map. split.
    + intros [[Hm Hk]|(f & Hf & Hm)].
      * left. unfold packageset_found in Hm. destruct sp; [|destruct Hm].
        split; [reflexivity|]. eexists.
        split; [apply find_packageset_definition_ok|]. split; [exact Hm|].
        unfold is_definition in Hk. intros E. rewrite E in Hk. discriminate.
      * right. unfold scan_file in Hm. apply scan_lines_imports in Hm.
        destruct Hm as (n & line & H1 & H2 & H3). exists f, n, line. auto.
    + intros [(-> & ms & Hms & Hm & Hk)|(f & n & line & Hf & H1 & H2 & H3)].
      * left. rewrite find_packageset_definition_ok in Hms.
        injection Hms as <-. split; [exact Hm|].
        unfold is_definition. destruct (match_type m); [congruence| |];
          reflexivity.
      * right. exists f. split; [exact Hf|]. unfold scan_file.
        apply scan_lines_imports. exists n, line. auto.
  - rewrite in_sort_matches, in_flat_map. split.
    + intros (f & Hf & Hm). unfold scan_file in Hm.
      apply scan_lines_usages in Hm.
      destruct Hm as (n & line & H1 & H2 & H3 & H4). exists f, n, line. auto.
    + intros (f & n & line & Hf & H1 & H2 & H3 & H4).
      exists f. split; [exact Hf|]. unfold scan_file.
      apply scan_lines_usages. exists n, line. auto.
Qed.

End RunFacts.

(** ** The files a search reads *)

Module CollectFacts.
Import WalkFacts SearchFacts DefinitionFacts PackagesetFacts DetectFacts.

Lemma in_iter_source_files fs root L ic p :
  In p (iter_source_files fs root L ic) <->
  exists dirpath dirnames filenames filename,
    In (dirpath, dirnames, filenames) (walk fs root)
    /\ In filename filenames
    /\ p = path_join dirpath filename
    /\ (Text.mem (suffix filename) (fst (profile L)) = true
        \/ (ic = true /\ Text.mem filename (snd (profile L)) = true)).
Proof.
  unfold iter_source_files. fold (profile L).
  destruct (profile L) as [exts cfgs]. cbn [fst snd].
  rewrite in_flat_map. split.
  - intros ([[dirpath dirnames] filenames] & Hw & H).
    apply in_flat_map in H. destruct H as (filename & Hf & H).
    exists dirpath, dirnames, filenames, filename.
    split; [exact Hw|]. split; [exact Hf|].
    unfold source_file in H.
    destruct (Text.mem (suffix filename) exts);
      [destruct H as [<-|[]]; auto|].
    destruct ic; cbn [andb] in H; [|destruct H].
    destruct (Text.mem filename cfgs); [|destruct H].
    destruct H as [<-|[]]. auto.
  - intros (dirpath & dirnames & filenames & filename & Hw & Hf & -> & H).
    exists (dirpath, dirnames, filenames). split; [exact Hw|].
    apply in_flat_map. exists filename. split; [exact Hf|].
    unfold source_file.
    destruct (Text.mem (suffix filename) exts); [left; reflexivity|].
    destruct H as [H|[-> H]]; [discriminate|].
    rewrite H. left. reflexivity.
Qed.

Lemma config_get_In lang c :
  config_get lang LANGUAGE_CONFIG = Some c -> In (lang, c) LANGUAGE_CONFIG.
Proof.
  generalize LANGUAGE_CONFIG as cfg.
  induction cfg as [|[l c'] cfg IH]; cbn [config_get]; [discriminate|].
  destruct (String.eqb l lang) eqn:E.
  - apply String.eqb_eq in E. intros H. injection H as <-. subst. left.
    reflexivity.
  - intros H. right. apply IH. exact H.
Qed.

Lemma mem_incl x l l' : incl l l' -> Text.mem x l = true -> Text.mem x l' = true.
Proof. intros H. rewrite !mem_In. apply H. Qed.

(** X9.  A language the registry does not list makes [iter_source_files]
    look for the files of all languages: it yields every file that the
    search of any single language yields. *)
Theorem unlisted_language_collects_all
        (fs : node) (root : Path) (L L' : string) (ic : bool) (p : Path) :
  config_get L' LANGUAGE_CONFIG = None ->
  In p (iter_source_files fs root L ic) ->
  In p (iter_source_files fs root L' ic).
Proof.
  intros HL'. rewrite !in_iter_source_files.
  intros (d & dn & fn & f & Hw & Hf & -> & H).
  exists d, dn, fn, f. split; [exact Hw|]. split; [exact Hf|].
  split; [reflexivity|].
  unfold profile in *. rewrite HL'. cbn [fst snd].
  destruct (config_get L LANGUAGE_CONFIG) as [c|] eqn:E; [|exact H].
  apply config_get_In in E.
  assert (H1 : incl (fst c) ALL_EXTENSIONS).
  { intros x Hx. unfold ALL_EXTENSIONS. apply in_flat_map.
    exists (L, c). split; [exact E|exact Hx]. }
  assert (H2 : incl (snd c) all_config_files).
  { intros x Hx. unfold all_config_files. apply in_flat_map.
    exists (L, c). split; [exact E|exact Hx]. }
  destruct H as [H|[-> H]]; [left|right; split; [reflexivity|]];
    eapply mem_incl; eassumption.
Qed.

Lemma string_length_append s t :
  String.length (s +++ t) = String.length s + String.length t.
Proof. induction s as [|c s IH]; cbn; [reflexivity|]. rewrite IH. reflexivity. Qed.

Lemma rfind_append s t sep i :
  Text.rfind t sep = Some i ->
  Text.rfind (s +++ t) sep = Some (String.length s + i).
Proof.
  intros H. induction s as [|c s IH]; [exact H|].
  cbn [String.append Text.rfind]. rewrite IH. reflexivity.
Qed.

Lemma substring_append_tail s t :
  substring (String.length s) (String.length t) (s +++ t) = t.
Proof.
  induction s as [|c s IH]; cbn [String.length String.append substring].
  - apply substring_all.
  - exact IH.
Qed.

(** The suffix of [stem + ext], for an extension with one dot, at its
    start. *)
Lemma suffix_append stem ext :
  Text.rfind ext "." = Some 0 -> 1 < String.length ext ->
  suffix (stem +++ ext) = match stem with EmptyString => EmptyString | _ => ext end.
Proof.
  intros Hr Hl. unfold suffix. rewrite (rfind_append stem ext "." 0 Hr).
  rewrite Nat.add_0_r, string_length_append.
  destruct stem as [|c s].
  - reflexivity.
  - assert (E1 : (0 <? String.length (String c s))%nat = true)
      by (apply Nat.ltb_lt; cbn; lia).
    assert (E2 : (String.length (String c s)
                  <? String.length (String c s) + String.length ext - 1)%nat
                 = true) by (apply Nat.ltb_lt; lia).
    rewrite E1, E2. cbn [andb].
    replace (String.length (String c s) + String.length ext
             - String.length (String c s)) with (String.length ext) by lia.
    apply substring_append_tail.
Qed.

Lemma append_star stem ext :
  stem +++ ext = "*" +++ ext -> stem = "*".
Proof.
  intros H.
  assert (Hl : String.length stem = 1).
  { apply (f_equal String.length) in H. rewrite !string_length_append in H.
    cbn in H. lia. }
  destruct stem as [|c [|d s]]; cbn in Hl; try lia.
  cbn in H. injection H as ->. reflexivity.
Qed.

Lemma endswith_append s t : Text.endswith (s +++ t) t = true.
Proof.
  unfold Text.endswith. rewrite string_length_append.
  replace (String.length s + String.length t - String.length t)
    with (String.length s) by lia.
  rewrite substring_append_tail, String.eqb_refl.
  apply andb_true_iff. split; [apply Nat.leb_le; lia|reflexivity].
Qed.

(** X10.  The wildcard entries of the C# profile ("*.csproj", "*.sln",
    "*.nuspec") are compared with file names as they stand: a file named
    [stem.csproj], [stem.sln] or [stem.nuspec] is collected only when its
    stem is the one character "*". *)
Theorem wildcard_config_names_are_literal
        (fs : node) (root : Path) (ic : bool) (dirpath : Path)
        (stem ext : string) :
  In ext [".csproj"; ".sln"; ".nuspec"] ->
  In (dirpath ++ [stem +++ ext]) (iter_source_files fs root "csharp" ic) ->
  stem = "*".
Proof.
  intros Hext H. apply in_iter_source_files in H.
  destruct H as (d & dn & fn & f & _ & _ & E & H).
  unfold path_join in E. apply app_inj_tail in E. destruct E as [_ <-].
  assert (Hs : suffix (stem +++ ext)
               = match stem with EmptyString => EmptyString | _ => ext end).
  { destruct Hext as [<-|[<-|[<-|[]]]]; apply suffix_append;
      try reflexivity; cbn; lia. }
  cbn [profile config_get LANGUAGE_CONFIG String.eqb Ascii.eqb Bool.eqb fst snd]
    in H.
  destruct H as [H|[_ H]].
  - exfalso. rewrite Hs in H.
    destruct stem; [discriminate H|].
    destruct Hext as [<-|[<-|[<-|[]]]]; discriminate H.
  - apply mem_In in H.
    destruct Hext as [<-|[<-|[<-|[]]]];
      destruct H as [H|[H|[H|[H|[]]]]];
      first [ apply (append_star stem ".csproj"); symmetry; exact H
            | apply (append_star stem ".sln"); symmetry; exact H
            | apply (append_star stem ".nuspec"); symmetry; exact H
            | exfalso;
              match type of H with
              | _ = stem +++ ?e =>
                  pose proof (endswith_append stem e) as Hend;
                  rewrite <- H in Hend; discriminate Hend
              end ].
Qed.

(** X23.  For C#, Perl and Rust the definition locator reads only the
    files whose extension the profile of the language lists, so it never
    reports a definition in one of the config files of the profile, which
    the scanner does read: the pattern for the crate name in "Cargo.toml"
    never meets that file. *)
Theorem definitions_never_in_config_files
        (fs : node) (root : Path) (P L : string) (ms : list PackageMatch)
        (m : PackageMatch) :
  In L ["csharp"; "perl"; "rust"] ->
  find_package_definition fs root P L = Ok ms ->
  In m ms ->
  Text.mem (suffix (path_name (path m))) (fst (profile L)) = true
  /\ ~ In (path_name (path m)) (snd (profile L))
  /\ exists n, line_number m = Some (S n).
Proof.
  intros HL H Hm. rewrite find_package_definition_ok in H. injection H as <-.
  assert (Hpy : String.eqb L "python" = false)
    by (destruct HL as [<-|[<-|[<-|[]]]]; reflexivity).
  unfold source_definitions in Hm. rewrite Hpy in Hm.
  apply in_flat_map in Hm. destruct Hm as ([[d dn] fn] & _ & Hm).
  apply in_flat_map in Hm. destruct Hm as (filename & _ & Hm).
  unfold file_definitions in Hm.
  fold (profile L) in Hm.
  destruct (Text.mem (suffix filename) _) eqn:Hs; [|destruct Hm].
  destruct (read_text fs (path_join d filename)); [|destruct Hm].
  assert (Hp : path m = path_join d filename)
    by (eapply definition_lines_path; exact Hm).
  assert (Hn : exists n, line_number m = Some (S n)).
  { clear Hp. revert Hm. generalize 0 as k.
    induction (Text.readlines s) as [|l ls IH]; intros k Hm; [destruct Hm|].
    cbn [definition_lines] in Hm. apply in_app_or in Hm.
    destruct Hm as [Hm|Hm]; [|exact (IH (S k) Hm)].
    destruct (any_match _ l); [|destruct Hm].
    destruct Hm as [<-|[]]. exists k. reflexivity. }
  rewrite Hp. unfold path_name, path_join. rewrite last_last.
  assert (Hfst : fst (profile L)
                 = match config_get L LANGUAGE_CONFIG with
                   | Some c => fst c
                   | None => ALL_EXTENSIONS
                   end)
    by (unfold profile; destruct (config_get L LANGUAGE_CONFIG); reflexivity).
  rewrite Hfst. split; [exact Hs|]. split; [|exact Hn].
  intros Hc.
  assert (Hall : forallb (fun c => negb (Text.mem (suffix c) (fst (profile L))))
                         (snd (profile L)) = true)
    by (destruct HL as [<-|[<-|[<-|[]]]]; vm_compute; reflexivity).
  rewrite forallb_forall in Hall. specialize (Hall _ Hc).
  rewrite Hfst, Hs in Hall. discriminate Hall.
Qed.

End CollectFacts.

(** ** Detection, display and exit status *)

Module ReportFacts.
Import ReFacts CompilerFacts ScanFacts WalkFacts SearchFacts OrderFacts
       DefinitionFacts DetectFacts MainFacts BatchFacts RunFacts.

Lemma first_max_in rest : forall best,
  In (first_max best rest) (map fst (best :: rest)).
Proof.
  induction rest as [|e rest IH]; intros best; [left; reflexivity|].
  cbn [first_max]. destruct (snd best <? snd e)%nat.
  - right. apply IH.
  - destruct (IH best) as [H|H]; [left; exact H|right; right; exact H].
Qed.

(** X11.  Auto-detection always answers with a language of the registry,
    never with "auto" or a name of its own; so a search asked for "auto"
    reports one of "python", "csharp", "perl", "rust" and "packageset" as
    its language. *)
Theorem detect_language_is_registered (fs : node) (root : Path) :
  In (detect_language fs root) languages
  /\ forall P mw bs sp arrival r,
       find_package fs root P "auto" mw bs sp arrival = Ok r ->
       language r = detect_language fs root
       /\ In (language r) ["python"; "csharp"; "perl"; "rust"; "packageset"].
Proof.
  assert (H : In (detect_language fs root) languages).
  { unfold detect_language.
    destruct (census_counters (walk fs root) (fun _ => 0))
      as (scanned & rest & _ & Hc & _).
    change (counters (fun _ => 0)) with zero_counts in Hc. rewrite Hc.
    destruct (max_count _ =? 0)%nat; [right; left; reflexivity|].
    destruct (counters _) as [|e others] eqn:E; [right; left; reflexivity|].
    pose proof (first_max_in others e) as Hin. rewrite <- E in Hin.
    unfold counters in Hin. rewrite map_map in Hin. cbn [fst] in Hin.
    rewrite map_id in Hin. exact Hin. }
  split; [exact H|].
  intros P mw bs sp arrival r Hr. apply find_package_results in Hr.
  destruct Hr as (results & -> & _). unfold assemble. cbn [language].
  unfold resolve_language. cbn [String.eqb Ascii.eqb Bool.eqb].
  split; [reflexivity|exact H].
Qed.

Lemma definition_lines_nil f lines : forall k,
  definition_lines f [] k lines = [].
Proof.
  induction lines as [|l ls IH]; intros k; [reflexivity|].
  cbn [definition_lines any_match existsb app]. apply IH.
Qed.

Lemma flat_map_nil {A B} (f : A -> list B) l :
  (forall x, In x l -> f x = []) -> flat_map f l = [].
Proof.
  induction l as [|x l IH]; intros H; [reflexivity|].
  cbn [flat_map]. rewrite (H x (or_introl eq_refl)), IH; [reflexivity|].
  intros y Hy. apply H. right. exact Hy.
Qed.

Lemma nonlexical_templates L :
  lexical L = false ->
  String.eqb L "python" = false
  /\ definition_templates L = []
  /\ import_templates L = []
  /\ usage_template L = None.
Proof.
  unfold lexical, Text.mem. cbn [existsb]. rewrite !orb_false_iff.
  intros (E1 & E2 & E3 & E4 & _).
  rewrite String.eqb_sym in E1.
  unfold definition_templates, import_templates, usage_template.
  rewrite (String.eqb_sym L "python"), E1.
  rewrite (String.eqb_sym L "csharp"), (String.eqb_sym L "perl"),
    (String.eqb_sym L "rust").
  rewrite (String.eqb_sym "csharp" L), (String.eqb_sym "perl" L),
    (String.eqb_sym "rust" L), E2, E3, E4. auto.
Qed.

Lemma scan_lines_no_patterns f lines : forall k,
  scan_lines f [] None k lines = ([], []).
Proof.
  induction lines as [|l ls IH]; intros k; [reflexivity|].
  cbn [scan_lines]. rewrite IH. reflexivity.
Qed.

(** X12.  When the language of the search is none of python, csharp, perl
    and rust (an unlisted name, or "packageset", which auto-detection can
    answer), the search still returns, but it reports nothing of its own:
    no usage, no import beyond the references of the packageset step, no
    definition beyond those of the packageset step; with that step switched
    off the result is empty. *)
Theorem only_packagesets_outside_lexical_languages
        (fs : node) (root : Path) (P L : string) (mw : option Z) (bs : Z)
        (sp : bool) (arrival : list nat) (r : SearchResult) :
  lexical (resolve_language fs root L) = false ->
  find_package fs root P L mw bs sp arrival = Ok r ->
  usages r = []
  /\ definitions r = filter is_definition (packageset_found fs root P sp)
  /\ Permutation (imports r)
                 (filter (fun m => negb (is_definition m))
                         (packageset_found fs root P sp))
  /\ (sp = false -> found r = false).
Proof.
  intros Hlex H. apply find_package_results in H.
  destruct H as (results & -> & Hall).
  destruct (nonlexical_templates _ Hlex) as (Hpy & Hd & Hi & Hu).
  assert (Hres : forall res, In res results -> res = ([], [])).
  { rewrite Forall_forall in Hall. intros res Hres.
    destruct (Hall _ Hres) as (b & -> & _). unfold batch_result.
    f_equal; apply flat_map_nil; intros f _; unfold scan_file;
      rewrite Hi, Hu; cbn [map option_map]; rewrite scan_lines_no_patterns;
      reflexivity. }
  assert (Hpairs : concat_pairs results = ([], [])).
  { unfold concat_pairs. f_equal; apply flat_map_nil; intros res Hin;
      rewrite (Hres res Hin); reflexivity. }
  assert (Hsrc : source_definitions fs root P (resolve_language fs root L) = []).
  { unfold source_definitions. rewrite Hpy, Hd. cbn [map].
    apply flat_map_nil. intros [[d dn] fn] _. apply flat_map_nil.
    intros f _. unfold file_definitions.
    destruct (Text.mem _ _); [|reflexivity].
    destruct (read_text _ _); [|reflexivity]. apply definition_lines_nil. }
  unfold assemble. cbn [usages definitions imports].
  rewrite Hpairs, Hsrc. cbn [fst snd sort_matches]. rewrite !app_nil_r.
  split; [reflexivity|]. split; [reflexivity|].
  split; [apply sort_matches_perm|].
  intros ->. reflexivity.
Qed.

Lemma concatM_entries {A B} (f : A -> result (list B)) (bad : A -> bool)
      (g : A -> list B) (l : list A) :
  (forall x, f x = if bad x then Raise ValueError else Ok (g x)) ->
  concatM f l = if existsb bad l then Raise ValueError else Ok (flat_map g l).
Proof.
  intros H. induction l as [|x l IH]; [reflexivity|].
  cbn [concatM existsb flat_map]. rewrite H, IH.
  destruct (bad x); [reflexivity|]. cbn [bind orb].
  destruct (existsb bad l); reflexivity.
Qed.

Lemma definition_entry_cases root m :
  definition_entry root m
  = if outside root m then Raise ValueError
    else Ok (match relative_to (path m) root with
             | Some rel => ["  " +++ str_rel rel]
             | None => []
             end).
Proof.
  unfold definition_entry, rel_path, outside.
  destruct (relative_to (path m) root); reflexivity.
Qed.

Lemma located_entry_cases root m :
  located_entry root m
  = if outside root m then Raise ValueError
    else Ok (match relative_to (path m) root with
             | Some rel =>
                 ("  " +++ str_rel rel +++ ":" +++ str_line (line_number m))
                 :: match line_content m with
                    | Some (String c t) => ["    " +++ String c t]
                    | _ => []
                    end
             | None => []
             end).
Proof.
  unfold located_entry, rel_path, outside.
  destruct (relative_to (path m) root); reflexivity.
Qed.

Lemma definitions_section_raises root k l :
  (exists lines, definitions_section root k l = Ok lines
                 /\ existsb (outside root) (slice_to k l) = false)
  \/ (definitions_section root k l = Raise ValueError
      /\ existsb (outside root) (slice_to k l) = true).
Proof.
  unfold definitions_section. destruct l as [|m0 l0].
  - left. eexists. split; [reflexivity|].
    unfold slice_to. destruct (0 <=? k)%Z; rewrite firstn_nil; reflexivity.
  - rewrite (concatM_entries _ _ _ _ (definition_entry_cases root)).
    destruct (existsb _ _); [right|left; eexists]; split; reflexivity.
Qed.

Lemma located_section_raises heading root k l :
  (exists lines, located_section heading root k l = Ok lines
                 /\ existsb (outside root) (slice_to k l) = false)
  \/ (located_section heading root k l = Raise ValueError
      /\ existsb (outside root) (slice_to k l) = true).
Proof.
  unfold located_section. destruct l as [|m0 l0].
  - left. eexists. split; [reflexivity|].
    unfold slice_to. destruct (0 <=? k)%Z; rewrite firstn_nil; reflexivity.
  - rewrite (concatM_entries _ _ _ _ (located_entry_cases root)).
    destruct (existsb _ _); [right|left; eexists]; split; reflexivity.
Qed.

(** X13.  [format_results] raises exactly when the result holds a match
    and one of the matches it displays (the first [max_items] of a
    category) has a path that is not below [root]; the exception is the
    [ValueError] of [relative_to].  A match beyond the first [max_items]
    is not looked at, and a result without a match is formatted whatever
    the root. *)
Theorem format_results_raises_iff
        (r : SearchResult) (root : Path) (max_items : Z) (e : exn) :
  format_results r root max_items = Raise e
  <-> (e = ValueError /\ found r = true
       /\ exists m, In m (displayed r max_items)
                    /\ relative_to (path m) root = None).
Proof.
  assert (Hex : existsb (outside root) (displayed r max_items) = true
                <-> exists m, In m (displayed r max_items)
                              /\ relative_to (path m) root = None).
  { rewrite existsb_exists. unfold outside.
    split; intros (m & Hm & H); exists m; (split; [exact Hm|]);
      destruct (relative_to (path m) root); congruence. }
  rewrite <- Hex. unfold displayed. rewrite !existsb_app.
  unfold format_results, format_lines.
  destruct (found r); cbn [negb bind].
  2:{ split; [discriminate|]. intros (_ & H & _). discriminate H. }
  destruct (definitions_section_raises root max_items (definitions r))
    as [(ds & -> & ->)|(-> & ->)]; cbn [bind orb].
  2:{ split; [intros H; injection H as <-; auto|intros (-> & _); reflexivity]. }
  destruct (located_section_raises (glyph_imports +++ " Imports") root
              max_items (imports r))
    as [(ims & -> & ->)|(-> & ->)]; cbn [bind orb].
  2:{ split; [intros H; injection H as <-; auto|intros (-> & _); reflexivity]. }
  destruct (located_section_raises (glyph_usages +++ " Usages") root
              max_items (usages r))
    as [(us & -> & ->)|(-> & ->)]; cbn [bind orb].
  2:{ split; [intros H; injection H as <-; auto|intros (-> & _); reflexivity]. }
  split; [discriminate|]. intros (_ & _ & H). discriminate H.
Qed.

Lemma str_Z_pos z : (0 <= z)%Z -> Text.str_Z z = Text.str_nat (Z.to_nat z).
Proof. destruct z; try reflexivity. lia. Qed.

(** X14.  The line [... and N more] below the imports and the usages: for
    a [max_items] of zero or more it is there exactly when entries are left
    out, and N is their number; for a negative [max_items] the display
    drops the last [-max_items] entries, and the line is always there and
    announces [-max_items] more entries than the category holds. *)
Theorem truncation_line_counts
        (heading : string) (root : Path) (max_items : Z)
        (l : list PackageMatch) (lines : list string) :
  l <> [] ->
  located_section heading root max_items l = Ok lines ->
  exists entries,
    concatM (located_entry root) (slice_to max_items l) = Ok entries
    /\ lines = [nl +++ heading +++ " (" +++ str_len l +++ "):";
                Text.repeat_char "-" 40] ++ entries ++ more_line max_items l
    /\ ((0 <= max_items)%Z ->
        slice_to max_items l = firstn (Z.to_nat max_items) l
        /\ more_line max_items l
           = if (Z.to_nat max_items <? List.length l)%nat
             then ["  ... and "
                   +++ Text.str_nat (List.length l
                                     - List.length (slice_to max_items l))
                   +++ " more"]
             else [])
    /\ ((max_items < 0)%Z ->
        slice_to max_items l
        = firstn (List.length l - Z.to_nat (- max_items)) l
        /\ more_line max_items l
           = ["  ... and "
              +++ Text.str_nat (List.length l + Z.to_nat (- max_items))
              +++ " more"]).
Proof.
  intros Hl H. destruct (located_section_shape _ _ _ _ _ Hl H) as (entries & E1 & E2).
  exists entries. split; [exact E2|]. split; [exact E1|]. split.
  - intros Hk. unfold slice_to, more_line.
    destruct (Z.leb_spec 0 max_items); [|lia]. split; [reflexivity|].
    destruct (Z.ltb_spec max_items (Z.of_nat (List.length l))) as [Hlt|Hge];
      destruct (Nat.ltb_spec (Z.to_nat max_items) (List.length l)) as [Hlt'|Hge'];
      try lia; [|reflexivity].
    rewrite str_Z_pos by lia. rewrite length_firstn.
    do 4 f_equal. lia.
  - intros Hk. unfold slice_to, more_line.
    destruct (Z.leb_spec 0 max_items); [lia|]. split; [reflexivity|].
    destruct (Z.ltb_spec max_items (Z.of_nat (List.length l))); [|lia].
    rewrite str_Z_pos by lia. do 4 f_equal. lia.
Qed.

Lemma count_nl_in_range : forall s cur n,
  Text.count_nl_before n s < List.length (Text.split_from cur s).
Proof.
  induction s as [|c s IH]; intros cur n.
  - destruct n; cbn; lia.
  - destruct n as [|n]; cbn [Text.count_nl_before Text.split_from].
    + destruct (Text.code c =? 10)%N; cbn [List.length];
        [lia|]. specialize (IH (cur +++ String c EmptyString) 0).
      destruct s; cbn in *; lia.
    + destruct (Text.code c =? 10)%N; cbn [List.length].
      * specialize (IH EmptyString n). lia.
      * apply IH.
Qed.

(** X24.  When the packageset locator reports a match with a line number,
    the number is at least 1 and the line it takes from
    [content.split("\n")] exists: the indexing cannot fail, and the content
    reported is that line, stripped. *)
Theorem id_match_line_exists
        (fs : node) (dirpath : Path) (filename P content : string)
        (m : PackageMatch) (n : nat) :
  read_text fs (path_join dirpath filename) = Some content ->
  check_packageset fs dirpath filename P = Ok [m] ->
  line_number m = Some n ->
  1 <= n
  /\ match_type m = definition
  /\ exists line,
       nth_error (Text.split_nl content) (n - 1) = Some line
       /\ line_content m = Some (Text.strip line).
Proof.
  intros Hr H Hn. rewrite check_packageset_ok in H. injection H as H.
  unfold packageset_entry in H.
  destruct (filename_matches filename P).
  { injection H as <-. discriminate Hn. }
  rewrite Hr in H.
  destruct (Re.search (ReFacts.fill P id_template) content) as [start|].
  - injection H as <-. cbn [line_number] in Hn. injection Hn as <-.
    split; [lia|]. split; [reflexivity|].
    replace (Text.count_nl_before start content + 1 - 1)
      with (Text.count_nl_before start content) by lia.
    exists (nth (Text.count_nl_before start content) (Text.split_nl content)
                EmptyString).
    split; [|reflexivity].
    apply nth_error_nth'. apply count_nl_in_range.
  - destruct (Text.contains _ _); [|discriminate H].
    injection H as <-. discriminate Hn.
Qed.

(** X25.  The exit status of the command does not depend on how the
    result is displayed: [--json], [--max-results] and [--verbose] leave it
    as it is, since formatting the result of a search cannot fail. *)
Theorem display_flags_do_not_change_status
        (fs : node) (args : Args) (arrival : list nat)
        (max_results : Z) (verbose json : bool) :
  snd (main fs
            (mkArgs (arg_package_name args) (arg_root args) (arg_lang args)
                    max_results (arg_workers args) verbose json
                    (arg_no_packagesets args))
            arrival)
  = snd (main fs args arrival).
Proof.
  unfold main. cbn [arg_package_name arg_root arg_lang arg_max_results
                    arg_workers arg_verbose arg_json arg_no_packagesets].
  destruct (negb (exists_ fs (arg_root args))); [reflexivity|].
  destruct (negb (isdir fs (arg_root args))); [reflexivity|].
  destruct (find_package _ _ _ _ _ _ _ _) as [r|e] eqn:Hrun; [|reflexivity].
  assert (Hfmt : forall k, exists text,
               format_results r (arg_root args) k = Ok text).
  { intros k. apply format_results_ok. intros m Hm.
    eapply find_package_clean; eassumption. }
  destruct (Hfmt max_results) as (t1 & ->).
  destruct (Hfmt (arg_max_results args)) as (t2 & ->).
  destruct json, (arg_json args); reflexivity.
Qed.

End ReportFacts.

(** ** file_finder *)

Module FnmatchFacts.
Import Fnmatch PackagesetFacts CollectFacts.

Lemma translate_items_plain : forall l fuel,
  List.length l <= fuel ->
  forallb (fun c => negb (special c)) l = true ->
  translate_items fuel l = map Chr l.
Proof.
  induction l as [|c l IH]; intros fuel Hf Hp.
  - destruct fuel; reflexivity.
  - destruct fuel as [|fuel]; [cbn in Hf; lia|].
    cbn [forallb] in Hp. apply andb_true_iff in Hp. destruct Hp as [Hc Hp].
    apply negb_true_iff in Hc. unfold special in Hc.
    apply orb_false_iff in Hc. destruct Hc as [Hc H3].
    apply orb_false_iff in Hc. destruct Hc as [H1 H2].
    cbn [translate_items map]. unfold is_char. rewrite H1, H2, H3.
    rewrite IH; [reflexivity|cbn in Hf; lia|exact Hp].
Qed.

Lemma length_list_ascii s :
  List.length (list_ascii_of_string s) = String.length s.
Proof. induction s as [|c s IH]; cbn; [reflexivity|]. rewrite IH. reflexivity. Qed.

Lemma translate_plain s :
  plain s = true -> translate s = map Chr (list_ascii_of_string s).
Proof.
  intros H. unfold translate. apply translate_items_plain.
  - rewrite length_list_ascii. lia.
  - exact H.
Qed.

Lemma full_match_chars : forall s name,
  full_match (map Chr (list_ascii_of_string s)) name = String.eqb name s.
Proof.
  induction s as [|c s IH]; intros [|d name]; cbn [list_ascii_of_string map full_match
    String.eqb item_accepts]; try reflexivity.
  rewrite IH, Ascii.eqb_sym. reflexivity.
Qed.

(** A pattern without [*], [?] and [[] full_match itself only. *)
Lemma fnmatch_plain name pat :
  plain pat = true -> fnmatch name pat = String.eqb name pat.
Proof.
  intros H. unfold fnmatch, fnmatchcase. rewrite translate_plain by exact H.
  apply full_match_chars.
Qed.

Lemma translate_star s : translate (String "*" s) = Star :: translate s.
Proof. reflexivity. Qed.

Lemma full_match_star its : forall name,
  full_match (Star :: its) name = true
  <-> exists pre suf, name = pre +++ suf /\ full_match its suf = true.
Proof.
  cbn [full_match]. induction name as [|c name IH].
  - rewrite orb_false_r. split.
    + intros H. exists EmptyString, EmptyString. auto.
    + intros (pre & suf & E & H). destruct pre; [|discriminate E].
      cbn in E. subst suf. exact H.
  - rewrite orb_true_iff, IH. split.
    + intros [H|(pre & suf & -> & H)].
      * exists EmptyString, (String c name). auto.
      * exists (String c pre), suf. auto.
    + intros (pre & suf & E & H). destruct pre as [|d pre].
      * cbn in E. subst suf. left. exact H.
      * cbn in E. injection E as -> ->. right. exists pre, suf. auto.
Qed.

Lemma substring_split : forall n s,
  n <= String.length s ->
  s = substring 0 n s +++ substring n (String.length s - n) s.
Proof.
  induction n as [|n IH]; intros s H.
  - rewrite Nat.sub_0_r, substring_all. destruct s; reflexivity.
  - destruct s as [|c s]; [cbn in H; lia|].
    cbn [substring String.append String.length Nat.sub]. f_equal.
    apply IH. cbn in H. lia.
Qed.

Lemma endswith_iff s t :
  Text.endswith s t = true <-> exists pre, s = pre +++ t.
Proof.
  split.
  - unfold Text.endswith. intros H. apply andb_true_iff in H.
    destruct H as [Hl He]. apply Nat.leb_le in Hl. apply String.eqb_eq in He.
    exists (substring 0 (String.length s - String.length t) s).
    rewrite (substring_split (String.length s - String.length t) s) at 1 by lia.
    f_equal.
    replace (String.length s - (String.length s - String.length t))
      with (String.length t) by lia.
    exact He.
  - intros (pre & ->). apply endswith_append.
Qed.

(** [*] followed by a plain text full_match the names that end with it. *)
Lemma fnmatch_star_suffix name lit :
  plain lit = true ->
  fnmatch name (String "*" lit) = Text.endswith name lit.
Proof.
  intros H. unfold fnmatch, fnmatchcase. rewrite translate_star.
  rewrite translate_plain by exact H.
  apply eq_true_iff_eq. rewrite full_match_star, endswith_iff. split.
  - intros (pre & suf & -> & Hm). rewrite full_match_chars in Hm.
    apply String.eqb_eq in Hm. subst. exists pre. reflexivity.
  - intros (pre & ->). exists pre, lit. split; [reflexivity|].
    rewrite full_match_chars. apply String.eqb_refl.
Qed.

Lemma fnmatch_star name : fnmatch name "*" = true.
Proof.
  rewrite fnmatch_star_suffix by reflexivity.
  apply endswith_iff. exists name.
  induction name as [|c name IH]; cbn; [reflexivity|]. rewrite <- IH. reflexivity.
Qed.

Lemma special_lower c : special (Text.lower_char c) = special c.
Proof. destruct c as [[] [] [] [] [] [] [] []]; reflexivity. Qed.

Lemma plain_lower s : plain (Text.lower s) = plain s.
Proof.
  unfold plain. induction s as [|c s IH]; [reflexivity|].
  cbn [Text.lower list_ascii_of_string forallb].
  rewrite special_lower, IH. reflexivity.
Qed.

End FnmatchFacts.

Module FinderFacts.
Import WalkFacts SearchFacts OrderFacts DefinitionFacts PackagesetFacts
       MainFacts CollectFacts FnmatchFacts FileFinder.

Lemma os_walk_listed_Dir keep top es :
  os_walk_listed keep top (Dir es)
  = (top, dirnames_of es, filenames_of es)
    :: flat_map (fun e => if keep (fst e)
                          then os_walk_listed keep (path_join top (fst e)) (snd e)
                          else [])
                es.
Proof.
  cbn [os_walk_listed]. f_equal.
  induction es as [|[name child] es IH]; [reflexivity|].
  cbn [flat_map fst snd]. rewrite IH. reflexivity.
Qed.

(** The walk reaches a directory through kept names only. *)
Lemma os_walk_listed_kept keep n : forall top t,
  In t (os_walk_listed keep top n) ->
  exists rel, fst (fst t) = top ++ rel
              /\ Forall (fun d => keep d = true) rel.
Proof.
  induction n as [c| |es IH] using node_ind'; intros top t H;
    try (cbn in H; contradiction).
  rewrite os_walk_listed_Dir in H. destruct H as [<-|H].
  - exists []. cbn [fst]. rewrite app_nil_r. split; [reflexivity|constructor].
  - apply in_flat_map in H. destruct H as ([name child] & Hin & H).
    cbn [fst snd] in H. destruct (keep name) eqn:K; [|contradiction].
    rewrite Forall_forall in IH. specialize (IH _ Hin). cbn [snd] in IH.
    destruct (IH _ _ H) as (rel & E & Hrel).
    exists (name :: rel). unfold path_join in E. rewrite <- app_assoc in E.
    split; [exact E|]. constructor; assumption.
Qed.

Lemma visited_unskipped fs root dirpath dirnames filenames :
  In (dirpath, dirnames, filenames) (visited fs root) ->
  exists rel, dirpath = root ++ rel /\ unskipped rel.
Proof.
  unfold visited. destruct (lookup fs root) as [n|]; [|intros []].
  intros H. apply os_walk_listed_kept in H. cbn [fst] in H.
  destruct H as (rel & E & Hrel). exists rel. split; [exact E|].
  unfold unskipped. eapply Forall_impl; [|exact Hrel].
  intros d Hd. apply negb_true_iff in Hd. exact Hd.
Qed.

Lemma insert_path_perm x l : Permutation (insert_path x l) (x :: l).
Proof.
  induction l as [|y l IH]; [reflexivity|].
  cbn [insert_path]. destruct (path_le x y); [reflexivity|].
  rewrite IH. apply perm_swap.
Qed.

Lemma sorted_perm l : Permutation (sorted l) l.
Proof.
  induction l as [|x l IH]; [reflexivity|].
  cbn [sorted]. rewrite insert_path_perm. constructor. exact IH.
Qed.

Lemma in_sorted p l : In p (sorted l) <-> In p l.
Proof.
  split; apply Permutation_in; [apply sorted_perm|symmetry; apply sorted_perm].
Qed.

Lemma path_le_total a b : path_le a b = false -> path_le b a = true.
Proof.
  unfold path_le. rewrite (path_compare_antisym a b).
  destruct (path_compare a b); cbn [CompOpp]; congruence.
Qed.

Lemma path_le_trans a b c :
  path_le a b = true -> path_le b c = true -> path_le a c = true.
Proof.
  unfold path_le.
  destruct (path_compare a b) eqn:Eab; try discriminate;
    destruct (path_compare b c) eqn:Ebc; try discriminate; intros _ _.
  - apply path_compare_eq in Eab, Ebc. subst. rewrite path_compare_refl.
    reflexivity.
  - apply path_compare_eq in Eab. subst. rewrite Ebc. reflexivity.
  - apply path_compare_eq in Ebc. subst. rewrite Eab. reflexivity.
  - rewrite (path_compare_trans _ _ _ Eab Ebc). reflexivity.
Qed.

Lemma insert_path_sorted x l :
  StronglySorted path_ord l -> StronglySorted path_ord (insert_path x l).
Proof.
  induction 1 as [|y l Hl IH Hy]; cbn [insert_path].
  - repeat constructor.
  - destruct (path_le x y) eqn:E.
    + constructor; [constructor; assumption|].
      constructor; [exact E|].
      eapply Forall_impl; [|exact Hy]. intros z Hz.
      eapply path_le_trans; eassumption.
    + constructor; [exact IH|].
      apply Forall_forall. intros z Hz.
      apply (Permutation_in _ (insert_path_perm x l)) in Hz.
      destruct Hz as [<-|Hz].
      * apply path_le_total. exact E.
      * rewrite Forall_forall in Hy. apply Hy. exact Hz.
Qed.

Lemma sorted_sorted l : StronglySorted path_ord (sorted l).
Proof.
  induction l as [|x l IH]; [constructor|].
  cbn [sorted]. apply insert_path_sorted. exact IH.
Qed.

(** Two sorted lists of paths with the same elements are the same list. *)
Lemma sorted_paths_unique : forall l1 l2,
  StronglySorted path_ord l1 -> StronglySorted path_ord l2 ->
  Permutation l1 l2 -> l1 = l2.
Proof.
  induction l1 as [|x l1 IH]; intros l2 S1 S2 HP.
  - apply Permutation_nil in HP. congruence.
  - destruct l2 as [|y l2];
      [apply Permutation_sym, Permutation_nil in HP; discriminate|].
    inversion S1 as [|? ? S1' F1]; subst.
    inversion S2 as [|? ? S2' F2]; subst.
    assert (x = y) as <-.
    { assert (Hx : In x (y :: l2))
        by (eapply Permutation_in; [exact HP|left; reflexivity]).
      assert (Hy : In y (x :: l1))
        by (eapply Permutation_in;
            [apply Permutation_sym; exact HP|left; reflexivity]).
      destruct Hx as [->|Hx]; [reflexivity|].
      destruct Hy as [->|Hy]; [reflexivity|].
      rewrite Forall_forall in F1, F2.
      specialize (F1 _ Hy). specialize (F2 _ Hx).
      unfold path_ord, path_le in F1, F2.
      rewrite (path_compare_antisym x y) in F2.
      destruct (path_compare x y) eqn:E; cbn [CompOpp] in F2;
        try discriminate.
      apply path_compare_eq. exact E. }
    f_equal. apply IH; try assumption.
    eapply Permutation_cons_inv. exact HP.
Qed.

Lemma sorted_of_perm l1 l2 : Permutation l1 l2 -> sorted l1 = sorted l2.
Proof.
  intros H. apply sorted_paths_unique; try apply sorted_sorted.
  rewrite !sorted_perm. exact H.
Qed.

Lemma find_files_eq fs root f cs pm t :
  find_files fs root f cs pm t
  = sorted (flat_map (visit (cased cs f) cs pm t) (visited fs root)).
Proof. reflexivity. Qed.

Lemma in_find_files fs root f cs pm t p :
  In p (find_files fs root f cs pm t) <->
  exists tr, In tr (visited fs root) /\ In p (visit (cased cs f) cs pm t tr).
Proof. rewrite find_files_eq, in_sorted, in_flat_map. reflexivity. Qed.

Lemma visit_eq search_name cs pm t tr :
  visit search_name cs pm t tr
  = (if Text.mem t ["dirs"; "both"] then dir_hits search_name cs pm tr else [])
    ++ (if Text.mem t ["files"; "both"] then file_hits search_name cs pm tr
        else []).
Proof. destruct tr as [[d dn] fn]. reflexivity. Qed.

Lemma in_dir_hits search_name cs pm tr p :
  In p (dir_hits search_name cs pm tr) <->
  exists name, In name (snd (fst tr))
               /\ Text.mem name skip_dirs = false
               /\ name_matches pm (cased cs name) search_name = true
               /\ p = path_join (fst (fst tr)) name.
Proof.
  unfold dir_hits. rewrite in_flat_map. split.
  - intros (name & Hn & H). exists name. split; [exact Hn|].
    destruct (Text.mem name skip_dirs); [destruct H|].
    destruct (name_matches _ _ _); [|destruct H].
    destruct H as [<-|[]]. auto.
  - intros (name & Hn & Hs & Hm & ->). exists name. split; [exact Hn|].
    rewrite Hs, Hm. left. reflexivity.
Qed.

Lemma in_file_hits search_name cs pm tr p :
  In p (file_hits search_name cs pm tr) <->
  exists name, In name (snd tr)
               /\ name_matches pm (cased cs name) search_name = true
               /\ p = path_join (fst (fst tr)) name.
Proof.
  unfold file_hits. rewrite in_flat_map. split.
  - intros (name & Hn & H). exists name. split; [exact Hn|].
    destruct (name_matches _ _ _); [|destruct H].
    destruct H as [<-|[]]. auto.
  - intros (name & Hn & Hm & ->). exists name. split; [exact Hn|].
    rewrite Hm. left. reflexivity.
Qed.

Lemma flat_map_app_perm {A B} (f g : A -> list B) l :
  Permutation (flat_map (fun x => f x ++ g x) l) (flat_map f l ++ flat_map g l).
Proof.
  induction l as [|x l IH]; [reflexivity|].
  cbn [flat_map]. rewrite IH. rewrite <- !app_assoc.
  apply Permutation_app_head. rewrite !app_assoc.
  apply Permutation_app_tail. apply Permutation_app_comm.
Qed.

(** X15.  [find_files] returns its matches sorted ascending by path,
    component by component; and what it returns for "both" is the sorted
    merge of what it returns for "dirs" and for "files".  Any other value of
    [find_type] is not rejected: it yields no match. *)
Theorem find_files_sorted_merge
        (fs : node) (root : Path) (f : string) (cs pm : bool) :
  (forall t, StronglySorted path_ord (find_files fs root f cs pm t))
  /\ find_files fs root f cs pm "both"
     = sorted (find_files fs root f cs pm "dirs"
               ++ find_files fs root f cs pm "files")
  /\ (forall t, Text.mem t ["files"; "dirs"; "both"] = false ->
                find_files fs root f cs pm t = []).
Proof.
  split; [intros t; apply sorted_sorted|]. split.
  - rewrite !find_files_eq. apply sorted_of_perm.
    rewrite !sorted_perm.
    assert (Eb : flat_map (visit (cased cs f) cs pm "both") (visited fs root)
                 = flat_map (fun tr => dir_hits (cased cs f) cs pm tr
                                       ++ file_hits (cased cs f) cs pm tr)
                            (visited fs root))
      by (apply flat_map_ext; intros tr; rewrite visit_eq; reflexivity).
    assert (Ed : flat_map (visit (cased cs f) cs pm "dirs") (visited fs root)
                 = flat_map (dir_hits (cased cs f) cs pm) (visited fs root))
      by (apply flat_map_ext; intros tr; rewrite visit_eq; apply app_nil_r).
    assert (Ef : flat_map (visit (cased cs f) cs pm "files") (visited fs root)
                 = flat_map (file_hits (cased cs f) cs pm) (visited fs root))
      by (apply flat_map_ext; intros tr; rewrite visit_eq; reflexivity).
    rewrite Eb, Ed, Ef. apply flat_map_app_perm.
  - intros t Ht. rewrite find_files_eq.
    replace (flat_map (visit (cased cs f) cs pm t) (visited fs root))
      with (@nil Path); [reflexivity|].
    symmetry. apply ReportFacts.flat_map_nil. intros tr _. rewrite visit_eq.
    unfold Text.mem in *. cbn [existsb] in *.
    rewrite !orb_false_iff in Ht. destruct Ht as (H1 & H2 & H3 & _).
    rewrite H1, H2, H3. reflexivity.
Qed.

Lemma in_visit search_name cs pm t tr p :
  In p (visit search_name cs pm t tr) <->
  (Text.mem t ["dirs"; "both"] = true /\ In p (dir_hits search_name cs pm tr))
  \/ (Text.mem t ["files"; "both"] = true
      /\ In p (file_hits search_name cs pm tr)).
Proof.
  rewrite visit_eq, in_app_iff.
  destruct (Text.mem t ["dirs"; "both"]), (Text.mem t ["files"; "both"]);
    cbn [In]; intuition congruence.
Qed.

(** The entries of the visited directories that pass the test [ok], by the
    kind asked for. *)
Lemma in_find_files_names fs root f cs pm t p :
  In p (find_files fs root f cs pm t) <->
  exists d dn fn name,
    In (d, dn, fn) (visited fs root)
    /\ p = path_join d name
    /\ name_matches pm (cased cs name) (cased cs f) = true
    /\ ((Text.mem t ["dirs"; "both"] = true /\ In name dn
         /\ Text.mem name skip_dirs = false)
        \/ (Text.mem t ["files"; "both"] = true /\ In name fn)).
Proof.
  rewrite in_find_files. split.
  - intros ([[d dn] fn] & Hv & H). apply in_visit in H.
    destruct H as [[Ht H]|[Ht H]].
    + apply in_dir_hits in H. cbn [fst snd] in H.
      destruct H as (name & Hn & Hs & Hm & ->).
      exists d, dn, fn, name. auto 10.
    + apply in_file_hits in H. cbn [fst snd] in H.
      destruct H as (name & Hn & Hm & ->).
      exists d, dn, fn, name. auto 10.
  - intros (d & dn & fn & name & Hv & -> & Hm & H).
    exists (d, dn, fn). split; [exact Hv|]. apply in_visit.
    destruct H as [(Ht & Hn & Hs)|(Ht & Hn)]; [left|right];
      (split; [exact Ht|]).
    + apply in_dir_hits. exists name. cbn [fst snd]. auto.
    + apply in_file_hits. exists name. cbn [fst snd]. auto.
Qed.

Lemma path_name_join d name : path_name (path_join d name) = name.
Proof. unfold path_name, path_join. apply last_last. Qed.

(** X17.  A search that ignores case finds exactly what the searches that
    mind case find for all the spellings of the name: a path is returned
    for [filename] when it is returned, minding case, for some name equal
    to [filename] once both are in lower case. *)
Theorem case_insensitive_search_covers_spellings
        (fs : node) (root : Path) (f t : string) (p : Path) :
  In p (find_files fs root f false false t)
  <-> exists f', Text.lower f' = Text.lower f
                 /\ In p (find_files fs root f' true false t).
Proof.
  split.
  - intros H. apply in_find_files_names in H.
    destruct H as (d & dn & fn & name & Hv & -> & Hm & H).
    cbn [name_matches cased] in Hm. apply String.eqb_eq in Hm.
    exists name. split; [exact Hm|]. apply in_find_files_names.
    exists d, dn, fn, name. split; [exact Hv|]. split; [reflexivity|].
    split; [apply String.eqb_refl|exact H].
  - intros (f' & Hf & H). apply in_find_files_names in H.
    destruct H as (d & dn & fn & name & Hv & -> & Hm & H).
    cbn [name_matches cased] in Hm. apply String.eqb_eq in Hm. subst f'.
    apply in_find_files_names.
    exists d, dn, fn, name. split; [exact Hv|]. split; [reflexivity|].
    split; [|exact H]. cbn [name_matches cased]. rewrite Hf.
    apply String.eqb_refl.
Qed.

Lemma cased_plain cs f : plain (cased cs f) = plain f.
Proof. destruct cs; [reflexivity|apply plain_lower]. Qed.

(** X18.  A name without [*], [?] and [[] is its own pattern: searching
    for it as a pattern returns what searching for it as a name returns. *)
Theorem plain_pattern_is_exact_search
        (fs : node) (root : Path) (f : string) (cs : bool) (t : string) :
  plain f = true ->
  find_files fs root f cs true t = find_files fs root f cs false t.
Proof.
  intros Hp. rewrite !find_files_eq. f_equal. apply flat_map_ext.
  intros [[d dn] fn].
  assert (E : forall name,
             name_matches true (cased cs name) (cased cs f)
             = name_matches false (cased cs name) (cased cs f)).
  { intros name. cbn [name_matches]. apply fnmatch_plain.
    rewrite cased_plain. exact Hp. }
  unfold visit. f_equal.
  - destruct (Text.mem t ["dirs"; "both"]); [|reflexivity].
    apply flat_map_ext. intros name. rewrite E. reflexivity.
  - destruct (Text.mem t ["files"; "both"]); [|reflexivity].
    apply flat_map_ext. intros name. rewrite E. reflexivity.
Qed.

Lemma cased_star cs ext : cased cs (String "*" ext) = String "*" (cased cs ext).
Proof. destruct cs; reflexivity. Qed.

(** X19.  The pattern [*] followed by a text without [*], [?] and [[]
    finds the entries whose name ends with that text (in lower case on
    both sides unless case is minded): they are the entries the pattern
    [*] finds, which are all those of the kind asked for, with such a
    name. *)
Theorem star_pattern_finds_by_ending
        (fs : node) (root : Path) (ext : string) (cs : bool) (t : string)
        (p : Path) :
  plain ext = true ->
  (In p (find_files fs root (String "*" ext) cs true t)
   <-> In p (find_files fs root "*" cs true t)
       /\ Text.endswith (cased cs (path_name p)) (cased cs ext) = true).
Proof.
  intros Hp. rewrite !in_find_files_names. split.
  - intros (d & dn & fn & name & Hv & -> & Hm & H).
    rewrite path_name_join. cbn [name_matches] in Hm.
    rewrite cased_star, fnmatch_star_suffix in Hm
      by (rewrite cased_plain; exact Hp).
    split; [|exact Hm].
    exists d, dn, fn, name. split; [exact Hv|]. split; [reflexivity|].
    split; [|exact H]. cbn [name_matches]. rewrite cased_star.
    destruct cs; apply fnmatch_star.
  - intros [(d & dn & fn & name & Hv & -> & _ & H) He].
    rewrite path_name_join in He.
    exists d, dn, fn, name. split; [exact Hv|]. split; [reflexivity|].
    split; [|exact H]. cbn [name_matches].
    rewrite cased_star, fnmatch_star_suffix
      by (rewrite cased_plain; exact Hp).
    exact He.
Qed.

Lemma isdir_exists fs p : isdir fs p = true -> exists_ fs p = true.
Proof. unfold isdir, exists_. destruct (lookup fs p); congruence. Qed.

(** X21.  Unless absolute paths are asked for, every match is printed as
    its path relative to the root, a "/"-separated text that is never empty
    and never ".", followed by "/" when the match is a directory: the
    [relative_to] of the command cannot raise, so absolute paths are never
    printed in its place. *)
Theorem matches_are_printed_relative
        (fs : node) (args : FinderArgs) (p : Path) :
  farg_absolute args = false ->
  In p (find_files fs (farg_root args) (farg_filename args) (farg_case_sensitive args)
                   (farg_pattern args)
                   (if farg_files_only args then "files"
                    else if farg_dirs_only args then "dirs" else "both")) ->
  exists rel name,
    p = farg_root args ++ rel ++ [name]
    /\ relative_to p (farg_root args) = Some (rel ++ [name])
    /\ match_line fs args p
       = Text.join "/" (rel ++ [name])
         +++ (if isdir fs p then "/" else EmptyString).
Proof.
  intros Ha H. apply in_find_files_names in H.
  destruct H as (d & dn & fn & name & Hv & -> & _ & _).
  apply visited_unskipped in Hv. destruct Hv as (rel & -> & _).
  exists rel, name. unfold path_join. rewrite <- app_assoc.
  split; [reflexivity|].
  assert (E : relative_to (farg_root args ++ rel ++ [name]) (farg_root args)
              = Some (rel ++ [name])) by apply relative_to_app.
  split; [exact E|]. unfold match_line. rewrite Ha, E. unfold str_rel.
  destruct (rel ++ [name]) eqn:El; [|reflexivity].
  destruct rel; discriminate El.
Qed.

Lemma well_formed_cons name child es :
  well_formed (Dir ((name, child) :: es))
  = negb (Text.mem name (map fst es)) && well_formed child
    && well_formed (Dir es).
Proof. reflexivity. Qed.

Lemma well_formed_Dir es :
  well_formed (Dir es) = true ->
  NoDup (map fst es) /\ Forall (fun e => well_formed (snd e) = true) es.
Proof.
  induction es as [|[name child] es IH]; intros H.
  - split; constructor.
  - rewrite well_formed_cons in H. apply andb_true_iff in H.
    destruct H as [H H3]. apply andb_true_iff in H. destruct H as [H1 H2].
    destruct (IH H3) as [Hn Hf]. split.
    + cbn [map fst]. constructor; [|exact Hn].
      apply negb_true_iff in H1. apply mem_not_In. exact H1.
    + constructor; [exact H2|exact Hf].
Qed.

Lemma entry_In name child es :
  NoDup (map fst es) -> In (name, child) es -> entry name es = Some child.
Proof.
  induction es as [|[n c] es IH]; intros Hn Hin; [destruct Hin|].
  cbn [map fst] in Hn. inversion Hn as [|? ? Hnot Hn']; subst.
  cbn [entry]. destruct Hin as [E|Hin].
  - injection E as -> ->. rewrite String.eqb_refl. reflexivity.
  - destruct (String.eqb n name) eqn:E.
    + apply String.eqb_eq in E. subst n. exfalso. apply Hnot.
      apply in_map_iff. exists (name, child). auto.
    + apply IH; assumption.
Qed.

Lemma entry_Some_In name child es :
  entry name es = Some child -> In (name, child) es.
Proof.
  induction es as [|[n c] es IH]; cbn [entry]; [discriminate|].
  destruct (String.eqb n name) eqn:E.
  - apply String.eqb_eq in E. intros H. injection H as ->. subst. left.
    reflexivity.
  - intros H. right. apply IH. exact H.
Qed.

Lemma lookup_app : forall p fs q,
  lookup fs (p ++ q)
  = match lookup fs p with
    | Some n => lookup n q
    | None => None
    end.
Proof.
  induction p as [|name p IH]; intros fs q; [reflexivity|].
  cbn [app lookup]. destruct fs as [c|es|]; try reflexivity.
  destruct (entry name es); [apply IH|reflexivity].
Qed.

Lemma well_formed_lookup : forall p fs n,
  well_formed fs = true -> lookup fs p = Some n -> well_formed n = true.
Proof.
  induction p as [|name p IH]; intros fs n Hw H.
  - cbn in H. injection H as <-. exact Hw.
  - cbn [lookup] in H. destruct fs as [c|es|]; try discriminate.
    destruct (entry name es) as [child|] eqn:E; [|discriminate].
    apply entry_Some_In in E. apply well_formed_Dir in Hw.
    destruct Hw as [_ Hf]. rewrite Forall_forall in Hf.
    apply (IH child n); [apply (Hf _ E)|exact H].
Qed.

(** Each directory of the walk is a directory of the tree, listed as the
    tree has it. *)
Lemma os_walk_listed_lookup keep n : forall top t,
  well_formed n = true ->
  In t (os_walk_listed keep top n) ->
  exists rel es,
    fst (fst t) = top ++ rel
    /\ lookup n rel = Some (Dir es)
    /\ snd (fst t) = dirnames_of es
    /\ snd t = filenames_of es.
Proof.
  induction n as [c| |es IH] using node_ind'; intros top t Hw H;
    try (cbn in H; contradiction).
  rewrite os_walk_listed_Dir in H. destruct H as [<-|H].
  - exists [], es. cbn [fst snd lookup]. rewrite app_nil_r. auto.
  - apply in_flat_map in H. destruct H as ([name child] & Hin & H).
    cbn [fst snd] in H. destruct (keep name); [|contradiction].
    destruct (well_formed_Dir es Hw) as [Hn Hf].
    rewrite Forall_forall in IH, Hf.
    destruct (IH _ Hin _ _ (Hf _ Hin) H) as (rel & es' & E & Hl & H1 & H2).
    exists (name :: rel), es'. unfold path_join in E.
    rewrite <- app_assoc in E. split; [exact E|].
    cbn [lookup]. rewrite (entry_In name child es Hn Hin). auto.
Qed.

Lemma visited_lookup fs root d dn fn :
  well_formed fs = true ->
  In (d, dn, fn) (visited fs root) ->
  exists es, lookup fs d = Some (Dir es)
             /\ well_formed (Dir es) = true
             /\ dn = dirnames_of es /\ fn = filenames_of es.
Proof.
  intros Hw H. unfold visited in H.
  destruct (lookup fs root) as [n|] eqn:Hr; [|destruct H].
  apply os_walk_listed_lookup in H;
    [|eapply well_formed_lookup; eassumption].
  cbn [fst snd] in H. destruct H as (rel & es & -> & Hl & -> & ->).
  exists es. rewrite lookup_app, Hr. split; [exact Hl|].
  split; [|auto]. eapply (well_formed_lookup rel n); [|exact Hl].
  eapply well_formed_lookup; eassumption.
Qed.

Lemma in_names_of (P : node -> bool) (es : list (string * node)) name :
  In name (map fst (filter (fun e => P (snd e)) es)) ->
  exists child, In (name, child) es /\ P child = true.
Proof.
  intros H. apply in_map_iff in H. destruct H as ([n c] & <- & H).
  apply filter_In in H. cbn [fst snd] in *. exists c. exact H.
Qed.

Lemma lookup_child fs d es name child :
  lookup fs d = Some (Dir es) -> well_formed (Dir es) = true ->
  In (name, child) es ->
  lookup fs (path_join d name) = Some child.
Proof.
  intros Hl Hw Hin. unfold path_join. rewrite lookup_app, Hl.
  cbn [lookup]. apply well_formed_Dir in Hw. destruct Hw as [Hn _].
  rewrite (entry_In name child es Hn Hin). reflexivity.
Qed.

(** X22.  In a tree whose directories list every name once, a search for
    "files" returns only paths of files, a search for "dirs" only paths of
    directories, and every path returned exists; so the "/" the command
    appends marks exactly the directories among the matches. *)
Theorem find_type_selects_the_kind
        (fs : node) (root : Path) (f : string) (cs pm : bool) (t : string)
        (p : Path) :
  well_formed fs = true ->
  In p (find_files fs root f cs pm t) ->
  exists_ fs p = true
  /\ (t = "files" -> isdir fs p = false)
  /\ (t = "dirs" -> isdir fs p = true).
Proof.
  intros Hw H. apply in_find_files_names in H.
  destruct H as (d & dn & fn & name & Hv & -> & _ & H).
  destruct (visited_lookup fs root d dn fn Hw Hv) as (es & Hl & Hwd & -> & ->).
  destruct H as [(Ht & Hn & _)|(Ht & Hn)].
  - apply (in_names_of is_dir) in Hn. destruct Hn as (child & Hin & Hk).
    pose proof (lookup_child fs d es name child Hl Hwd Hin) as E.
    unfold exists_, isdir. rewrite E. split; [reflexivity|].
    split; [intros ->; discriminate Ht|intros _; exact Hk].
  - apply (in_names_of (fun n => negb (is_dir n))) in Hn.
    destruct Hn as (child & Hin & Hk). apply negb_true_iff in Hk.
    pose proof (lookup_child fs d es name child Hl Hwd Hin) as E.
    unfold exists_, isdir. rewrite E. split; [reflexivity|].
    split; [intros _; exact Hk|intros ->; discriminate Ht].
Qed.

(** X16.  Every path [find_files] returns lies below the root, and none of
    the directories on the way to it is one of [skip_dirs].  A directory
    reported as a match is not one of them either, whatever kind is asked
    for: in a tree whose directories list every name once, a returned path
    that leads to a directory ends in a name outside [skip_dirs].  A file
    may carry such a name and still be reported. *)
Theorem skipped_directories_are_never_searched
        (fs : node) (root : Path) (f : string) (cs pm : bool) (t : string)
        (p : Path) :
  In p (find_files fs root f cs pm t) ->
  exists rel name,
    p = root ++ rel ++ [name]
    /\ unskipped rel
    /\ (t = "dirs" -> Text.mem name skip_dirs = false)
    /\ (well_formed fs = true -> isdir fs p = true ->
        Text.mem name skip_dirs = false).
Proof.
  intros H. apply in_find_files_names in H.
  destruct H as (d & dn & fn & name & Hv & -> & _ & H).
  destruct (visited_unskipped _ _ _ _ _ Hv) as (rel & E & Hrel).
  exists rel, name. split.
  { rewrite E. unfold path_join. rewrite <- app_assoc. reflexivity. }
  split; [exact Hrel|].
  destruct H as [(Ht & Hn & Hs)|(Ht & Hn)].
  - split; intros; exact Hs.
  - split; [intros ->; discriminate Ht|].
    intros Hw Hd.
    destruct (visited_lookup fs root d dn fn Hw Hv)
      as (es & Hl & Hwd & -> & ->).
    apply (in_names_of (fun n => negb (is_dir n))) in Hn.
    destruct Hn as (child & Hin & Hk).
    pose proof (lookup_child fs d es name child Hl Hwd Hin) as Ec.
    unfold isdir in Hd. rewrite Ec in Hd. rewrite Hd in Hk.
    discriminate Hk.
Qed.

End FinderFacts.

(** ** The walks against the tree *)

Module TreeFacts.
Import WalkFacts SearchFacts DefinitionFacts CollectFacts FinderFacts.

(** The walk of the search reaches every directory of the tree that lies
    behind kept names. *)
Lemma os_walk_complete keep : forall rel n top es,
  lookup n rel = Some (Dir es) ->
  Forall (fun d => keep d = true) rel ->
  In (top ++ rel, filter keep (dirnames_of es), filenames_of es)
     (os_walk keep top n).
Proof.
  induction rel as [|name rel IH]; intros n top es Hl Hk.
  - cbn in Hl. injection Hl as ->. rewrite app_nil_r, os_walk_Dir. left.
    reflexivity.
  - cbn [lookup] in Hl. destruct n as [c|es0|]; try discriminate.
    destruct (entry name es0) as [child|] eqn:E; [|discriminate].
    inversion Hk as [|? ? Hname Hrel]; subst.
    rewrite os_walk_Dir. right. apply in_flat_map.
    exists (name, child). split; [apply entry_Some_In; exact E|].
    cbn [fst snd]. rewrite Hname.
    replace (top ++ name :: rel) with (path_join top name ++ rel)
      by (unfold path_join; rewrite <- app_assoc; reflexivity).
    apply IH; assumption.
Qed.

(** In a tree that lists every name once, what the walk hands over is a
    directory of the tree, reached through kept names. *)
Lemma os_walk_lookup keep n : forall top t,
  well_formed n = true ->
  In t (os_walk keep top n) ->
  exists rel es,
    fst (fst t) = top ++ rel
    /\ Forall (fun d => keep d = true) rel
    /\ lookup n rel = Some (Dir es)
    /\ snd t = filenames_of es.
Proof.
  induction n as [c| |es IH] using node_ind'; intros top t Hw H;
    try (cbn in H; contradiction).
  rewrite os_walk_Dir in H. destruct H as [<-|H].
  - exists [], es. cbn [fst snd lookup]. rewrite app_nil_r. auto.
  - apply in_flat_map in H. destruct H as ([name child] & Hin & H).
    cbn [fst snd] in H. destruct (keep name) eqn:K; [|contradiction].
    destruct (well_formed_Dir es Hw) as [Hn Hf].
    rewrite Forall_forall in IH, Hf.
    destruct (IH _ Hin _ _ (Hf _ Hin) H) as (rel & es' & E & Hk & Hl & H2).
    exists (name :: rel), es'. unfold path_join in E.
    rewrite <- app_assoc in E. split; [exact E|].
    split; [constructor; assumption|].
    cbn [lookup]. rewrite (entry_In name child es Hn Hin). auto.
Qed.

Lemma is_file n : is_dir n = false <-> exists c, n = File c.
Proof.
  destruct n as [c|es|]; cbn; split; try discriminate.
  - intros _. exists c. reflexivity.
  - reflexivity.
  - intros (c & H). discriminate H.
  - intros (c & H). discriminate H.
Qed.

Lemma in_names (P : node -> bool) (es : list (string * node)) name child :
  In (name, child) es -> P child = true ->
  In name (map fst (filter (fun e => P (snd e)) es)).
Proof.
  intros Hin HP. apply in_map_iff. exists (name, child).
  split; [reflexivity|]. apply filter_In. auto.
Qed.

(** A path with a last component leads somewhere exactly when what comes
    before leads to a directory listing that component. *)
Lemma lookup_last fs d name n :
  lookup fs (d ++ [name]) = Some n
  <-> exists es, lookup fs d = Some (Dir es) /\ entry name es = Some n.
Proof.
  rewrite lookup_app. split.
  - destruct (lookup fs d) as [[c|es|]|]; cbn [lookup]; try discriminate.
    destruct (entry name es) as [child|] eqn:E; [|discriminate].
    intros H. injection H as <-. exists es. auto.
  - intros (es & -> & E). cbn [lookup]. rewrite E. reflexivity.
Qed.

Lemma keep_dir_iff rel :
  Forall (fun d => keep_dir d = true) rel <-> clean rel.
Proof.
  unfold clean, keep_dir. split; apply Forall_impl; intros d H.
  - apply negb_true_iff. exact H.
  - apply negb_true_iff in H. exact H.
Qed.

(** X26.  In a tree whose directories list each name once,
    [iter_source_files] yields exactly the files of the tree that lie below
    the root behind no denylisted directory and that carry an extension of
    the profile, or, when config files are asked for, one of its config
    file names: none of these files is missed, and nothing else is
    yielded. *)
Theorem iter_source_files_is_exact
        (fs : node) (root : Path) (L : string) (ic : bool) (p : Path) :
  well_formed fs = true ->
  (In p (iter_source_files fs root L ic)
   <-> exists rel name content,
         p = root ++ rel ++ [name]
         /\ clean rel
         /\ lookup fs p = Some (File content)
         /\ (Text.mem (suffix name) (fst (profile L)) = true
             \/ (ic = true /\ Text.mem name (snd (profile L)) = true))).
Proof.
  intros Hw. rewrite in_iter_source_files. split.
  - intros (d & dn & fn & name & Hwalk & Hn & -> & H).
    unfold walk in Hwalk. destruct (lookup fs root) as [n0|] eqn:Hr;
      [|destruct Hwalk].
    apply os_walk_lookup in Hwalk; [|eapply well_formed_lookup; eassumption].
    cbn [fst snd] in Hwalk.
    destruct Hwalk as (rel & es & -> & Hk & Hl & ->).
    apply (in_names_of (fun n => negb (is_dir n))) in Hn.
    destruct Hn as (child & Hin & Hc). apply negb_true_iff, is_file in Hc.
    destruct Hc as (c & ->).
    exists rel, name, c. unfold path_join. rewrite <- app_assoc.
    split; [reflexivity|]. split; [apply keep_dir_iff; exact Hk|].
    split; [|exact H].
    rewrite app_assoc. apply lookup_last. exists es. split.
    + rewrite lookup_app, Hr. exact Hl.
    + apply entry_In; [|exact Hin].
      apply well_formed_Dir.
      eapply (well_formed_lookup rel n0); [|exact Hl].
      eapply well_formed_lookup; eassumption.
  - intros (rel & name & c & -> & Hc & Hl & H).
    rewrite app_assoc in Hl. apply lookup_last in Hl.
    destruct Hl as (es & Hl & He). rewrite lookup_app in Hl.
    destruct (lookup fs root) as [n0|] eqn:Hr; [|discriminate].
    exists (root ++ rel), (filter keep_dir (dirnames_of es)), (filenames_of es),
      name.
    split.
    { unfold walk. rewrite Hr. apply os_walk_complete;
        [exact Hl|apply keep_dir_iff; exact Hc]. }
    split.
    { apply (in_names (fun n => negb (is_dir n)) es name (File c));
        [apply entry_Some_In; exact He|reflexivity]. }
    split; [unfold path_join; rewrite <- app_assoc; reflexivity|exact H].
Qed.

Lemma os_walk_listed_complete keep : forall rel n top es,
  lookup n rel = Some (Dir es) ->
  Forall (fun d => keep d = true) rel ->
  In (top ++ rel, dirnames_of es, filenames_of es)
     (FileFinder.os_walk_listed keep top n).
Proof.
  induction rel as [|name rel IH]; intros n top es Hl Hk.
  - cbn in Hl. injection Hl as ->. rewrite app_nil_r, os_walk_listed_Dir.
    left. reflexivity.
  - cbn [lookup] in Hl. destruct n as [c|es0|]; try discriminate.
    destruct (entry name es0) as [child|] eqn:E; [|discriminate].
    inversion Hk as [|? ? Hname Hrel]; subst.
    rewrite os_walk_listed_Dir. right. apply in_flat_map.
    exists (name, child). split; [apply entry_Some_In; exact E|].
    cbn [fst snd]. rewrite Hname.
    replace (top ++ name :: rel) with (path_join top name ++ rel)
      by (unfold path_join; rewrite <- app_assoc; reflexivity).
    apply IH; assumption.
Qed.

Lemma unskipped_iff rel :
  Forall (fun d => negb (Text.mem d FileFinder.skip_dirs) = true) rel
  <-> unskipped rel.
Proof.
  unfold unskipped. split; apply Forall_impl; intros d H.
  - apply negb_true_iff. exact H.
  - apply negb_true_iff in H. exact H.
Qed.

Lemma visited_complete fs root rel es :
  lookup fs (root ++ rel) = Some (Dir es) -> unskipped rel ->
  In (root ++ rel, dirnames_of es, filenames_of es) (visited fs root).
Proof.
  intros Hl Hu. rewrite lookup_app in Hl. unfold visited.
  destruct (lookup fs root) as [n0|]; [|discriminate].
  apply os_walk_listed_complete; [exact Hl|apply unskipped_iff; exact Hu].
Qed.

(** X27.  In a tree whose directories list each name once, [find_files]
    returns exactly the entries of the tree below the root, behind no
    directory of [skip_dirs], whose name passes the test against the name
    searched for, and that are of the kind asked for: a directory not in
    [skip_dirs] for "dirs" and "both", anything that is no directory for
    "files" and "both". *)
Theorem find_files_is_exact
        (fs : node) (root : Path) (f : string) (cs pm : bool) (t : string)
        (p : Path) :
  well_formed fs = true ->
  (In p (FileFinder.find_files fs root f cs pm t)
   <-> exists rel name n,
         p = root ++ rel ++ [name]
         /\ unskipped rel
         /\ lookup fs p = Some n
         /\ FileFinder.name_matches pm (FileFinder.cased cs name)
                                    (FileFinder.cased cs f) = true
         /\ (if is_dir n
             then Text.mem t ["dirs"; "both"] = true
                  /\ Text.mem name FileFinder.skip_dirs = false
             else Text.mem t ["files"; "both"] = true)).
Proof.
  intros Hw. rewrite in_find_files_names. split.
  - intros (d & dn & fn & name & Hv & -> & Hm & H).
    destruct (visited_lookup fs root d dn fn Hw Hv) as (es & Hl & Hwd & -> & ->).
    apply visited_unskipped in Hv. destruct Hv as (rel & -> & Hu).
    destruct H as [(Ht & Hn & Hs)|(Ht & Hn)].
    + apply (in_names_of is_dir) in Hn. destruct Hn as (child & Hin & Hk).
      exists rel, name, child. unfold path_join. rewrite <- app_assoc.
      split; [reflexivity|]. split; [exact Hu|]. split.
      { rewrite app_assoc. apply (lookup_child fs _ es); assumption. }
      split; [exact Hm|]. rewrite Hk. auto.
    + apply (in_names_of (fun n => negb (is_dir n))) in Hn.
      destruct Hn as (child & Hin & Hk). apply negb_true_iff in Hk.
      exists rel, name, child. unfold path_join. rewrite <- app_assoc.
      split; [reflexivity|]. split; [exact Hu|]. split.
      { rewrite app_assoc. apply (lookup_child fs _ es); assumption. }
      split; [exact Hm|]. rewrite Hk. exact Ht.
  - intros (rel & name & n & -> & Hu & Hl & Hm & H).
    rewrite app_assoc in Hl. apply lookup_last in Hl.
    destruct Hl as (es & Hl & He). apply entry_Some_In in He.
    exists (root ++ rel), (dirnames_of es), (filenames_of es), name.
    split; [apply visited_complete; assumption|].
    split; [unfold path_join; rewrite <- app_assoc; reflexivity|].
    split; [exact Hm|].
    destruct (is_dir n) eqn:Hk.
    + left. destruct H as [Ht Hs]. split; [exact Ht|]. split; [|exact Hs].
      apply (in_names is_dir es name n); assumption.
    + right. split; [exact H|].
      apply (in_names (fun n => negb (is_dir n)) es name n);
        [assumption|rewrite Hk; reflexivity].
Qed.

(** A search finds something exactly when the tree holds an entry for it. *)
Lemma find_files_finds fs root f cs pm t :
  well_formed fs = true ->
  (FileFinder.find_files fs root f cs pm t <> []
   <-> exists rel name n,
         unskipped rel
         /\ lookup fs (root ++ rel ++ [name]) = Some n
         /\ FileFinder.name_matches pm (FileFinder.cased cs name)
                                    (FileFinder.cased cs f) = true
         /\ (if is_dir n
             then Text.mem t ["dirs"; "both"] = true
                  /\ Text.mem name FileFinder.skip_dirs = false
             else Text.mem t ["files"; "both"] = true)).
Proof.
  intros Hw. split.
  - intros Hne.
    destruct (FileFinder.find_files fs root f cs pm t) as [|p l] eqn:E;
      [congruence|].
    assert (Hin : In p (FileFinder.find_files fs root f cs pm t))
      by (rewrite E; left; reflexivity).
    apply in_find_files_names in Hin.
    destruct Hin as (d & dn & fn & name & Hv & _ & Hm & H).
    destruct (visited_lookup fs root d dn fn Hw Hv) as (es & Hl & Hwd & -> & ->).
    apply visited_unskipped in Hv. destruct Hv as (rel & -> & Hu).
    assert (Hc : forall child, In (name, child) es ->
                 lookup fs (root ++ rel ++ [name]) = Some child).
    { intros child Hin. rewrite app_assoc.
      apply (lookup_child fs _ es); assumption. }
    destruct H as [(Ht & Hn & Hs)|(Ht & Hn)].
    + apply (in_names_of is_dir) in Hn. destruct Hn as (child & Hin & Hk).
      exists rel, name, child. rewrite Hk. auto.
    + apply (in_names_of (fun n => negb (is_dir n))) in Hn.
      destruct Hn as (child & Hin & Hk). apply negb_true_iff in Hk.
      exists rel, name, child. rewrite Hk. auto.
  - intros (rel & name & n & Hu & Hl & Hm & H) Hnil.
    assert (Hin : In (root ++ rel ++ [name])
                     (FileFinder.find_files fs root f cs pm t)).
    { apply in_find_files_names.
      rewrite app_assoc in Hl. apply lookup_last in Hl.
      destruct Hl as (es & Hl & He). apply entry_Some_In in He.
      exists (root ++ rel), (dirnames_of es), (filenames_of es), name.
      split; [apply visited_complete; assumption|].
      split; [unfold path_join; rewrite <- app_assoc; reflexivity|].
      split; [exact Hm|].
      destruct (is_dir n) eqn:Hk.
      - left. destruct H as [Ht Hs]. split; [exact Ht|]. split; [|exact Hs].
        apply (in_names is_dir es name n); assumption.
      - right. split; [exact H|].
        apply (in_names (fun n => negb (is_dir n)) es name n);
          [assumption|rewrite Hk; reflexivity]. }
    rewrite Hnil in Hin. destruct Hin.
Qed.

(** X20.  In a tree whose directories list each name once, the command
    returns 0 exactly when the root is a directory, [--files-only] and
    [--dirs-only] are not both given, and the tree holds, below the root
    and behind no directory of [skip_dirs], an entry whose name passes the
    test against the name searched for and whose kind the flags admit: a
    directory outside [skip_dirs] unless [--files-only] is given, anything
    else unless [--dirs-only] is given.  In every other case it returns 1
    after a single message. *)
Theorem finder_succeeds_iff_entry_exists
        (fs : node) (args : FileFinder.FinderArgs) :
  well_formed fs = true ->
  (snd (FileFinder.finder_main fs args) = 0%Z
   <-> isdir fs (FileFinder.farg_root args) = true
       /\ (FileFinder.farg_files_only args
           && FileFinder.farg_dirs_only args) = false
       /\ exists rel name n,
            unskipped rel
            /\ lookup fs (FileFinder.farg_root args ++ rel ++ [name]) = Some n
            /\ FileFinder.name_matches
                 (FileFinder.farg_pattern args)
                 (FileFinder.cased (FileFinder.farg_case_sensitive args) name)
                 (FileFinder.cased (FileFinder.farg_case_sensitive args)
                                   (FileFinder.farg_filename args)) = true
            /\ (if is_dir n
                then FileFinder.farg_files_only args = false
                     /\ Text.mem name FileFinder.skip_dirs = false
                else FileFinder.farg_dirs_only args = false))
  /\ (snd (FileFinder.finder_main fs args) <> 0%Z ->
      snd (FileFinder.finder_main fs args) = 1%Z
      /\ List.length (fst (FileFinder.finder_main fs args)) = 1).
Proof.
  intros Hw.
  pose proof (fun t => find_files_finds fs (FileFinder.farg_root args)
                         (FileFinder.farg_filename args)
                         (FileFinder.farg_case_sensitive args)
                         (FileFinder.farg_pattern args) t Hw) as HF.
  unfold FileFinder.finder_main.
  destruct (isdir fs (FileFinder.farg_root args)) eqn:Hd.
  2:{ destruct (exists_ fs (FileFinder.farg_root args)); cbn [negb snd fst];
        (split; [split; [discriminate|intros (H & _); discriminate H]
                |intros _; split; reflexivity]). }
  rewrite (isdir_exists _ _ Hd). cbn [negb].
  destruct (FileFinder.farg_files_only args) eqn:Hf,
           (FileFinder.farg_dirs_only args) eqn:Hdo; cbn [andb].
  - cbn [snd fst].
    split; [split; [discriminate|intros (_ & H & _); discriminate H]
           |intros _; split; reflexivity].
  - specialize (HF "files").
    destruct (FileFinder.find_files fs (FileFinder.farg_root args)
                (FileFinder.farg_filename args)
                (FileFinder.farg_case_sensitive args)
                (FileFinder.farg_pattern args) "files") as [|m ms];
      cbn [snd fst].
    + split; [split; [discriminate|]|intros _; split; reflexivity].
      intros (_ & _ & rel & name & n & Hu & Hl & Hm & Hk). exfalso.
      apply (proj2 HF); [|reflexivity]. exists rel, name, n.
      split; [exact Hu|]. split; [exact Hl|]. split; [exact Hm|].
      destruct (is_dir n); [destruct Hk as [Hk _]; discriminate Hk|reflexivity].
    + split; [split; [intros _|reflexivity]|intros H; exfalso; apply H; reflexivity].
      split; [reflexivity|]. split; [reflexivity|].
      destruct (proj1 HF) as (rel & name & n & Hu & Hl & Hm & Hk);
        [discriminate|].
      exists rel, name, n.
      split; [exact Hu|]. split; [exact Hl|]. split; [exact Hm|].
      destruct (is_dir n); [destruct Hk as [Hk _]; discriminate Hk|reflexivity].
  - specialize (HF "dirs").
    destruct (FileFinder.find_files fs (FileFinder.farg_root args)
                (FileFinder.farg_filename args)
                (FileFinder.farg_case_sensitive args)
                (FileFinder.farg_pattern args) "dirs") as [|m ms];
      cbn [snd fst].
    + split; [split; [discriminate|]|intros _; split; reflexivity].
      intros (_ & _ & rel & name & n & Hu & Hl & Hm & Hk). exfalso.
      apply (proj2 HF); [|reflexivity]. exists rel, name, n.
      split; [exact Hu|]. split; [exact Hl|]. split; [exact Hm|].
      destruct (is_dir n); [split; [reflexivity|apply Hk]|discriminate Hk].
    + split; [split; [intros _|reflexivity]|intros H; exfalso; apply H; reflexivity].
      split; [reflexivity|]. split; [reflexivity|].
      destruct (proj1 HF) as (rel & name & n & Hu & Hl & Hm & Hk);
        [discriminate|].
      exists rel, name, n.
      split; [exact Hu|]. split; [exact Hl|]. split; [exact Hm|].
      destruct (is_dir n); [split; [reflexivity|apply Hk]|discriminate Hk].
  - specialize (HF "both").
    destruct (FileFinder.find_files fs (FileFinder.farg_root args)
                (FileFinder.farg_filename args)
                (FileFinder.farg_case_sensitive args)
                (FileFinder.farg_pattern args) "both") as [|m ms];
      cbn [snd fst].
    + split; [split; [discriminate|]|intros _; split; reflexivity].
      intros (_ & _ & rel & name & n & Hu & Hl & Hm & Hk). exfalso.
      apply (proj2 HF); [|reflexivity]. exists rel, name, n.
      split; [exact Hu|]. split; [exact Hl|]. split; [exact Hm|].
      destruct (is_dir n); [split; [reflexivity|apply Hk]|reflexivity].
    + split; [split; [intros _|reflexivity]|intros H; exfalso; apply H; reflexivity].
      split; [reflexivity|]. split; [reflexivity|].
      destruct (proj1 HF) as (rel & name & n & Hu & Hl & Hm & Hk);
        [discriminate|].
      exists rel, name, n.
      split; [exact Hu|]. split; [exact Hl|]. split; [exact Hm|].
      destruct (is_dir n); [split; [reflexivity|apply Hk]|reflexivity].
Qed.

End TreeFacts.

(** ** The Python definition locator against the tree *)

Module ScopeFacts.
Import WalkFacts SearchFacts DefinitionFacts FinderFacts TreeFacts.

(** The walk of the search reaches every directory of the tree that lies
    behind names off the denylist. *)
Lemma walk_complete fs root rel es :
  lookup fs (root ++ rel) = Some (Dir es) -> clean rel ->
  In (root ++ rel, filter keep_dir (dirnames_of es), filenames_of es)
     (walk fs root).
Proof.
  intros Hl Hc. rewrite lookup_app in Hl. unfold walk.
  destruct (lookup fs root) as [n0|]; [|discriminate].
  apply os_walk_complete; [exact Hl|apply keep_dir_iff; exact Hc].
Qed.

(** In a tree that lists every name once, a directory of the walk is a
    directory of the tree, with its files. *)
Lemma walk_lookup fs root d dn fn :
  well_formed fs = true ->
  In (d, dn, fn) (walk fs root) ->
  exists es, lookup fs d = Some (Dir es) /\ fn = filenames_of es.
Proof.
  intros Hw H. unfold walk in H.
  destruct (lookup fs root) as [n0|] eqn:Hr; [|destruct H].
  apply os_walk_lookup in H; [|eapply well_formed_lookup; eassumption].
  cbn [fst snd] in H. destruct H as (rel & es & -> & _ & Hl & ->).
  exists es. rewrite lookup_app, Hr. auto.
Qed.

Lemma clean_last rel :
  clean rel -> rel <> [] -> should_skip_dir (last rel EmptyString) = false.
Proof.
  intros Hc Hne. unfold clean in Hc. rewrite Forall_forall in Hc.
  apply Hc. destruct (exists_last Hne) as (l & x & ->).
  rewrite last_last. apply in_or_app. right. left. reflexivity.
Qed.

Lemma path_name_app root rel :
  rel <> [] -> path_name (root ++ rel) = last rel EmptyString.
Proof.
  intros Hne. destruct (exists_last Hne) as (l & x & ->).
  unfold path_name. rewrite app_assoc, !last_last. reflexivity.
Qed.

(** C8.  A Python search for definitions returns, and matches by structure
    among the directories its walk visits: the root, whatever its name, and
    every directory of the tree reached from it through names off the
    denylist.  Each of these whose name is the package name and which holds
    [__init__.py] yields one match for that marker file, without a line
    number; each of these holding [<package_name>.py] yields, independently,
    one match for that module file; nothing else is reported.  A directory
    behind a denylisted name yields nothing: for a package named as a
    denylisted directory, the only package directory located is the root
    itself. *)
Theorem python_definitions_structural_where_visited
        (fs : node) (root : Path) (P : string) :
  exists ms,
    find_package_definition fs root P "python" = Ok ms
    /\ ms = flat_map (python_definitions P) (walk fs root)
    /\ (forall rel es,
          clean rel -> lookup fs (root ++ rel) = Some (Dir es) ->
          In (root ++ rel, filter keep_dir (dirnames_of es), filenames_of es)
             (walk fs root)
          /\ (path_name (root ++ rel) = P ->
              In "__init__.py" (filenames_of es) ->
              In (marker_match (root ++ rel)) ms)
          /\ (In (P +++ ".py") (filenames_of es) ->
              In (module_match (root ++ rel) P) ms))
    /\ (forall current_dir dirnames filenames,
          In (current_dir, dirnames, filenames) (walk fs root) ->
          exists a b,
            python_definitions P (current_dir, dirnames, filenames) = a ++ b
            /\ ((path_name current_dir = P /\ In "__init__.py" filenames
                 /\ a = [marker_match current_dir])
                \/ (~ (path_name current_dir = P
                       /\ In "__init__.py" filenames) /\ a = []))
            /\ ((In (P +++ ".py") filenames
                 /\ b = [module_match current_dir P])
                \/ (~ In (P +++ ".py") filenames /\ b = [])))
    /\ (forall m, In m ms ->
          line_number m = None /\ match_type m = definition
          /\ exists rel dirnames filenames,
               clean rel
               /\ In (root ++ rel, dirnames, filenames) (walk fs root)
               /\ (well_formed fs = true ->
                   exists es, lookup fs (root ++ rel) = Some (Dir es)
                              /\ filenames = filenames_of es)
               /\ ((m = marker_match (root ++ rel)
                    /\ path_name (root ++ rel) = P
                    /\ In "__init__.py" filenames)
                   \/ (m = module_match (root ++ rel) P
                       /\ In (P +++ ".py") filenames)))
    /\ (should_skip_dir P = true ->
        forall m, In m ms ->
          m = marker_match root
          \/ exists rel, clean rel /\ m = module_match (root ++ rel) P).
Proof.
  destruct (python_definitions_are_structural fs root P)
    as (ms & Hok & Hms & Hvis & Hsound).
  assert (Hscope : forall m, In m ms ->
            exists rel dirnames filenames,
              clean rel
              /\ In (root ++ rel, dirnames, filenames) (walk fs root)
              /\ ((m = marker_match (root ++ rel)
                   /\ path_name (root ++ rel) = P
                   /\ In "__init__.py" filenames)
                  \/ (m = module_match (root ++ rel) P
                      /\ In (P +++ ".py") filenames))).
  { intros m Hm. destruct (Hsound m Hm) as (_ & _ & d & dn & fn & Hw & H).
    destruct (walk_clean fs root d dn fn Hw) as (rel & -> & Hc & _).
    exists rel, dn, fn. auto. }
  exists ms. split; [exact Hok|]. split; [exact Hms|]. split; [|split; [|split]].
  - intros rel es Hc Hl.
    pose proof (walk_complete fs root rel es Hl Hc) as Hw.
    split; [exact Hw|]. destruct (Hvis _ _ _ Hw) as (H1 & H2 & _). auto.
  - intros d dn fn Hw. destruct (Hvis d dn fn Hw) as (_ & _ & H). exact H.
  - intros m Hm. destruct (Hsound m Hm) as (Hline & Htype & _).
    split; [exact Hline|]. split; [exact Htype|].
    destruct (Hscope m Hm) as (rel & dn & fn & Hc & Hw & H).
    exists rel, dn, fn. split; [exact Hc|]. split; [exact Hw|].
    split; [|exact H].
    intros Hwf. apply (walk_lookup fs root _ dn fn Hwf Hw).
  - intros Hskip m Hm.
    destruct (Hscope m Hm) as (rel & dn & fn & Hc & _ & [(-> & Hn & _)|(-> & _)]).
    + left. destruct rel as [|x rel']; [rewrite app_nil_r; reflexivity|].
      exfalso. rewrite path_name_app in Hn by discriminate.
      pose proof (clean_last (x :: rel') Hc) as Hl.
      rewrite Hn, Hskip in Hl. discriminate Hl. discriminate.
    + right. exists rel. auto.
Qed.

(** C8 read over every directory of the tree does not hold.  Below the
    root a directory named [build] holds [__init__.py], and a Python search
    for the package "build" reports no definition, only the import: [build]
    is on the denylist, so the walk never enters that directory. *)
Lemma denylisted_package_directory_not_located :
  lookup build_fs ["repo"; "src"; "build"]
  = Some (Dir [("__init__.py", File (Some EmptyString))])
  /\ path_name ["repo"; "src"; "build"] = "build"
  /\ find_package_definition build_fs ["repo"] "build" "python" = Ok []
  /\ find_package build_fs ["repo"] "build" "python" None 100 true []
     = Ok (mkResult "build" "python" []
             [mkMatch ["repo"; "main.py"] import (Some 1) (Some "import build")]
             []).
Proof. vm_compute. repeat split. Qed.

End ScopeFacts.

(** ** What a match of a pattern says about the text *)

Module MatchFacts.
Import Re ReFacts PatternFacts CompilerFacts ScanFacts SearchFacts
       DefinitionFacts PackagesetFacts CollectFacts FnmatchFacts.

Lemma append_assoc (a b c : string) : (a +++ b) +++ c = a +++ b +++ c.
Proof. induction a as [|x a IH]; cbn; [reflexivity|]. rewrite IH. reflexivity. Qed.

(** A match goes on from the end of what it has read: the continuation is
    called on a text that ends the text given. *)
Lemma accepts_suffix ic r : forall prev s k,
  accepts ic r prev s k = true ->
  exists pre p' s', s = pre +++ s' /\ k p' s' = true.
Proof.
  induction r as [ |a| |neg cl|neg its|a|r1 IH1 r2 IH2|r1 IH1 r2 IH2
                  |r1 IH1|r1 IH1|r1 IH1]; intros prev s k H.
  - exists EmptyString, prev, s. auto.
  - cbn [accepts] in H. destruct s as [|c s]; [discriminate|].
    apply andb_true_iff in H. destruct H as [_ H].
    exists (String c EmptyString), (Some c), s. auto.
  - cbn [accepts] in H. destruct s as [|c s]; [discriminate|].
    apply andb_true_iff in H. destruct H as [_ H].
    exists (String c EmptyString), (Some c), s. auto.
  - cbn [accepts] in H. destruct s as [|c s]; [discriminate|].
    apply andb_true_iff in H. destruct H as [_ H].
    exists (String c EmptyString), (Some c), s. auto.
  - cbn [accepts] in H. destruct s as [|c s]; [discriminate|].
    apply andb_true_iff in H. destruct H as [_ H].
    exists (String c EmptyString), (Some c), s. auto.
  - cbn [accepts] in H. apply andb_true_iff in H. destruct H as [_ H].
    exists EmptyString, prev, s. auto.
  - cbn [accepts] in H. apply IH1 in H. destruct H as (a & p1 & s1 & -> & H).
    apply IH2 in H. destruct H as (b & p2 & s2 & -> & H).
    exists (a +++ b), p2, s2. rewrite append_assoc. auto.
  - cbn [accepts] in H. apply orb_true_iff in H.
    destruct H as [H|H]; [apply IH1 in H|apply IH2 in H]; exact H.
  - cbn [accepts] in H. revert H.
    generalize (String.length s) as n. intros n. revert prev s.
    induction n as [|n IHn]; intros prev s H.
    + rewrite orb_false_r in H. exists EmptyString, prev, s. auto.
    + apply orb_true_iff in H. destruct H as [H|H].
      * exists EmptyString, prev, s. auto.
      * apply IH1 in H. destruct H as (a & p1 & s1 & -> & H).
        apply andb_true_iff in H. destruct H as [_ H].
        apply IHn in H. destruct H as (b & p2 & s2 & -> & H).
        exists (a +++ b), p2, s2. rewrite append_assoc. auto.
  - cbn [accepts] in H. apply IH1 in H. destruct H as (a & p1 & s1 & -> & H).
    revert H. generalize (String.length s1) as n. intros n. revert p1 s1 a.
    induction n as [|n IHn]; intros p1 s1 a H.
    + rewrite orb_false_r in H. exists a, p1, s1. auto.
    + apply orb_true_iff in H. destruct H as [H|H].
      * exists a, p1, s1. auto.
      * apply IH1 in H. destruct H as (b & p2 & s2 & -> & H).
        apply andb_true_iff in H. destruct H as [_ H].
        apply (IHn p2 s2 (a +++ b)) in H.
        destruct H as (c & p3 & s3 & E & H).
        exists c, p3, s3. rewrite <- E, append_assoc. auto.
  - cbn [accepts] in H. apply orb_true_iff in H. destruct H as [H|H].
    + apply IH1 in H. exact H.
    + exists EmptyString, prev, s. auto.
Qed.

(** The items before the name are read from the start of the match; the
    name is read somewhere after. *)
Lemma accepts_after ic pre rest : forall prev s k,
  accepts ic (mk_seq (pre ++ rest)) prev s k = true ->
  exists a p' s', s = a +++ s' /\ accepts ic (mk_seq rest) p' s' k = true.
Proof.
  induction pre as [|r pre IH]; intros prev s k H.
  - exists EmptyString, prev, s. auto.
  - cbn [app mk_seq accepts] in H. apply accepts_suffix in H.
    destruct H as (a & p1 & s1 & -> & H). apply IH in H.
    destruct H as (b & p2 & s2 & -> & H).
    exists (a +++ b), p2, s2. rewrite append_assoc. auto.
Qed.

Lemma search_from_suffix p : forall s prev i start,
  search_from p prev s i = Some start ->
  exists a prev' t, s = a +++ t /\ match_here p prev' t = true.
Proof.
  induction s as [|c s IH]; intros prev i start H; cbn [search_from] in H.
  - destruct (match_here p prev EmptyString) eqn:E; [|discriminate].
    exists EmptyString, prev, EmptyString. auto.
  - destruct (match_here p prev (String c s)) eqn:E.
    + exists EmptyString, prev, (String c s). auto.
    + apply IH in H. destruct H as (a & prev' & t & -> & H).
      exists (String c a), prev', t. auto.
Qed.

(** A text matched by a pattern made from a template holds the name, up
    to case when case is ignored. *)
Lemma search_holds_name P t content start :
  search (fill P t) content = Some start ->
  exists a P' b, content = a +++ P' +++ b /\ text_eq (snd t) P P'.
Proof.
  destruct t as [[pre post] ic]. unfold search. intros H.
  apply search_from_suffix in H. destruct H as (a & prev & s & -> & H).
  unfold match_here, fill in H. cbn [pat_icase pat_re snd] in *.
  apply accepts_after in H. destruct H as (b & p1 & s1 & -> & H).
  apply accepts_lits in H. destruct H as (P' & s2 & -> & HP & _).
  exists (a +++ b), P', s2. rewrite append_assoc. auto.
Qed.

Lemma lower_append a b : Text.lower (a +++ b) = Text.lower a +++ Text.lower b.
Proof. induction a as [|x a IH]; cbn; [reflexivity|]. rewrite IH. reflexivity. Qed.

Lemma prefix_append b c : String.prefix b (b +++ c) = true.
Proof.
  induction b as [|x b IH]; cbn; [destruct c; reflexivity|].
  destruct (ascii_dec x x); [exact IH|congruence].
Qed.

Lemma contains_append a b c : Text.contains (a +++ b +++ c) b = true.
Proof.
  induction a as [|x a IH].
  - cbn [String.append]. destruct (b +++ c) eqn:E.
    + cbn. destruct b; [reflexivity|discriminate E].
    + cbn [Text.contains]. rewrite <- E, prefix_append. reflexivity.
  - cbn [String.append Text.contains]. rewrite IH. apply orb_true_r.
Qed.

(** The identifier check of the packageset locator finds nothing in a
    text that does not mention the name. *)
Lemma id_match_mentions P content start :
  search (fill P id_template) content = Some start ->
  Text.contains (Text.lower content) (Text.lower P) = true.
Proof.
  intros H. apply search_holds_name in H.
  destruct H as (a & P' & b & -> & HP). cbn in HP.
  rewrite !lower_append, HP. apply contains_append.
Qed.

(** X28.  For one ".packageset" file the locator never raises and reports
    at most one match; it reports the file exactly when the name of the
    file matches, or the file can be read and its content, in lower case,
    holds the package name in lower case.  The search for an "id" field
    decides only how a file is reported, as a definition with a line or as
    a reference, never whether it is. *)
Theorem packageset_reported_iff_mentioned
        (fs : node) (dirpath : Path) (filename P : string) :
  exists ms,
    check_packageset fs dirpath filename P = Ok ms
    /\ List.length ms <= 1
    /\ (ms <> []
        <-> filename_matches filename P = true
            \/ exists content,
                 read_text fs (path_join dirpath filename) = Some content
                 /\ Text.contains (Text.lower content) (Text.lower P) = true).
Proof.
  eexists. split; [apply check_packageset_ok|].
  unfold packageset_entry.
  destruct (filename_matches filename P).
  { split; [cbn; lia|]. split; [auto|discriminate]. }
  destruct (read_text fs (path_join dirpath filename)) as [content|].
  2:{ split; [cbn; lia|]. split; [congruence|].
      intros [H|(c & H & _)]; discriminate H. }
  destruct (Re.search (fill P id_template) content) as [start|] eqn:Hs.
  { split; [cbn; lia|]. split; [|discriminate].
    intros _. right. exists content. split; [reflexivity|].
    eapply id_match_mentions. exact Hs. }
  destruct (Text.contains (Text.lower content) (Text.lower P)) eqn:Hc.
  - split; [cbn; lia|]. split; [|discriminate].
    intros _. right. exists content. auto.
  - split; [cbn; lia|]. split; [congruence|].
    intros [H|(c & H & Hc')]; [discriminate H|].
    injection H as <-. congruence.
Qed.

Lemma in_definition_lines f pats lines : forall k m,
  In m (definition_lines f pats k lines) <->
  exists n line, nth_error lines n = Some line
                 /\ any_match pats line = true
                 /\ m = mkMatch f definition (Some (k + n))
                                (Some (Text.strip line)).
Proof.
  induction lines as [|line rest IH]; intros k m.
  - cbn. split; [intros []|]. intros (n & l & H & _). destruct n; discriminate H.
  - cbn [definition_lines]. rewrite in_app_iff, IH. split.
    + intros [H|(n & l & H1 & H2 & H3)].
      * destruct (any_match pats line) eqn:A; [|destruct H].
        destruct H as [<-|[]]. exists 0, line. rewrite Nat.add_0_r. auto.
      * exists (S n), l. split; [exact H1|]. split; [exact H2|].
        rewrite H3. do 2 f_equal. lia.
    + intros ([|n] & l & H1 & H2 & H3).
      * left. cbn in H1. injection H1 as <-. rewrite H2, H3, Nat.add_0_r.
        left. reflexivity.
      * right. exists n, l. split; [exact H1|]. split; [exact H2|].
        rewrite H3. do 2 f_equal. lia.
Qed.

(** X29.  For a language other than python the definition locator
    returns, and what it returns is exact: one entry for every line that
    some definition pattern matches, in every readable file that a
    directory of the walk lists and whose extension is one of the language
    (of all languages, for a language the registry does not list); the
    entry holds the file, the 1-based line number and the stripped line.
    A line is reported once even when several patterns match it. *)
Theorem definitions_are_exact
        (fs : node) (root : Path) (P L : string) :
  L <> "python" ->
  exists pats ms,
    get_definition_patterns P L = Ok pats
    /\ find_package_definition fs root P L = Ok ms
    /\ forall m,
         In m ms <->
         exists dirpath dirnames filenames filename n line,
           In (dirpath, dirnames, filenames) (walk fs root)
           /\ In filename filenames
           /\ Text.mem (suffix filename) (fst (profile L)) = true
           /\ nth_error (file_lines fs (path_join dirpath filename)) n
              = Some line
           /\ any_match pats line = true
           /\ m = mkMatch (path_join dirpath filename) definition (Some (S n))
                          (Some (Text.strip line)).
Proof.
  intros HL. exists (map (fill P) (definition_templates L)). eexists.
  split; [apply definition_patterns_ok|].
  split; [apply find_package_definition_ok|].
  intros m. unfold source_definitions.
  assert (Hpy : String.eqb L "python" = false)
    by (apply String.eqb_neq; exact HL).
  rewrite Hpy.
  assert (Hfst : match config_get L LANGUAGE_CONFIG with
                 | Some c => fst c
                 | None => ALL_EXTENSIONS
                 end = fst (profile L))
    by (unfold profile; destruct (config_get L LANGUAGE_CONFIG); reflexivity).
  rewrite Hfst. rewrite in_flat_map. split.
  - intros ([[d dn] fn] & Hw & H). apply in_flat_map in H.
    destruct H as (filename & Hf & H). unfold file_definitions in H.
    destruct (Text.mem (suffix filename) (fst (profile L))) eqn:Hs;
      [|destruct H].
    destruct (read_text fs (path_join d filename)) as [text|] eqn:Hr;
      [|destruct H].
    apply in_definition_lines in H. destruct H as (n & line & H1 & H2 & H3).
    exists d, dn, fn, filename, n, line. unfold file_lines. rewrite Hr. auto 10.
  - intros (d & dn & fn & filename & n & line & Hw & Hf & Hs & Hn & Hm & ->).
    exists (d, dn, fn). split; [exact Hw|]. apply in_flat_map.
    exists filename. split; [exact Hf|]. unfold file_definitions.
    rewrite Hs. unfold file_lines in Hn.
    destruct (read_text fs (path_join d filename)) as [text|];
      [|destruct n; discriminate Hn].
    apply in_definition_lines. exists n, line. auto.
Qed.

End MatchFacts.

(** ** Nothing is read or reported twice *)

Module OnceFacts.
Import ReFacts ScanFacts WalkFacts SearchFacts OrderFacts DefinitionFacts
       BatchFacts RunFacts CollectFacts FinderFacts TreeFacts.

(** Lists taken from the items of a list without repeats, each under the
    key of its item, put end to end, hold no repeat. *)
Lemma nodup_flat_map_key {A B K} (key : A -> K) (kb : B -> K)
      (g : A -> list B) (l : list A) :
  NoDup (map key l) ->
  (forall x, In x l -> NoDup (g x)) ->
  (forall x b, In x l -> In b (g x) -> kb b = key x) ->
  NoDup (flat_map g l).
Proof.
  induction l as [|x l IH]; intros Hk Hg Hb; [constructor|].
  cbn [map] in Hk. inversion Hk as [|? ? Hnot Hk']; subst.
  cbn [flat_map]. apply NoDup_app.
  - apply Hg. left. reflexivity.
  - apply IH; [exact Hk'| |]; intros; [apply Hg|apply Hb]; try right; assumption.
  - intros b Hin1 Hin2. apply in_flat_map in Hin2.
    destruct Hin2 as (y & Hy & Hin2). apply Hnot.
    rewrite <- (Hb x b (or_introl eq_refl) Hin1).
    rewrite (Hb y b (or_intror Hy) Hin2).
    apply in_map. exact Hy.
Qed.

Lemma map_of_flat_map {A B C} (f : B -> C) (g : A -> list B) l :
  map f (flat_map g l) = flat_map (fun x => map f (g x)) l.
Proof.
  induction l as [|x l IH]; [reflexivity|].
  cbn [flat_map]. rewrite map_app, IH. reflexivity.
Qed.

Lemma filtered_names_once (P : node -> bool) (es : list (string * node)) :
  NoDup (map fst es) -> NoDup (map fst (filter (fun e => P (snd e)) es)).
Proof.
  induction es as [|[name child] es IH]; intros H; [constructor|].
  cbn [map fst] in H. inversion H as [|? ? Hnot H']; subst.
  cbn [filter snd]. destruct (P child); [|apply IH; exact H'].
  cbn [map fst]. constructor; [|apply IH; exact H'].
  intros Hin. apply Hnot. apply in_map_iff in Hin.
  destruct Hin as (e & <- & He). apply filter_In in He.
  apply in_map. apply He.
Qed.

(** In a tree that lists every name once the walk hands over every
    directory once. *)
Lemma os_walk_paths_once keep n : forall top,
  well_formed n = true ->
  NoDup (map (fun t => fst (fst t)) (os_walk keep top n)).
Proof.
  induction n as [c| |es IH] using node_ind'; intros top Hw;
    [cbn; constructor|cbn; constructor|].
  rewrite os_walk_Dir. cbn [map fst]. constructor.
  - intros Hin. apply in_map_iff in Hin. destruct Hin as (t & Et & Hin).
    apply in_flat_map in Hin. destruct Hin as ([name child] & _ & Hin).
    cbn [fst snd] in Hin. destruct (keep name); [|destruct Hin].
    apply os_walk_kept in Hin. destruct Hin as (rel & E & _).
    rewrite Et in E. unfold path_join in E.
    apply (f_equal (@List.length string)) in E.
    rewrite !length_app in E. cbn in E. lia.
  - rewrite map_of_flat_map.
    destruct (well_formed_Dir es Hw) as [Hn Hf].
    apply (nodup_flat_map_key fst (fun p => nth (List.length top) p EmptyString)).
    + exact Hn.
    + intros [name child] Hin. cbn [fst snd].
      destruct (keep name); [|constructor].
      rewrite Forall_forall in IH, Hf. apply (IH _ Hin). apply (Hf _ Hin).
    + intros [name child] p Hin Hp. cbn [fst snd] in *.
      destruct (keep name); [|destruct Hp].
      apply in_map_iff in Hp. destruct Hp as (t & <- & Ht).
      apply os_walk_kept in Ht. destruct Ht as (rel & -> & _).
      unfold path_join. rewrite <- app_assoc. cbn [app].
      apply nth_middle.
Qed.

Lemma walk_once fs start :
  well_formed fs = true ->
  NoDup (map (fun t => fst (fst t)) (walk fs start))
  /\ forall t, In t (walk fs start) -> NoDup (snd t).
Proof.
  intros Hw. unfold walk. destruct (lookup fs start) as [n|] eqn:Hl.
  - assert (Hn : well_formed n = true)
      by (eapply well_formed_lookup; eassumption).
    split; [apply os_walk_paths_once; exact Hn|].
    intros t Ht. apply os_walk_lookup in Ht; [|exact Hn].
    destruct Ht as (rel & es & _ & _ & Hes & ->).
    unfold filenames_of.
    apply (filtered_names_once (fun c => negb (is_dir c))). apply well_formed_Dir.
    eapply well_formed_lookup; eassumption.
  - split; [constructor|intros t []].
Qed.

Lemma removelast_join d name : removelast (path_join d name) = d.
Proof. apply removelast_last. Qed.

Lemma iter_source_files_once fs root L ic :
  well_formed fs = true -> NoDup (iter_source_files fs root L ic).
Proof.
  intros Hw. destruct (walk_once fs root Hw) as [Hd Hf].
  unfold iter_source_files. fold (profile L).
  destruct (profile L) as [exts cfgs].
  apply (nodup_flat_map_key (fun t => fst (fst t)) (@removelast string));
    [exact Hd| |].
  - intros [[d dn] fn] Ht. specialize (Hf _ Ht). cbn [snd] in Hf.
    apply (nodup_flat_map_key (fun f => f) (fun p => last p EmptyString)).
    + rewrite map_id. exact Hf.
    + intros f _. unfold source_file.
      destruct (Text.mem _ _); [repeat constructor; intros []|].
      destruct (_ && _); [repeat constructor; intros []|constructor].
    + intros f p _ Hp. unfold source_file in Hp.
      destruct (Text.mem (suffix f) exts);
        [destruct Hp as [<-|[]]; apply path_name_join|].
      destruct (_ && _); [destruct Hp as [<-|[]]; apply path_name_join|].
      destruct Hp.
  - intros [[d dn] fn] p _ Hp. cbn [fst]. apply in_flat_map in Hp.
    destruct Hp as (f & _ & Hp). unfold source_file in Hp.
    destruct (Text.mem (suffix f) exts);
      [destruct Hp as [<-|[]]; apply removelast_join|].
    destruct (_ && _); [destruct Hp as [<-|[]]; apply removelast_join|].
    destruct Hp.
Qed.

(** The scanner reports a line at most once in each list. *)
Lemma scan_lines_once f pats up lines : forall k,
  NoDup (fst (scan_lines f pats up k lines))
  /\ NoDup (snd (scan_lines f pats up k lines)).
Proof.
  induction lines as [|line rest IH]; intros k; [split; constructor|].
  cbn [scan_lines]. destruct (IH (S k)) as [H1 H2].
  pose proof (scan_lines_imports f pats up rest (S k)) as Hi.
  pose proof (scan_lines_usages f pats up rest (S k)) as Hu.
  destruct (scan_lines f pats up (S k) rest) as [imps uses].
  cbn [fst snd] in *.
  destruct (any_match pats line); [|destruct (usage_match up line)];
    cbn [fst snd]; split; try assumption; constructor; try assumption.
  - intros Hin. apply Hi in Hin. destruct Hin as (n & l & _ & _ & E).
    injection E as E _. lia.
  - intros Hin. apply Hu in Hin. destruct Hin as (n & l & _ & _ & _ & E).
    injection E as E _. lia.
Qed.

Lemma packageset_entry_short fs d f P :
  List.length (packageset_entry fs d f P) <= 1.
Proof.
  unfold packageset_entry. destruct (filename_matches f P); [cbn; lia|].
  destruct (read_text fs (path_join d f)); [|cbn; lia].
  destruct (Re.search _ s); [cbn; lia|].
  destruct (Text.contains _ _); cbn; lia.
Qed.

Lemma short_once {A} (l : list A) : List.length l <= 1 -> NoDup l.
Proof.
  destruct l as [|x [|y l]]; cbn; intros H; try lia.
  - constructor.
  - repeat constructor. intros [].
Qed.

Lemma packageset_found_once fs root P sp :
  well_formed fs = true -> NoDup (packageset_found fs root P sp).
Proof.
  intros Hw. unfold packageset_found. destruct sp; [|constructor].
  destruct (walk_once fs (pkgset_root fs root) Hw) as [Hd Hf].
  apply (nodup_flat_map_key (fun t => fst (fst t))
                            (fun m => removelast (path m))); [exact Hd| |].
  - intros [[d dn] fn] Ht. specialize (Hf _ Ht). cbn [snd] in Hf.
    unfold packageset_dir.
    apply (nodup_flat_map_key (fun f => f)
                              (fun m => last (path m) EmptyString)).
    + rewrite map_id. exact Hf.
    + intros f _. destruct (Text.endswith f ".packageset"); [|constructor].
      apply short_once, packageset_entry_short.
    + intros f m _ Hm. destruct (Text.endswith f ".packageset"); [|destruct Hm].
      apply packageset_entry_path in Hm. rewrite Hm. apply path_name_join.
  - intros [[d dn] fn] m _ Hm. cbn [fst]. unfold packageset_dir in Hm.
    apply in_flat_map in Hm. destruct Hm as (f & _ & Hm).
    destruct (Text.endswith f ".packageset"); [|destruct Hm].
    apply packageset_entry_path in Hm. rewrite Hm. apply removelast_join.
Qed.

Lemma packageset_reference_line fs root P sp m :
  In m (filter (fun m => negb (is_definition m))
               (packageset_found fs root P sp)) ->
  line_number m = None.
Proof.
  intros H. apply filter_In in H. destruct H as [H Hd].
  unfold packageset_found in H. destruct sp; [|destruct H].
  apply in_flat_map in H.
  destruct H as ([[dirpath dirnames] filenames] & _ & H).
  unfold packageset_dir in H. apply in_flat_map in H.
  destruct H as (filename & _ & H).
  destruct (Text.endswith filename ".packageset"); [|destruct H].
  unfold packageset_entry in H.
  destruct (filename_matches filename P); [destruct H as [<-|[]]; reflexivity|].
  destruct (read_text fs (path_join dirpath filename)); [|destruct H].
  destruct (Re.search _ s);
    [destruct H as [<-|[]]; cbn in Hd; discriminate Hd|].
  destruct (Text.contains _ _); [destruct H as [<-|[]]; reflexivity|destruct H].
Qed.

(** X30.  In a tree whose directories list each name once, a search with
    a positive batch size and a well-used pool collects every file once and
    reports no import and no usage twice. *)
Theorem nothing_is_reported_twice
        (fs : node) (root : Path) (P L : string) (mw : option Z) (bs : Z)
        (sp : bool) (arrival : list nat) :
  well_formed fs = true ->
  (0 < bs)%Z ->
  pool_ok mw arrival (batches_of fs root L bs) ->
  NoDup (collected fs root L)
  /\ exists r,
       find_package fs root P L mw bs sp arrival = Ok r
       /\ NoDup (imports r) /\ NoDup (usages r).
Proof.
  intros Hw Hbs Hpool.
  assert (Hfiles : NoDup (collected fs root L))
    by (apply iter_source_files_once; exact Hw).
  split; [exact Hfiles|].
  eexists. split; [apply find_package_positive; assumption|].
  unfold sequential_result, assemble. cbn [imports usages].
  rewrite sequential_batches_flat by lia.
  unfold batch_result. cbn [fst snd].
  set (lang := resolve_language fs root L).
  assert (Hscan_i : NoDup (flat_map (fun f => fst (scan_file fs P lang f))
                                    (collected fs root L))).
  { apply (nodup_flat_map_key (fun f => f) path).
    - rewrite map_id. exact Hfiles.
    - intros f _. apply scan_lines_once.
    - intros f m _ Hm. eapply scan_file_import_path. exact Hm. }
  assert (Hscan_u : NoDup (flat_map (fun f => snd (scan_file fs P lang f))
                                    (collected fs root L))).
  { apply (nodup_flat_map_key (fun f => f) path).
    - rewrite map_id. exact Hfiles.
    - intros f _. apply scan_lines_once.
    - intros f m _ Hm. eapply scan_file_usage_path. exact Hm. }
  split.
  - eapply Permutation_NoDup; [symmetry; apply sort_matches_perm|].
    apply NoDup_app.
    + apply NoDup_filter. apply packageset_found_once. exact Hw.
    + exact Hscan_i.
    + intros m H1 H2. apply packageset_reference_line in H1.
      apply in_flat_map in H2. destruct H2 as (f & _ & H2).
      unfold scan_file in H2. apply scan_lines_imports in H2.
      destruct H2 as (n & l & _ & _ & E).
      rewrite E in H1. discriminate H1.
  - eapply Permutation_NoDup; [symmetry; apply sort_matches_perm|].
    exact Hscan_u.
Qed.

End OnceFacts.

(** ** Worked instances of the further properties *)

Module Instances.
Import BatchFacts RunFacts CollectFacts ReportFacts FnmatchFacts FinderFacts
       TreeFacts MatchFacts OnceFacts.

(** Three batches of one file handed back in the order 2, 0, 1, against
    one batch of a hundred run by a single worker. *)
Lemma batching_is_unobservable_witness :
  (0 < 1)%Z /\ (0 < 100)%Z
  /\ pool_ok None [2; 0; 1] (batches_of three_files_fs ["repo"] "python" 1)
  /\ pool_ok (Some 1%Z) [] (batches_of three_files_fs ["repo"] "python" 100)
  /\ find_package three_files_fs ["repo"] "foo" "python" None 1 true [2; 0; 1]
     = find_package three_files_fs ["repo"] "foo" "python" (Some 1%Z) 100 true [].
Proof.
  assert (H1 : (0 < 1)%Z) by lia.
  assert (H2 : (0 < 100)%Z) by lia.
  assert (H3 : pool_ok None [2; 0; 1]
                       (batches_of three_files_fs ["repo"] "python" 1)).
  { intros _. split; [exact I|].
    change (Permutation [2; 0; 1] [0; 1; 2]).
    apply Permutation_sym.
    apply (perm_trans (l' := [0; 2; 1])).
    - apply perm_skip. apply perm_swap.
    - apply (perm_trans (l' := [2; 0; 1])); [apply perm_swap|reflexivity]. }
  assert (H4 : pool_ok (Some 1%Z) []
                       (batches_of three_files_fs ["repo"] "python" 100)).
  { intros H. vm_compute in H. discriminate H. }
  repeat (split; [assumption|]).
  exact (proj1 (batching_is_unobservable three_files_fs ["repo"] "foo" "python"
                  true 1 100 None (Some 1%Z) [2; 0; 1] [] H1 H2 H3 H4)).
Defined.

(** A batch size of -1: the three files are not read. *)
Lemma negative_batch_size_scans_nothing_witness :
  (-1 < 0)%Z
  /\ exists r,
       find_package three_files_fs ["repo"] "foo" "python" None (-1) true []
       = Ok r
       /\ usages r = [].
Proof.
  assert (H : (-1 < 0)%Z) by lia.
  split; [exact H|].
  destruct (negative_batch_size_scans_nothing three_files_fs ["repo"] "foo"
              "python" None (-1) true [] H) as (r & Hr & Hu & _).
  exists r. split; assumption.
Defined.

(** Three files, batches of one, no worker. *)
Lemma nonpositive_worker_count_witness :
  (0 < 1)%Z /\ (0 <= 0)%Z
  /\ (1 < Z.of_nat (List.length (collected three_files_fs ["repo"] "python")))%Z
  /\ find_package three_files_fs ["repo"] "foo" "python" (Some 0%Z) 1 true []
     = Raise ValueError.
Proof.
  assert (H1 : (0 < 1)%Z) by lia.
  assert (H2 : (0 <= 0)%Z) by lia.
  assert (H3 : (1 < Z.of_nat (List.length
                                (collected three_files_fs ["repo"] "python")))%Z)
    by (vm_compute; reflexivity).
  repeat (split; [assumption|]).
  exact (proj2 (nonpositive_worker_count three_files_fs ["repo"] "foo" "python"
                  1 0 true [] H1 H2) H3).
Defined.

(** The packageset outside the canonical directory is not reported. *)
Lemma canonical_directory_is_exclusive_witness :
  isdir canonical_fs (canonical_pkgset ["repo"]) = true
  /\ exists ms,
       find_packageset_definition canonical_fs ["repo"] "opmlite" = Ok ms
       /\ forall m, In m ms ->
            exists rel name,
              path m = ["repo"] ++ ["src"; "otools"; "deps"; "pkgsets"]
                       ++ rel ++ [name]
              /\ Text.endswith name ".packageset" = true.
Proof.
  assert (H : isdir canonical_fs (canonical_pkgset ["repo"]) = true)
    by reflexivity.
  split; [exact H|].
  exact (canonical_directory_is_exclusive canonical_fs ["repo"] "opmlite" H).
Defined.

(** The search over the three files. *)
Lemma categories_hold_their_kind_witness :
  find_package three_files_fs ["repo"] "foo" "python" None 100 true []
  = Ok (sequential_result three_files_fs ["repo"] "foo" "python" 100 true)
  /\ Forall (fun m => match_type m = usage)
            (usages (sequential_result three_files_fs ["repo"] "foo" "python"
                                       100 true)).
Proof.
  assert (H : find_package three_files_fs ["repo"] "foo" "python" None 100
                           true []
              = Ok (sequential_result three_files_fs ["repo"] "foo" "python"
                                      100 true))
    by (vm_compute; reflexivity).
  split; [exact H|].
  exact (proj2 (proj2 (categories_hold_their_kind three_files_fs ["repo"] "foo"
                         "python" None 100 true [] _ H))).
Defined.

Lemma search_is_exact_witness :
  (0 < 100)%Z
  /\ pool_ok None [] (batches_of three_files_fs ["repo"] "python" 100)
  /\ exists pats upat r,
       get_import_patterns "foo" (resolve_language three_files_fs ["repo"] "python")
       = Ok pats
       /\ get_usage_pattern "foo" (resolve_language three_files_fs ["repo"] "python")
          = Ok upat
       /\ find_package three_files_fs ["repo"] "foo" "python" None 100 true []
          = Ok r.
Proof.
  assert (H1 : (0 < 100)%Z) by lia.
  assert (H2 : pool_ok None [] (batches_of three_files_fs ["repo"] "python" 100)).
  { intros H. vm_compute in H. discriminate H. }
  split; [exact H1|]. split; [exact H2|].
  destruct (search_is_exact three_files_fs ["repo"] "foo" "python" None 100
              true [] H1 H2) as (pats & upat & r & Hp & Hu & Hr & _).
  exists pats, upat, r. auto.
Defined.

(** The empty name is no language of the registry. *)
Lemma unlisted_language_collects_all_witness :
  config_get EmptyString LANGUAGE_CONFIG = None
  /\ In ["repo"; "a.py"] (iter_source_files three_files_fs ["repo"] "python" true)
  /\ In ["repo"; "a.py"]
        (iter_source_files three_files_fs ["repo"] EmptyString true).
Proof.
  assert (H1 : config_get EmptyString LANGUAGE_CONFIG = None) by reflexivity.
  assert (H2 : In ["repo"; "a.py"]
                  (iter_source_files three_files_fs ["repo"] "python" true))
    by (vm_compute; right; left; reflexivity).
  split; [exact H1|]. split; [exact H2|].
  exact (unlisted_language_collects_all three_files_fs ["repo"] "python"
           EmptyString true _ H1 H2).
Defined.

(** Of "App.csproj" and "*.csproj" only the second is collected. *)
Lemma wildcard_config_names_are_literal_witness :
  In ".csproj" [".csproj"; ".sln"; ".nuspec"]
  /\ In (["repo"] ++ ["*" +++ ".csproj"])
        (iter_source_files wildcard_fs ["repo"] "csharp" true)
  /\ ~ In ["repo"; "App.csproj"]
          (iter_source_files wildcard_fs ["repo"] "csharp" true).
Proof.
  assert (H1 : In ".csproj" [".csproj"; ".sln"; ".nuspec"])
    by (left; reflexivity).
  assert (H2 : In (["repo"] ++ ["*" +++ ".csproj"])
                  (iter_source_files wildcard_fs ["repo"] "csharp" true))
    by (vm_compute; left; reflexivity).
  split; [exact H1|]. split; [exact H2|].
  intros H3.
  pose proof (wildcard_config_names_are_literal wildcard_fs ["repo"] true
                ["repo"] "App" ".csproj" H1 H3) as E.
  discriminate E.
Defined.

(** A tree of packageset files, searched with auto-detection. *)
Lemma only_packagesets_outside_lexical_languages_witness :
  lexical (resolve_language packageset_fs ["repo"] "auto") = false
  /\ find_package packageset_fs ["repo"] "foo" "auto" None 100 false []
     = Ok (sequential_result packageset_fs ["repo"] "foo" "auto" 100 false)
  /\ found (sequential_result packageset_fs ["repo"] "foo" "auto" 100 false)
     = false.
Proof.
  assert (H1 : lexical (resolve_language packageset_fs ["repo"] "auto") = false)
    by reflexivity.
  assert (H2 : find_package packageset_fs ["repo"] "foo" "auto" None 100 false []
               = Ok (sequential_result packageset_fs ["repo"] "foo" "auto" 100
                                       false))
    by (vm_compute; reflexivity).
  split; [exact H1|]. split; [exact H2|].
  exact (proj2 (proj2 (proj2
           (only_packagesets_outside_lexical_languages packageset_fs ["repo"]
              "foo" "auto" None 100 false [] _ H1 H2))) eq_refl).
Defined.

(** Two imports displayed with [max_items = -1]: one is shown and the
    line announces three more. *)
Lemma truncation_line_counts_witness :
  two_imports <> []
  /\ located_section "Imports" ["repo"] (-1) two_imports
     = Ok [nl +++ "Imports (2):"; Text.repeat_char "-" 40;
           "  a.py:2"; "    import foo"; "  ... and 3 more"]
  /\ more_line (-1) two_imports = ["  ... and 3 more"].
Proof.
  assert (H1 : two_imports <> []) by discriminate.
  assert (H2 : located_section "Imports" ["repo"] (-1) two_imports
               = Ok [nl +++ "Imports (2):"; Text.repeat_char "-" 40;
                     "  a.py:2"; "    import foo"; "  ... and 3 more"])
    by (vm_compute; reflexivity).
  split; [exact H1|]. split; [exact H2|].
  destruct (truncation_line_counts "Imports" ["repo"] (-1) two_imports _ H1 H2)
    as (entries & _ & _ & _ & Hneg).
  destruct (Hneg eq_refl) as [_ Hm]. exact Hm.
Defined.

(** The directory "cli" below "src" is found by a search for both kinds,
    the one below "node_modules" is not; the file named "venv" is found. *)
Lemma skipped_directories_are_never_searched_witness :
  In ["repo"; "src"; "cli"]
     (FileFinder.find_files finder_fs ["repo"] "cli" false false "both")
  /\ well_formed finder_fs = true
  /\ isdir finder_fs ["repo"; "src"; "cli"] = true
  /\ (exists rel name,
        ["repo"; "src"; "cli"] = ["repo"] ++ rel ++ [name]
        /\ unskipped rel
        /\ Text.mem name FileFinder.skip_dirs = false)
  /\ FileFinder.find_files finder_fs ["repo"] "cli" false false "both"
     = [["repo"; "CLI"]; ["repo"; "src"; "cli"]]
  /\ FileFinder.find_files finder_fs ["repo"] "venv" true false "both"
     = [["repo"; "venv"]].
Proof.
  assert (H : In ["repo"; "src"; "cli"]
                 (FileFinder.find_files finder_fs ["repo"] "cli" false false
                                        "both"))
    by (vm_compute; right; left; reflexivity).
  assert (Hw : well_formed finder_fs = true) by reflexivity.
  assert (Hd : isdir finder_fs ["repo"; "src"; "cli"] = true) by reflexivity.
  split; [exact H|]. split; [exact Hw|]. split; [exact Hd|].
  split; [|split; reflexivity].
  destruct (skipped_directories_are_never_searched finder_fs ["repo"] "cli"
              false false "both" _ H) as (rel & name & E & Hu & _ & Hk).
  exists rel, name. auto.
Defined.

Lemma plain_pattern_is_exact_search_witness :
  plain "cli" = true
  /\ FileFinder.find_files finder_fs ["repo"] "cli" false true "both"
     = FileFinder.find_files finder_fs ["repo"] "cli" false false "both".
Proof.
  assert (H : plain "cli" = true) by reflexivity.
  split; [exact H|].
  exact (plain_pattern_is_exact_search finder_fs ["repo"] "cli" false "both" H).
Defined.

Lemma star_pattern_finds_by_ending_witness :
  plain ".json" = true
  /\ In ["repo"; "src"; "data.json"]
        (FileFinder.find_files finder_fs ["repo"] "*.json" false true "both").
Proof.
  assert (H : plain ".json" = true) by reflexivity.
  split; [exact H|].
  apply (proj2 (star_pattern_finds_by_ending finder_fs ["repo"] ".json" false
                  "both" ["repo"; "src"; "data.json"] H)).
  split; [vm_compute; repeat (first [left; reflexivity | right])|reflexivity].
Defined.

Lemma matches_are_printed_relative_witness :
  FileFinder.farg_absolute
    (FileFinder.mkFinderArgs "cli" ["repo"] false false false false false) = false
  /\ In ["repo"; "src"; "cli"]
        (FileFinder.find_files finder_fs ["repo"] "cli" false false "both")
  /\ exists rel name,
       ["repo"; "src"; "cli"] = ["repo"] ++ rel ++ [name]
       /\ relative_to ["repo"; "src"; "cli"] ["repo"] = Some (rel ++ [name])
       /\ FileFinder.match_line finder_fs
            (FileFinder.mkFinderArgs "cli" ["repo"] false false false false false)
            ["repo"; "src"; "cli"]
          = Text.join "/" (rel ++ [name])
            +++ (if isdir finder_fs ["repo"; "src"; "cli"] then "/"
                 else EmptyString).
Proof.
  assert (H1 : FileFinder.farg_absolute
                 (FileFinder.mkFinderArgs "cli" ["repo"] false false false false false)
               = false) by reflexivity.
  assert (H2 : In ["repo"; "src"; "cli"]
                  (FileFinder.find_files finder_fs ["repo"] "cli" false false
                                         "both"))
    by (vm_compute; right; left; reflexivity).
  split; [exact H1|]. split; [exact H2|].
  exact (matches_are_printed_relative finder_fs
           (FileFinder.mkFinderArgs "cli" ["repo"] false false false false false)
           _ H1 H2).
Defined.

Lemma find_type_selects_the_kind_witness :
  well_formed finder_fs = true
  /\ In ["repo"; "src"; "cli"]
        (FileFinder.find_files finder_fs ["repo"] "cli" false false "dirs")
  /\ isdir finder_fs ["repo"; "src"; "cli"] = true.
Proof.
  assert (H1 : well_formed finder_fs = true) by reflexivity.
  assert (H2 : In ["repo"; "src"; "cli"]
                  (FileFinder.find_files finder_fs ["repo"] "cli" false false
                                         "dirs"))
    by (vm_compute; left; reflexivity).
  split; [exact H1|]. split; [exact H2|].
  exact (proj2 (proj2 (find_type_selects_the_kind finder_fs ["repo"] "cli"
                         false false "dirs" _ H1 H2)) eq_refl).
Defined.

(** The module declaration is found; the manifest, which names the crate,
    is not read. *)
Lemma definitions_never_in_config_files_witness :
  In "rust" ["csharp"; "perl"; "rust"]
  /\ find_package_definition rust_fs ["repo"] "foo" "rust"
     = Ok [mkMatch ["repo"; "lib.rs"] definition (Some 1) (Some "mod foo;")]
  /\ ~ In "lib.rs" (snd (profile "rust")).
Proof.
  assert (H1 : In "rust" ["csharp"; "perl"; "rust"])
    by (right; right; left; reflexivity).
  assert (H2 : find_package_definition rust_fs ["repo"] "foo" "rust"
               = Ok [mkMatch ["repo"; "lib.rs"] definition (Some 1)
                             (Some "mod foo;")])
    by (vm_compute; reflexivity).
  split; [exact H1|]. split; [exact H2|].
  exact (proj1 (proj2 (definitions_never_in_config_files rust_fs ["repo"] "foo"
                         "rust" _ _ H1 H2 (or_introl eq_refl)))).
Defined.

(** The identifier is on the second line of the file. *)
Lemma id_match_line_exists_witness :
  read_text id_fs (path_join ["repo"] "x.packageset") = Some id_content
  /\ check_packageset id_fs ["repo"] "x.packageset" "foo"
     = Ok [mkMatch ["repo"; "x.packageset"] definition (Some 2) (Some id_line)]
  /\ exists line,
       nth_error (Text.split_nl id_content) (2 - 1) = Some line
       /\ Some id_line = Some (Text.strip line).
Proof.
  assert (H1 : read_text id_fs (path_join ["repo"] "x.packageset")
               = Some id_content) by reflexivity.
  assert (H2 : check_packageset id_fs ["repo"] "x.packageset" "foo"
               = Ok [mkMatch ["repo"; "x.packageset"] definition (Some 2)
                             (Some id_line)])
    by (vm_compute; reflexivity).
  split; [exact H1|]. split; [exact H2|].
  exact (proj2 (proj2 (id_match_line_exists id_fs ["repo"] "x.packageset" "foo"
                         id_content _ 2 H1 H2 eq_refl))).
Defined.

(** A source file of the tree, found from what the tree holds. *)
Lemma iter_source_files_is_exact_witness :
  well_formed three_files_fs = true
  /\ In ["repo"; "a.py"]
        (iter_source_files three_files_fs ["repo"] "python" true).
Proof.
  assert (H : well_formed three_files_fs = true) by reflexivity.
  split; [exact H|].
  apply (proj2 (iter_source_files_is_exact three_files_fs ["repo"] "python"
                  true ["repo"; "a.py"] H)).
  exists [], "a.py", (Some ("x = foo.y" +++ nl +++ "import foo" +++ nl)).
  split; [reflexivity|]. split; [constructor|]. split; [reflexivity|].
  left. reflexivity.
Defined.

(** The file "CLI" is found by the search for "cli" that ignores case. *)
Lemma find_files_is_exact_witness :
  well_formed finder_fs = true
  /\ In ["repo"; "CLI"]
        (FileFinder.find_files finder_fs ["repo"] "cli" false false "files").
Proof.
  assert (H : well_formed finder_fs = true) by reflexivity.
  split; [exact H|].
  apply (proj2 (find_files_is_exact finder_fs ["repo"] "cli" false false
                  "files" ["repo"; "CLI"] H)).
  exists [], "CLI", (File (Some "x")).
  split; [reflexivity|]. split; [constructor|]. split; [reflexivity|].
  split; reflexivity.
Defined.

(** The directory "cli" below "src" makes the search for "cli" succeed. *)
Lemma finder_succeeds_iff_entry_exists_witness :
  well_formed finder_fs = true
  /\ snd (FileFinder.finder_main finder_fs
            (FileFinder.mkFinderArgs "cli" ["repo"] false true false false
                                     false)) = 0%Z.
Proof.
  assert (Hw : well_formed finder_fs = true) by reflexivity.
  split; [exact Hw|].
  apply (proj2 (proj1 (finder_succeeds_iff_entry_exists finder_fs
                         (FileFinder.mkFinderArgs "cli" ["repo"] false true
                                                  false false false) Hw))).
  split; [reflexivity|]. split; [reflexivity|].
  exists ["src"], "cli", (Dir []).
  split; [repeat constructor|]. split; [reflexivity|]. split; [reflexivity|].
  split; reflexivity.
Defined.

(** The namespace declaration of the C# tree. *)
Lemma definitions_are_exact_witness :
  "csharp" <> "python"
  /\ exists pats ms,
       get_definition_patterns "Acme.Foo" "csharp" = Ok pats
       /\ find_package_definition csharp_fs ["repo"] "Acme.Foo" "csharp" = Ok ms.
Proof.
  assert (H : "csharp" <> "python") by discriminate.
  split; [exact H|].
  destruct (definitions_are_exact csharp_fs ["repo"] "Acme.Foo" "csharp" H)
    as (pats & ms & Hp & Hm & _).
  exists pats, ms. auto.
Defined.

(** The three files, scanned in three batches handed back out of order. *)
Lemma nothing_is_reported_twice_witness :
  well_formed three_files_fs = true /\ (0 < 1)%Z
  /\ pool_ok None [2; 0; 1] (batches_of three_files_fs ["repo"] "python" 1)
  /\ NoDup (collected three_files_fs ["repo"] "python")
  /\ exists r,
       find_package three_files_fs ["repo"] "foo" "python" None 1 true [2; 0; 1]
       = Ok r
       /\ NoDup (imports r) /\ NoDup (usages r).
Proof.
  assert (H0 : well_formed three_files_fs = true) by reflexivity.
  assert (H1 : (0 < 1)%Z) by lia.
  assert (H3 : pool_ok None [2; 0; 1]
                       (batches_of three_files_fs ["repo"] "python" 1)).
  { intros _. split; [exact I|].
    change (Permutation [2; 0; 1] [0; 1; 2]).
    apply Permutation_sym.
    apply (perm_trans (l' := [0; 2; 1])).
    - apply perm_skip. apply perm_swap.
    - apply (perm_trans (l' := [2; 0; 1])); [apply perm_swap|reflexivity]. }
  repeat (split; [assumption|]).
  exact (nothing_is_reported_twice three_files_fs ["repo"] "foo" "python" None 1
           true [2; 0; 1] H0 H1 H3).
Defined.

End Instances.
